(** * Aegis AI integration API: job queue, webhook delivery, signatures, API keys

    A shallow embedding of the Python sources under [apps/api/src]:

    - [webhooks/delivery.py]: [generate_signature], [verify_signature],
      [deliver_webhook];
    - [jobs/queue.py] (the in-memory fallback queue): [add_analysis_job],
      [_process_queue_background], [get_job_status];
    - [jobs/processor.py]: [process_analysis_job];
    - [endpoints/jobs.py]: [get_job];
    - [auth/api_keys.py]: [generate_api_key], [validate_api_key];
    - [config.py]: the [Settings] defaults the above read;
    - [auth/middleware.py], [endpoints/analyze.py], [endpoints/webhooks.py]:
      the middleware and the endpoints' own logic.

    Conventions.  A Python [str] is a [string] whose characters are the code
    points 0..255; [bytes] is [list Z] with every element in 0..255; Python
    [int] is [Z]; a [dict] used as a record store is a [gmap]; a [dict] that
    is serialised (where key order matters) is an association list in
    insertion order.  Effects (HTTP requests, sleeps, the clock) are threaded
    through an explicit [world]; the peers' answers are oracles of an [env].
    Module [Py] widens the arguments of [delivery.py] to the payloads and
    secrets on which signing raises. *)

From Stdlib Require Import ZArith String Ascii Lia DecimalString Sorted.
From Stdlib Require DecimalPos DecimalZ.
From stdpp Require Import gmap strings list sorting.
From Equations Require Import Equations.

Local Open Scope Z_scope.
#[local] Set Warnings "-register-all".

(** ** Bytes and text *)

Module Text.

(** Code point of a character. *)
Definition ord (c : ascii) : Z := Z.of_N (N_of_ascii c).

Definition chr (z : Z) : ascii := ascii_of_N (Z.to_N (z mod 256)).

(** [str.encode()]: UTF-8.  Code points below 128 are one byte, the others
    (128..255 here) two bytes. *)
Definition encode_char (c : ascii) : list Z :=
  let n := ord c in
  if n <? 128 then [n]
  else [Z.lor 192 (Z.shiftr n 6); Z.lor 128 (Z.land n 63)].

Fixpoint encode (s : string) : list Z :=
  match s with
  | EmptyString => []
  | String c rest => encode_char c ++ encode rest
  end.

Definition hex_digit (n : Z) : ascii :=
  if n <? 10 then chr (48 + n) else chr (87 + n).

(** Two lower-case hexadecimal digits per byte, as [bytes.hex()] and
    [hexdigest()] print them. *)
Fixpoint hex (bs : list Z) : string :=
  match bs with
  | [] => ""%string
  | b :: rest => String (hex_digit (b / 16)) (String (hex_digit (b mod 16)) (hex rest))
  end.

(** Value of a hexadecimal digit (0 for any other character). *)
Definition unhex_digit (c : ascii) : Z :=
  let n := ord c in
  if (48 <=? n) && (n <=? 57) then n - 48
  else if (97 <=? n) && (n <=? 102) then n - 87
  else if (65 <=? n) && (n <=? 70) then n - 55
  else 0.

(** The elements of a [bytes] value. *)
Definition is_byte (z : Z) : Prop := 0 <= z < 256.

(** [sep.join(parts)]. *)
Fixpoint join (sep : string) (parts : list string) : string :=
  match parts with
  | [] => ""%string
  | [p] => p
  | p :: rest => p +:+ sep +:+ join sep rest
  end.

(** [str(n)] for an [int]. *)
Definition str_of_int (z : Z) : string := NilZero.string_of_int (Z.to_int z).

End Text.

(** ** SHA-256 (FIPS 180-4) and HMAC (RFC 2104), as [hashlib] and [hmac] compute them *)

Module SHA256.

Definition mask32 : Z := 0xffffffff.
Definition add32 (x y : Z) : Z := Z.land (x + y) mask32.
Definition rotr (n x : Z) : Z :=
  Z.lor (Z.shiftr x n) (Z.land (Z.shiftl x (32 - n)) mask32).
Definition not32 (x : Z) : Z := Z.lxor x mask32.

Definition ch (x y z : Z) : Z := Z.lxor (Z.land x y) (Z.land (not32 x) z).
Definition maj (x y z : Z) : Z :=
  Z.lxor (Z.lxor (Z.land x y) (Z.land x z)) (Z.land y z).
Definition bsig0 (x : Z) : Z := Z.lxor (Z.lxor (rotr 2 x) (rotr 13 x)) (rotr 22 x).
Definition bsig1 (x : Z) : Z := Z.lxor (Z.lxor (rotr 6 x) (rotr 11 x)) (rotr 25 x).
Definition ssig0 (x : Z) : Z := Z.lxor (Z.lxor (rotr 7 x) (rotr 18 x)) (Z.shiftr x 3).
Definition ssig1 (x : Z) : Z := Z.lxor (Z.lxor (rotr 17 x) (rotr 19 x)) (Z.shiftr x 10).

(** Big-endian value of a run of hexadecimal digits. *)
Fixpoint hex_value (acc : Z) (s : string) : Z :=
  match s with
  | EmptyString => acc
  | String c rest => hex_value (16 * acc + Text.unhex_digit c) rest
  end.

(** Cuts a string of hexadecimal digits into 32-bit words, eight digits each. *)
Fixpoint hex_words (n : nat) (s : string) : list Z :=
  match n with
  | O => []
  | S n' => hex_value 0 (substring 0 8 s) :: hex_words n' (substring 8 (String.length s - 8) s)
  end.

(** The sixty-four round constants. *)
Definition round_constants : list Z := Eval vm_compute in
  hex_words 64
    ("428a2f9871374491b5c0fbcfe9b5dba53956c25b59f111f1923f82a4ab1c5ed5" +:+
     "d807aa9812835b01243185be550c7dc372be5d7480deb1fe9bdc06a7c19bf174" +:+
     "e49b69c1efbe47860fc19dc6240ca1cc2de92c6f4a7484aa5cb0a9dc76f988da" +:+
     "983e5152a831c66db00327c8bf597fc7c6e00bf3d5a7914706ca635114292967" +:+
     "27b70a852e1b21384d2c6dfc53380d13650a7354766a0abb81c2c92e92722c85" +:+
     "a2bfe8a1a81a664bc24b8b70c76c51a3d192e819d6990624f40e3585106aa070" +:+
     "19a4c1161e376c082748774c34b0bcb5391c0cb34ed8aa4a5b9cca4f682e6ff3" +:+
     "748f82ee78a5636f84c878148cc7020890befffaa4506cebbef9a3f7c67178f2").

(** The initial hash value. *)
Definition initial_hash : list Z := Eval vm_compute in
  hex_words 8 "6a09e667bb67ae853c6ef372a54ff53a510e527f9b05688c1f83d9ab5be0cd19".

(** Big-endian bytes of [x], [n] of them. *)
Fixpoint be_bytes (n : nat) (x : Z) : list Z :=
  match n with
  | O => []
  | S n' => Z.land (Z.shiftr x (8 * Z.of_nat n')) 255 :: be_bytes n' x
  end.

Fixpoint be_words (n : nat) (bs : list Z) : list Z :=
  match n with
  | O => []
  | S n' =>
      match bs with
      | b0 :: b1 :: b2 :: b3 :: rest =>
          (Z.shiftl b0 24 + Z.shiftl b1 16 + Z.shiftl b2 8 + b3) :: be_words n' rest
      | _ => []
      end
  end.

(** Padding: a one bit, zero bits up to 56 modulo 64 bytes, the bit length
    on eight bytes. *)
Definition pad (msg : list Z) : list Z :=
  let len := Z.of_nat (length msg) in
  let zeros := Z.to_nat ((55 - len) mod 64) in
  msg ++ [128] ++ repeat 0 zeros ++ be_bytes 8 (8 * len).

(** Message schedule: extends the sixteen words of a block to sixty-four. *)
Fixpoint schedule (n : nat) (w : list Z) : list Z :=
  match n with
  | O => w
  | S n' =>
      let t := length w in
      let at_ (k : nat) := nth (t - k) w 0 in
      schedule n' (w ++ [add32 (add32 (add32 (ssig1 (at_ 2%nat)) (at_ 7%nat))
                                      (ssig0 (at_ 15%nat))) (at_ 16%nat)])
  end.

Record regs := Regs { ra : Z; rb : Z; rc : Z; rd : Z; re : Z; rf : Z; rg : Z; rh : Z }.

Definition round (r : regs) (kw : Z * Z) : regs :=
  let t1 := add32 (add32 (add32 (add32 (rh r) (bsig1 (re r))) (ch (re r) (rf r) (rg r)))
                         (fst kw)) (snd kw) in
  let t2 := add32 (bsig0 (ra r)) (maj (ra r) (rb r) (rc r)) in
  Regs (add32 t1 t2) (ra r) (rb r) (rc r) (add32 (rd r) t1) (re r) (rf r) (rg r).

Definition regs_of (h : list Z) : regs :=
  Regs (nth 0 h 0) (nth 1 h 0) (nth 2 h 0) (nth 3 h 0)
       (nth 4 h 0) (nth 5 h 0) (nth 6 h 0) (nth 7 h 0).

Definition compress (h : list Z) (block : list Z) : list Z :=
  let w := schedule 48 (be_words 16 block) in
  let r0 := regs_of h in
  let r := fold_left round (combine round_constants w) r0 in
  [add32 (ra r0) (ra r); add32 (rb r0) (rb r); add32 (rc r0) (rc r); add32 (rd r0) (rd r);
   add32 (re r0) (re r); add32 (rf r0) (rf r); add32 (rg r0) (rg r); add32 (rh r0) (rh r)].

Fixpoint blocks (n : nat) (bs : list Z) : list (list Z) :=
  match n with
  | O => []
  | S n' => firstn 64 bs :: blocks n' (skipn 64 bs)
  end.

(** [hashlib.sha256(msg).digest()]. *)
Definition digest (msg : list Z) : list Z :=
  let p := pad msg in
  let h := fold_left compress (blocks (length p / 64) p) initial_hash in
  flat_map (be_bytes 4) h.

(** [hashlib.sha256(msg).hexdigest()]. *)
Definition hexdigest (msg : list Z) : string := Text.hex (digest msg).

End SHA256.

Module HMAC.

Definition block_size : nat := 64.

(** Keys longer than a block are hashed first; the key is then padded with
    zero bytes to a full block. *)
Definition block_key (key : list Z) : list Z :=
  let k := if (block_size <? length key)%nat then SHA256.digest key else key in
  k ++ repeat 0 (block_size - length k).

Definition xor_pad (p : Z) (k : list Z) : list Z := List.map (Z.lxor p) k.

(** [hmac.new(key, msg, hashlib.sha256).digest()]. *)
Definition digest (key msg : list Z) : list Z :=
  let k := block_key key in
  SHA256.digest (xor_pad 0x5c k ++ SHA256.digest (xor_pad 0x36 k ++ msg)).

(** [hmac.new(key, msg, hashlib.sha256).hexdigest()]. *)
Definition hexdigest (key msg : list Z) : string := Text.hex (digest key msg).

(** [hmac.compare_digest(a, b)]: equality of the two strings.  Its running
    time, which is what distinguishes it from [==], is not modelled; the
    [TypeError] on text outside ASCII is that of [Py.compare_digest] below:
    the signatures compared here are hexadecimal. *)
Definition compare_digest (a b : string) : bool := String.eqb a b.

End HMAC.

(** ** JSON values and [json.dumps] *)

Module Json.

(** The values [json.dumps] serialises.  A [dict] keeps its insertion order;
    its keys are strings.  Floats are left out. *)
Inductive value :=
| Null
| Bool (b : bool)
| Int (n : Z)
| Str (s : string)
| List (items : list value)
| Dict (items : list (string * value)).

(** The keyword arguments of [json.dumps] the sources or [httpx] set. *)
Record options := Options {
  sort_keys : bool;
  ensure_ascii : bool;
  item_separator : string;
  key_separator : string
}.

(** [json.dumps(obj)] with no keyword argument. *)
Definition defaults : options := Options false true ", " ": ".

Definition char (n : Z) : string := String (Text.chr n) EmptyString.

(** The replacement of one character inside a string literal
    ([ESCAPE_DCT], and the [\uXXXX] form for what is left). *)
Definition escape_char (ascii_only : bool) (c : ascii) : string :=
  let n := Text.ord c in
  if n =? 92 then char 92 +:+ char 92
  else if n =? 34 then char 92 +:+ char 34
  else if n =? 8 then char 92 +:+ "b"
  else if n =? 12 then char 92 +:+ "f"
  else if n =? 10 then char 92 +:+ "n"
  else if n =? 13 then char 92 +:+ "r"
  else if n =? 9 then char 92 +:+ "t"
  else if (n <? 32) || (ascii_only && (126 <? n)) then char 92 +:+ "u00" +:+ Text.hex [n]
  else String c EmptyString.

Fixpoint escape (ascii_only : bool) (s : string) : string :=
  match s with
  | EmptyString => ""%string
  | String c rest => escape_char ascii_only c +:+ escape ascii_only rest
  end.

(** A string literal: the escaped text between double quotes. *)
Definition quote (ascii_only : bool) (s : string) : string :=
  char 34 +:+ escape ascii_only s +:+ char 34.

(** [sorted(items)] on (key, text) pairs with distinct keys: a stable
    insertion sort on the key, compared code point by code point. *)
Fixpoint insert_item (kv : string * string) (sorted : list (string * string))
  : list (string * string) :=
  match sorted with
  | [] => [kv]
  | kv' :: rest =>
      if String.ltb (fst kv) (fst kv') then kv :: sorted
      else kv' :: insert_item kv rest
  end.

Definition sort_items (items : list (string * string)) : list (string * string) :=
  fold_left (fun acc kv => insert_item kv acc) items [].

Fixpoint dumps (o : options) (v : value) : string :=
  match v with
  | Null => "null"
  | Bool true => "true"
  | Bool false => "false"
  | Int n => Text.str_of_int n
  | Str s => quote (ensure_ascii o) s
  | List items =>
      "[" +:+ Text.join (item_separator o) (List.map (dumps o) items) +:+ "]"
  | Dict items =>
      let rendered := List.map (fun kv => (fst kv, dumps o (snd kv))) items in
      let ordered := if sort_keys o then sort_items rendered else rendered in
      "{" +:+ Text.join (item_separator o)
                (List.map (fun kt => quote (ensure_ascii o) (fst kt) +:+ key_separator o +:+ snd kt)
                          ordered) +:+ "}"
  end.

(** [d.get(key)] / [key in d] on a dict in insertion order. *)
Fixpoint lookup (key : string) (items : list (string * value)) : option value :=
  match items with
  | [] => None
  | (k, v) :: rest => if String.eqb k key then Some v else lookup key rest
  end.

End Json.

(** ** [config.py]: the settings read by the webhook code *)

Record Settings := {
  BACKEND_API_URL : string;
  WEBHOOK_TIMEOUT : Z;
  WEBHOOK_MAX_RETRIES : Z;
  WEBHOOK_RETRY_DELAY : Z
}.

(** The defaults of class [Settings]. *)
Definition settings : Settings := {|
  BACKEND_API_URL := "http://localhost:3001";
  WEBHOOK_TIMEOUT := 30;
  WEBHOOK_MAX_RETRIES := 3;
  WEBHOOK_RETRY_DELAY := 5
|}.

(** ** [webhooks/delivery.py]: signatures *)

(** [json.dumps(payload, sort_keys=True)]. *)
Definition canonical_json (payload : Json.value) : string :=
  Json.dumps (Json.Options true true ", " ": ") payload.

Definition generate_signature (payload : Json.value) (secret : string) : string :=
  let payload_str := canonical_json payload in
  HMAC.hexdigest (Text.encode secret) (Text.encode payload_str).

Definition verify_signature (payload : Json.value) (signature secret : string) : bool :=
  let expected := generate_signature payload secret in
  HMAC.compare_digest signature expected.

(** ** Effects: exceptions, HTTP peers, the clock *)

(** A raised exception: a plain [Exception] with its text, or FastAPI's
    [HTTPException]. *)
Inductive exn :=
| Exception (text : string)
| HTTPException (status_code : Z) (detail : string).

(** [str(e)]. *)
Definition str_of_exn (e : exn) : string :=
  match e with
  | Exception t => t
  | HTTPException _ d => d
  end.

(** What a coroutine yields to its caller: a value, or a raised exception. *)
Inductive result (A : Type) :=
| Ok (a : A)
| Raised (e : exn).
Arguments Ok {A} a.
Arguments Raised {A} e.

(** What [client.post] gives back: a response, or an exception raised by the
    call (connection refused, timeout, ...).  [json] is what [response.json()]
    does: it returns the decoded body, or raises the decoder's
    [JSONDecodeError] on a body that is not JSON. *)
Inductive http_outcome :=
| Response (status_code : Z) (text : string) (json : result Json.value)
| TransportError (e : exn).

(** The arguments of the webhook [client.post(webhook_url, json=..., headers=...)]. *)
Record request := Request {
  req_url : string;
  req_json : Json.value;
  req_headers : list (string * string)
}.

(** The observable events, oldest first. *)
Inductive event :=
| WebhookPost (r : request) (answer : http_outcome)
| BackendPost (url filename : string) (content : list Z) (answer : http_outcome)
| Sleep (seconds : Z)
| Print (line : string).

Definition world := list event.

(** The peers: the clock, the subscriber's endpoint and the analysis backend.
    The endpoint's answer may depend on how many POSTs it has seen and on
    the request. *)
Record env := Env {
  utcnow : nat -> string;
  webhook_endpoint : nat -> request -> http_outcome;
  backend : nat -> string -> list Z -> http_outcome
}.

Definition is_webhook_post (e : event) : bool :=
  match e with WebhookPost _ _ => true | _ => false end.

Definition is_backend_post (e : event) : bool :=
  match e with BackendPost _ _ _ _ => true | _ => false end.

(** Number of POSTs the subscriber has received. *)
Definition webhook_posts (w : world) : nat := length (List.filter is_webhook_post w).

(** Number of POSTs the backend has received. *)
Definition backend_posts (w : world) : nat := length (List.filter is_backend_post w).

(** The delays slept, in order. *)
Fixpoint sleeps (w : world) : list Z :=
  match w with
  | [] => []
  | Sleep d :: rest => d :: sleeps rest
  | _ :: rest => sleeps rest
  end.

(** Truth value of an optional string ([if secret:], [if webhook_url:]):
    [None] and the empty string are false. *)
Definition truthy (s : option string) : option string :=
  match s with
  | Some EmptyString => None
  | other => other
  end.

(** ** [webhooks/delivery.py]: [deliver_webhook] *)

Section Delivery.

Context (cfg : Settings) (E : env).

Definition webhook_payload (event : string) (data : Json.value) (timestamp : string)
  : Json.value :=
  Json.Dict [("event"%string, Json.Str event);
             ("data"%string, data);
             ("timestamp"%string, Json.Str timestamp)].

Definition webhook_headers (event : string) (payload : Json.value) (secret : option string)
  : list (string * string) :=
  let headers := [("Content-Type", "application/json"); ("X-Aegis-Event", event)]%string in
  match truthy secret with
  | Some s =>
      let signature := generate_signature payload s in
      headers ++ [("X-Aegis-Signature"%string, "sha256=" +:+ signature)]
  | None => headers
  end.

Definition webhook_request (webhook_url event : string) (data : Json.value)
    (secret : option string) (timestamp : string) : request :=
  let payload := webhook_payload event data timestamp in
  Request webhook_url payload (webhook_headers event payload secret).

(** [response.status_code in [200, 201, 202]]. *)
Definition accepted_status (code : Z) : bool :=
  (code =? 200) || (code =? 201) || (code =? 202).

Definition accepted (a : http_outcome) : bool :=
  match a with
  | Response code _ _ => accepted_status code
  | TransportError _ => false
  end.

Definition client_post (r : request) (w : world) : http_outcome * world :=
  let a := webhook_endpoint E (webhook_posts w) r in
  (a, w ++ [WebhookPost r a]).

Definition asyncio_sleep (seconds : Z) (w : world) : world := w ++ [Sleep seconds].

Definition print (line : string) (w : world) : world := w ++ [Print line].

Definition retry_delay (retry_count : Z) : Z :=
  WEBHOOK_RETRY_DELAY cfg * (retry_count + 1).

Equations? deliver_webhook (webhook_url event : string) (data : Json.value)
    (secret : option string) (retry_count : Z) (w : world) : result bool * world
    by wf (Z.to_nat (WEBHOOK_MAX_RETRIES cfg - retry_count)) lt :=
  deliver_webhook webhook_url event data secret retry_count w
    with client_post
           (webhook_request webhook_url event data secret (utcnow E (length w))) w := {
    | (Response status_code _ _, w1) with accepted_status status_code := {
        | true := (Ok true, w1)
        | false with Z_lt_dec retry_count (WEBHOOK_MAX_RETRIES cfg) := {
            | left _
                (* the retry runs inside the [try] block *)
                with deliver_webhook webhook_url event data secret (retry_count + 1)
                       (asyncio_sleep (retry_delay retry_count) w1) := {
                | (Ok b, w2) := (Ok b, w2)
                | (Raised e, w2) :=
                    deliver_webhook webhook_url event data secret (retry_count + 1)
                      (asyncio_sleep (retry_delay retry_count)
                         (print ("Webhook delivery error: " +:+ str_of_exn e) w2))
              }
            | right _ := (Ok false, w1)
          }
      }
    | (TransportError e, w1)
        with Z_lt_dec retry_count (WEBHOOK_MAX_RETRIES cfg) := {
        | left _ :=
            deliver_webhook webhook_url event data secret (retry_count + 1)
              (asyncio_sleep (retry_delay retry_count)
                 (print ("Webhook delivery error: " +:+ str_of_exn e) w1))
        | right _ := (Ok false, print ("Webhook delivery error: " +:+ str_of_exn e) w1)
      }
  }.
Proof. all: lia. Qed.

(** *** The shape of a delivery

    [delivery w n tr b]: started in world [w] with [retry_count = n], a
    delivery adds the events [tr] and returns [b].  Each attempt is one POST;
    a refused attempt is followed by a sleep and the next attempt as long as
    [retry_count < WEBHOOK_MAX_RETRIES]. *)

Section Shape.

Context (webhook_url event : string) (data : Json.value) (secret : option string).

Definition attempt_request (w : world) : request :=
  webhook_request webhook_url event data secret (utcnow E (length w)).

Definition attempt_answer (w : world) : http_outcome :=
  webhook_endpoint E (webhook_posts w) (attempt_request w).

(** What a refused attempt prints: only a transport error is printed. *)
Definition complaint (a : http_outcome) : world :=
  match a with
  | TransportError e => [Print ("Webhook delivery error: " +:+ str_of_exn e)]
  | Response _ _ _ => []
  end.

Definition attempt_events (w : world) : world :=
  WebhookPost (attempt_request w) (attempt_answer w) :: complaint (attempt_answer w).

Inductive delivery : world -> Z -> world -> bool -> Prop :=
| delivery_accepted w n :
    accepted (attempt_answer w) = true ->
    delivery w n [WebhookPost (attempt_request w) (attempt_answer w)] true
| delivery_exhausted w n :
    accepted (attempt_answer w) = false ->
    ~ n < WEBHOOK_MAX_RETRIES cfg ->
    delivery w n (attempt_events w) false
| delivery_retry w n tr b :
    accepted (attempt_answer w) = false ->
    n < WEBHOOK_MAX_RETRIES cfg ->
    delivery (w ++ attempt_events w ++ [Sleep (retry_delay n)]) (n + 1) tr b ->
    delivery w n (attempt_events w ++ Sleep (retry_delay n) :: tr) b.

End Shape.

End Delivery.

(** The bytes [httpx] puts on the wire for [json=payload]: [json.dumps] of
    the payload, UTF-8 encoded.  [httpx] passes no [sort_keys], so the keys
    go out in the dict's insertion order; its releases differ in the
    separators and in [ensure_ascii], which is why the options are an
    argument. *)
Definition request_body (o : Json.options) (r : request) : list Z :=
  Text.encode (Json.dumps o (req_json r)).

(** [json.dumps(payload, ensure_ascii=False, separators=(",", ":"))]. *)
Definition httpx_compact : Json.options := Json.Options false false "," ":".

(** [headers.get(name)]. *)
Fixpoint header (name : string) (headers : list (string * string)) : option string :=
  match headers with
  | [] => None
  | (k, v) :: rest => if String.eqb k name then Some v else header name rest
  end.

(** The arithmetic progression [first, first + step, ...] of [n] terms. *)
Fixpoint progression (first step : Z) (n : nat) : list Z :=
  match n with
  | O => []
  | S n' => first :: progression (first + step) step n'
  end.

(** The [event] field of the JSON a webhook POST carries. *)
Definition posted_event (e : event) : option Json.value :=
  match e with
  | WebhookPost r _ =>
      match req_json r with
      | Json.Dict items => Json.lookup "event" items
      | _ => None
      end
  | _ => None
  end.

(** ** [jobs/processor.py]: [process_analysis_job] *)

(** The [job_data] dictionary built by [add_analysis_job]. *)
Record job_data := JobData {
  job_id : string;
  filename : string;
  file_content : string;          (* hexadecimal text *)
  webhook_url : option string;
  options : Json.value;
  api_key : option string
}.

(** [bytes.fromhex(s)]: two adjacent hexadecimal digits per byte, with ASCII
    whitespace skipped before each byte and at the end.  Any other text
    raises [ValueError], whose message gives the position of the offending
    character. *)
Definition is_hex_digit (c : ascii) : bool :=
  let n := Text.ord c in
  ((48 <=? n) && (n <=? 57)) || ((97 <=? n) && (n <=? 102)) || ((65 <=? n) && (n <=? 70)).

(** ASCII whitespace: the space and the control characters 9 to 13. *)
Definition is_space (c : ascii) : bool :=
  let n := Text.ord c in
  (n =? 32) || ((9 <=? n) && (n <=? 13)).

(** Position of the first character outside ASCII, [pos] being the position
    of the head of [s]. *)
Fixpoint first_non_ascii (pos : nat) (s : string) : option nat :=
  match s with
  | EmptyString => None
  | String c rest =>
      if 127 <? Text.ord c then Some pos else first_non_ascii (S pos) rest
  end.

(** The scan of an ASCII text: the bytes, or the position of the character
    that is not the hexadecimal digit expected there (the length of the text
    when it ends after the first digit of a byte). *)
Fixpoint fromhex_scan (pos : nat) (s : string) : list Z + nat :=
  match s with
  | EmptyString => inl []
  | String hi rest =>
      if is_space hi then fromhex_scan (S pos) rest
      else if is_hex_digit hi then
        match rest with
        | EmptyString => inr (S pos)
        | String lo rest' =>
            if is_hex_digit lo then
              match fromhex_scan (S (S pos)) rest' with
              | inl bs => inl (16 * Text.unhex_digit hi + Text.unhex_digit lo :: bs)
              | inr p => inr p
              end
            else inr (S pos)
        end
      else inr pos
  end.

(** A text with a character outside ASCII is refused before the scan. *)
Definition fromhex_parse (s : string) : list Z + nat :=
  match first_non_ascii 0 s with
  | Some p => inr p
  | None => fromhex_scan 0 s
  end.

(** [None] stands for the [ValueError]. *)
Definition fromhex (s : string) : option (list Z) :=
  match fromhex_parse s with
  | inl bs => Some bs
  | inr _ => None
  end.

(** The [ValueError] raised on a text [fromhex] refuses. *)
Definition fromhex_error (s : string) : exn :=
  let position := match fromhex_parse s with inr p => p | inl _ => O end in
  Exception ("non-hexadecimal number found in fromhex() arg at position "
             +:+ Text.str_of_int (Z.of_nat position)).

(** [obj[key]] for a string [key]: only a dict has string subscripts.  A
    missing key raises [KeyError], whose text is the quoted key; any other
    object raises [TypeError] (the texts are those of CPython 3.11). *)
Definition getitem (obj : Json.value) (key : string) : result Json.value :=
  match obj with
  | Json.Dict items =>
      match Json.lookup key items with
      | Some v => Ok v
      | None => Raised (Exception ("'" +:+ key +:+ "'"))
      end
  | Json.List _ => Raised (Exception "list indices must be integers or slices, not str")
  | Json.Str _ => Raised (Exception "string indices must be integers, not 'str'")
  | Json.Int _ => Raised (Exception "'int' object is not subscriptable")
  | Json.Bool _ => Raised (Exception "'bool' object is not subscriptable")
  | Json.Null => Raised (Exception "'NoneType' object is not subscriptable")
  end.

(** [obj.get(key, default)] on an [obj] already known to be a dict. *)
Definition get_default (obj : Json.value) (key : string) (default : Json.value)
  : Json.value :=
  match obj with
  | Json.Dict items =>
      match Json.lookup key items with
      | Some v => v
      | None => default
      end
  | _ => default
  end.

(** Sequencing of steps that may raise. *)
#[global] Instance result_bind : MBind result := fun A B k r =>
  match r with
  | Ok a => k a
  | Raised e => Raised e
  end.

Section Processor.

Context (cfg : Settings) (E : env).

(** The [analysis_result] dictionary built from the backend's JSON. *)
Definition format_result (jid : string) (backend_json : Json.value)
  : result Json.value :=
  document ← getitem backend_json "document";
  id ← getitem document "id";
  fname ← getitem document "filename";
  risk_level ← getitem document "riskLevel";
  num_pages ← getitem document "numPages";
  num_chunks ← getitem document "numChunks";
  Ok (Json.Dict
        [("job_id"%string, Json.Str jid);
         ("status"%string, Json.Str "completed");
         ("result"%string,
          Json.Dict
            [("document_id"%string, id);
             ("filename"%string, fname);
             ("risk_level"%string, risk_level);
             ("risk_category"%string, get_default document "riskCategory" (Json.Str "None"));
             ("risk_confidence"%string, get_default document "riskConfidence" (Json.Int 0));
             ("risk_explanation"%string, get_default document "riskExplanation" (Json.Str ""));
             ("recommendations"%string, get_default document "recommendations" (Json.List []));
             ("num_pages"%string, num_pages);
             ("num_chunks"%string, num_chunks);
             ("metadata"%string, Json.Dict [])])]).

Definition upload_url : string := BACKEND_API_URL cfg +:+ "/api/upload".

Definition backend_post (fname : string) (content : list Z) (w : world)
  : http_outcome * world :=
  let a := backend E (backend_posts w) fname content in
  (a, w ++ [BackendPost upload_url fname content a]).

(** The body of the [try] block. *)
Definition analyse (job : job_data) (content : list Z) (w : world)
  : result Json.value * world :=
  match backend_post (filename job) content w with
  | (TransportError e, w1) => (Raised e, w1)
  | (Response status_code text json, w1) =>
      if negb (status_code =? 200) then
        (Raised (Exception ("Backend API error: " +:+ text)), w1)
      else
        match json with
        | Raised e => (Raised e, w1)
        | Ok backend_json =>
            match format_result (job_id job) backend_json with
            | Raised e => (Raised e, w1)
            | Ok analysis_result =>
                match truthy (webhook_url job) with
                | Some url =>
                    match deliver_webhook cfg E url "analysis.completed"
                            analysis_result None 0 w1 with
                    | (Ok _, w2) => (Ok analysis_result, w2)
                    | (Raised e, w2) => (Raised e, w2)
                    end
                | None => (Ok analysis_result, w1)
                end
            end
        end
  end.

Definition error_result (jid : string) (e : exn) : Json.value :=
  Json.Dict [("job_id"%string, Json.Str jid);
             ("status"%string, Json.Str "failed");
             ("error"%string, Json.Str (str_of_exn e))].

Definition process_analysis_job (job : job_data) (w : world)
  : result Json.value * world :=
  match fromhex (file_content job) with
  | None => (Raised (fromhex_error (file_content job)), w)
  | Some content =>
      match analyse job content w with
      | (Ok analysis_result, w1) => (Ok analysis_result, w1)
      | (Raised e, w1) =>
          match truthy (webhook_url job) with
          | Some url =>
              match deliver_webhook cfg E url "analysis.failed"
                      (error_result (job_id job) e) None 0 w1 with
              | (Ok _, w2) => (Raised e, w2)      (* re-raise *)
              | (Raised e', w2) => (Raised e', w2)
              end
          | None => (Raised e, w1)
          end
      end
  end.

End Processor.

(** ** [jobs/queue.py]: the in-memory queue

    The module keeps two globals, the list [_in_memory_queue] and the dict
    [_in_memory_processing].  This is the path taken when BullMQ is not
    importable or no BullMQ queue was created; the BullMQ path hands the job
    to that library and is not modelled. *)

Module Queue.

(** A value of [_in_memory_processing]: a small dict such as
    [{"status": "failed", "error": ...}]. *)
Abbreviation entry := (list (string * Json.value)).

Record state := State {
  _in_memory_queue : list job_data;
  _in_memory_processing : gmap string entry
}.

Definition initial : state := State [] ∅.

(** Python truth value of a JSON value, for [options or {}]. *)
Definition falsy (v : Json.value) : bool :=
  match v with
  | Json.Null | Json.Bool false | Json.Int 0 | Json.Str EmptyString
  | Json.List [] | Json.Dict [] => true
  | _ => false
  end.

Definition or_empty_dict (options : option Json.value) : Json.value :=
  match options with
  | Some v => if falsy v then Json.Dict [] else v
  | None => Json.Dict []
  end.

Definition status_entry (status : string) : entry :=
  [("status"%string, Json.Str status)].

Definition add_analysis_job (jid : string) (content : list Z) (fname : string)
    (url : option string) (opts : option Json.value) (key : option string)
    (st : state) : string * state :=
  let data := JobData jid fname (Text.hex content) url (or_empty_dict opts) key in
  (jid,
   State (_in_memory_queue st ++ [data])
         (<[jid := status_entry "pending"]> (_in_memory_processing st))).

(** First half of a loop iteration of [_process_queue_background]: pop the
    head of the queue and record it as processing. *)
Definition claim (st : state) : option (job_data * state) :=
  match _in_memory_queue st with
  | [] => None
  | data :: rest =>
      Some (data,
            State rest
                  (<[job_id data := status_entry "processing"]> (_in_memory_processing st)))
  end.

(** Second half: record the outcome of the awaited [process_analysis_job]. *)
Definition finalize (jid : string) (r : result Json.value) (st : state) : state :=
  let record :=
    match r with
    | Ok _ => status_entry "completed"
    | Raised e => [("status"%string, Json.Str "failed");
                   ("error"%string, Json.Str (str_of_exn e))]
    end in
  State (_in_memory_queue st) (<[jid := record]> (_in_memory_processing st)).

Section Worker.

Context (cfg : Settings) (E : env).

(** One iteration of the [while True] loop. *)
Definition process_queue_iteration (st : state) (w : world) : state * world :=
  match claim st with
  | Some (data, st1) =>
      let '(r, w1) := process_analysis_job cfg E data w in
      (finalize (job_id data) r st1, asyncio_sleep 1 w1)
  | None => (st, asyncio_sleep 1 w)
  end.

(** The first [n] iterations of the loop, which itself never ends. *)
Fixpoint _process_queue_background (n : nat) (st : state) (w : world) : state * world :=
  match n with
  | O => (st, w)
  | S n' =>
      let '(st1, w1) := process_queue_iteration st w in
      _process_queue_background n' st1 w1
  end.

End Worker.

(** The dictionary returned by [get_job_status]. *)
Record job_info := JobInfo {
  info_job_id : string;
  info_status : Json.value;
  info_progress : Json.value;
  info_data : entry
}.

Definition get_job_status (jid : string) (st : state) : option job_info :=
  match _in_memory_processing st !! jid with
  | Some e =>
      Some (JobInfo jid
              (match Json.lookup "status" e with Some v => v | None => Json.Str "unknown" end)
              Json.Null e)
  | None => None
  end.

(** *** The queue as a transition system

    [add_analysis_job] may run while the background task awaits
    [process_analysis_job], that is between [claim] and [finalize]; the
    background task itself is a single coroutine, so at most one job is
    claimed at a time. *)

Inductive op :=
| Submit (jid : string) (content : list Z) (fname : string)
         (url : option string) (opts : option Json.value) (key : option string)
| Claim
| Finalize (r : result Json.value).

Record system := System {
  store : state;
  running : option string
}.

Definition boot : system := System initial None.

Definition step (o : op) (s : system) : system :=
  match o, running s with
  | Submit jid content fname url opts key, _ =>
      System (snd (add_analysis_job jid content fname url opts key (store s))) (running s)
  | Claim, None =>
      match claim (store s) with
      | Some (data, st1) => System st1 (Some (job_id data))
      | None => s
      end
  | Claim, Some _ => s
  | Finalize r, Some jid => System (finalize jid r (store s)) None
  | Finalize _, None => s
  end.

Definition exec (ops : list op) (s : system) : system :=
  fold_left (fun s o => step o s) ops s.

(** The job ids submitted by a run. *)
Fixpoint submitted (ops : list op) : list string :=
  match ops with
  | [] => []
  | Submit jid _ _ _ _ _ :: rest => jid :: submitted rest
  | _ :: rest => submitted rest
  end.

(** The four statuses the queue records. *)
Inductive job_status := Pending | Processing | Completed | Failed.

Definition parse_status (v : Json.value) : option job_status :=
  match v with
  | Json.Str s =>
      if String.eqb s "pending" then Some Pending
      else if String.eqb s "processing" then Some Processing
      else if String.eqb s "completed" then Some Completed
      else if String.eqb s "failed" then Some Failed
      else None
  | _ => None
  end.

(** The status recorded for a job id, if any. *)
Definition status_of (st : state) (jid : string) : option job_status :=
  match _in_memory_processing st !! jid with
  | Some e =>
      match Json.lookup "status" e with
      | Some v => parse_status v
      | None => None
      end
  | None => None
  end.

(** Position along [Pending -> Processing -> {Completed | Failed}]; 0 is
    "not recorded". *)
Definition rank (s : option job_status) : nat :=
  match s with
  | None => 0
  | Some Pending => 1
  | Some Processing => 2
  | Some Completed | Some Failed => 3
  end.

Definition terminal (s : option job_status) : Prop :=
  s = Some Completed \/ s = Some Failed.

(** A status change that respects the order: never backwards, and never out
    of a terminal status. *)
Definition forward (before after : option job_status) : Prop :=
  (rank before <= rank after)%nat /\ (terminal before -> after = before).

(** What holds of every state reached without submitting an id twice;
    [ids] are the ids submitted so far. *)
Record invariant (ids : list string) (s : system) : Prop := {
  queue_nodup : NoDup (job_id <$> _in_memory_queue (store s));
  queue_pending :
    forall d, d ∈ _in_memory_queue (store s) ->
              status_of (store s) (job_id d) = Some Pending;
  running_processing :
    forall jid, running s = Some jid -> status_of (store s) jid = Some Processing;
  recorded_submitted :
    forall jid, _in_memory_processing (store s) !! jid <> None -> jid ∈ ids
}.

(** The ids an operation submits are new. *)
Definition fresh (ids : list string) (o : op) : Prop :=
  forall jid, jid ∈ submitted [o] -> jid ∉ ids.

End Queue.

(** ** [endpoints/jobs.py]: [get_job] *)

Record JobStatusResponse := {
  resp_job_id : string;
  resp_status : string;
  resp_created_at : string;
  resp_completed_at : option string;
  resp_result : option Json.value;
  resp_error : option string
}.

(** BullMQ state names to API status names. *)
Definition status_map : list (string * string) :=
  [("waiting", "pending"); ("active", "processing"); ("completed", "completed");
   ("failed", "failed"); ("delayed", "pending")]%string.

Fixpoint assoc (key : string) (table : list (string * string)) : option string :=
  match table with
  | [] => None
  | (k, v) :: rest => if String.eqb k key then Some v else assoc key rest
  end.

(** [status_map.get(status, "unknown")]. *)
Definition map_status (status : Json.value) : string :=
  match status with
  | Json.Str s => match assoc s status_map with Some v => v | None => "unknown" end
  | _ => "unknown"
  end.

(** [now] and [later] are the two readings of [datetime.utcnow()]. *)
Definition get_job (jid : string) (now later : string) (st : Queue.state)
  : result JobStatusResponse :=
  match Queue.get_job_status jid st with
  | None => Raised (HTTPException 404 "Job not found")
  | Some info =>
      let job_status := map_status (Queue.info_status info) in
      let result :=
        if String.eqb job_status "completed"
        then Json.lookup "result" (Queue.info_data info)
        else None in
      let error :=
        if String.eqb job_status "completed" then None
        else if String.eqb job_status "failed" then Some "Job processing failed"%string
        else None in
      Ok {| resp_job_id := jid;
            resp_status := job_status;
            resp_created_at := now;
            resp_completed_at :=
              if String.eqb job_status "completed" || String.eqb job_status "failed"
              then Some later else None;
            resp_result := result;
            resp_error := error |}
  end.

(** ** [auth/api_keys.py] *)

Module ApiKeys.

Record key_info := KeyInfo {
  key_id : string;
  hashed_secret : string;
  created_at : string;
  last_used : option string;
  rate_limit : Z;
  tier : string;
  active : bool
}.

(** The global [API_KEYS]. *)
Abbreviation keys := (gmap string key_info).

(** [token16] and [token32] are the draws of [secrets.token_urlsafe(16)] and
    [secrets.token_urlsafe(32)], [now] the clock reading. *)
Definition generate_api_key (token16 token32 now : string) (store : keys)
  : (string * string) * keys :=
  let kid := "key_" +:+ token16 in
  let secret := token32 in
  let full_key := kid +:+ "_" +:+ secret in
  let hashed := SHA256.hexdigest (Text.encode secret) in
  ((kid, full_key),
   <[kid := KeyInfo kid hashed now None 100 "free" true]> store).

(** [s.split("_", 1)]: the text before and after the first underscore, or
    the text alone when it has none. *)
Fixpoint split_first (s : string) : list string :=
  match s with
  | EmptyString => [EmptyString]
  | String c rest =>
      if Ascii.eqb c "_" then [EmptyString; rest]
      else
        match split_first rest with
        | head :: tail => String c head :: tail
        | [] => [String c EmptyString]
        end
  end.

Definition validate_api_key (api_key now : string) (store : keys)
  : option key_info * keys :=
  match split_first api_key with
  | [kid; secret] =>
      match store !! kid with
      | None => (None, store)
      | Some info =>
          if negb (active info) then (None, store)
          else
            let hashed := SHA256.hexdigest (Text.encode secret) in
            if negb (String.eqb hashed (hashed_secret info)) then (None, store)
            else
              let info' := KeyInfo (key_id info) (hashed_secret info) (created_at info)
                                   (Some now) (rate_limit info) (tier info) (active info) in
              (Some info', <[kid := info']> store)
      end
  | _ => (None, store)
  end.

(** The stores the module can be in: empty at import, then changed only by
    the two functions above. *)
Inductive reachable : keys -> Prop :=
| reachable_empty : reachable ∅
| reachable_generate token16 token32 now store :
    reachable store -> reachable (snd (generate_api_key token16 token32 now store))
| reachable_validate api_key now store :
    reachable store -> reachable (snd (validate_api_key api_key now store)).

(** Every stored key id starts with the prefix [key_]. *)
Definition prefixed (store : keys) : Prop :=
  forall kid, store !! kid <> None -> exists token, kid = "key_" +:+ token.

End ApiKeys.

(** The backend answers that make the analysis task raise at once: a status
    other than 200, or no answer at all. *)
Definition backend_failure (a : http_outcome) : bool :=
  match a with
  | Response status_code _ _ => negb (status_code =? 200)
  | TransportError _ => true
  end.

(** ** Concrete peers and inputs used by the examples *)

Module Scenario.

Definition clock (n : nat) : string := "2024-01-01T00:00:00".

(** A valid backend answer: a [document] object with every required field. *)
Definition document : Json.value :=
  Json.Dict [("document"%string,
              Json.Dict [("id"%string, Json.Str "doc_42");
                         ("filename"%string, Json.Str "contract.pdf");
                         ("riskLevel"%string, Json.Str "Warning");
                         ("numPages"%string, Json.Int 3);
                         ("numChunks"%string, Json.Int 7)])].

(** [response.json()] on a body in which no JSON value starts, such as the
    empty body or plain text. *)
Definition no_json : result Json.value :=
  Raised (Exception "Expecting value: line 1 column 1 (char 0)").

(** Backend and subscriber both answer 200. *)
Definition happy : env :=
  Env clock (fun _ _ => Response 200 "" no_json)
      (fun _ _ _ => Response 200 "" (Ok document)).

(** Backend and subscriber both answer 500, always. *)
Definition refusing : env :=
  Env clock (fun _ _ => Response 500 "" no_json)
      (fun _ _ _ => Response 500 "boom" no_json).

(** The subscriber refuses the first POST and accepts from the second on. *)
Definition flaky : env :=
  Env clock (fun k _ => match k with O => Response 503 "" no_json | _ => Response 200 "" no_json end)
      (fun _ _ _ => Response 200 "" (Ok document)).

Definition hook : string := "https://subscriber.example/hook".

Definition pdf : list Z := [37; 80; 68; 70].

Definition data : Json.value := Json.Dict [("job_id"%string, Json.Str "job_1")].

(** What the task makes of [document] for the job [job_1]. *)
Definition analysis : Json.value :=
  match format_result "job_1" document with
  | Ok a => a
  | Raised _ => Json.Null
  end.

(** A payload with characters that need escaping and with every kind of
    value. *)
Definition awkward_text : string :=
  "caf" +:+ Json.char 233 +:+ " " +:+ Json.char 34 +:+ "q" +:+ Json.char 34 +:+ " "
  +:+ Json.char 92 +:+ " " +:+ Json.char 10 +:+ Json.char 9 +:+ Json.char 1
  +:+ Json.char 127.

Definition awkward : Json.value :=
  Json.Dict [("t"%string, Json.Str awkward_text);
             ("n"%string,
              Json.List [Json.Int 1; Json.Int (-20); Json.Bool true; Json.Null;
                         Json.Dict []])].

(** The payload of a webhook about [data]. *)
Definition envelope : Json.value :=
  Json.Dict [("event"%string, Json.Str "analysis.completed");
             ("data"%string, data);
             ("timestamp"%string, Json.Str (clock 0))].

(** A secret and the same secret followed by a NUL character. *)
Definition secret : string := "k".
Definition secret_nul : string := String (Text.chr 0) EmptyString.
Definition padded_secret : string := secret +:+ secret_nul.

End Scenario.

(** What every request of a delivery looks like. *)
Definition well_formed_request (url ev : string) (data : Json.value)
    (secret : option string) (r : request) : Prop :=
  req_url r = url
  /\ (exists ts, req_json r = webhook_payload ev data ts)
  /\ header "Content-Type" (req_headers r) = Some "application/json"%string
  /\ header "X-Aegis-Event" (req_headers r) = Some ev
  /\ match truthy secret with
     | Some s =>
         exists signature,
           header "X-Aegis-Signature" (req_headers r) = Some ("sha256=" +:+ signature)
           /\ verify_signature (req_json r) signature s = true
     | None => header "X-Aegis-Signature" (req_headers r) = None
     end.

(** ** Further observations on the world *)

(** The answers the subscriber gave, in order. *)
Fixpoint post_answers (w : world) : list http_outcome :=
  match w with
  | [] => []
  | WebhookPost _ a :: rest => a :: post_answers rest
  | _ :: rest => post_answers rest
  end.

(** The requests the subscriber received, in order. *)
Fixpoint posted_requests (w : world) : list request :=
  match w with
  | [] => []
  | WebhookPost r _ :: rest => r :: posted_requests rest
  | _ :: rest => posted_requests rest
  end.

(** The uploads the backend received, in order: URL, file name, bytes. *)
Fixpoint uploads (w : world) : list (string * string * list Z) :=
  match w with
  | [] => []
  | BackendPost url fname content _ :: rest => (url, fname, content) :: uploads rest
  | _ :: rest => uploads rest
  end.


Fixpoint all_chars (p : ascii -> bool) (s : string) : bool :=
  match s with
  | EmptyString => true
  | String c rest => p c && all_chars p rest
  end.

(** [c in s]. *)
Fixpoint contains_char (c : ascii) (s : string) : bool :=
  match s with
  | EmptyString => false
  | String c' rest => Ascii.eqb c' c || contains_char c rest
  end.

(** [s.endswith(suffix)]. *)
Definition endswith (suffix s : string) : bool :=
  let n := String.length s in
  let k := String.length suffix in
  (k <=? n)%nat && String.eqb (substring (n - k) k s) suffix.

(** [s.startswith(prefix)]. *)
Definition startswith (prefix s : string) : bool := String.prefix prefix s.

(** [s.replace(old, "")] for a non-empty [old]: every occurrence, scanning
    from the left, is dropped.  [skip] counts the characters of an
    occurrence still to drop. *)
Fixpoint remove_from (old : string) (skip : nat) (s : string) : string :=
  match s with
  | EmptyString => EmptyString
  | String c rest =>
      match skip with
      | S k => remove_from old k rest
      | O =>
          if String.prefix old s
          then remove_from old (String.length old - 1) rest
          else String c (remove_from old 0 rest)
      end
  end.

Definition remove_all (old s : string) : string := remove_from old 0 s.

(** ** [auth/api_keys.py], the remaining functions *)

Definition get_api_key_info (api_key : string) (store : ApiKeys.keys)
  : option ApiKeys.key_info :=
  match ApiKeys.split_first api_key with
  | [kid; _] => store !! kid
  | _ => None
  end.

Definition create_test_api_key (token16 token32 now : string) (store : ApiKeys.keys)
  : string * ApiKeys.keys :=
  let '((_, full_key), store') := ApiKeys.generate_api_key token16 token32 now store in
  (full_key, store').

(** ** [auth/middleware.py] *)

Module Middleware.

(** What the middleware reads of a request: the path of its URL and its
    headers. *)
Record http_request := HttpRequest {
  path : string;
  headers : list (string * string)
}.

(** What the middleware attaches to [request.state]. *)
Record attached := Attached {
  state_api_key : string;
  state_api_key_info : ApiKeys.key_info
}.

Definition lower_char (c : ascii) : ascii :=
  let n := Text.ord c in
  if (65 <=? n) && (n <=? 90) then Text.chr (n + 32) else c.

Fixpoint lower (s : string) : string :=
  match s with
  | EmptyString => EmptyString
  | String c rest => String (lower_char c) (lower rest)
  end.

(** [request.headers.get(name)]: header names compare without regard to
    case; the first match wins. *)
Fixpoint headers_get (name : string) (hs : list (string * string)) : option string :=
  match hs with
  | [] => None
  | (k, v) :: rest =>
      if String.eqb (lower k) (lower name) then Some v else headers_get name rest
  end.

(** The paths served without a key. *)
Definition open_paths : list string :=
  ["/health"; "/docs"; "/openapi.json"; "/redoc"]%string.

Definition is_open (p : string) : bool :=
  existsb (String.eqb p) open_paths.

(** [headers.get("X-API-Key") or headers.get("Authorization", "").replace("Bearer ", "")]. *)
Definition presented_key (req : http_request) : string :=
  match truthy (headers_get "X-API-Key" (headers req)) with
  | Some k => k
  | None =>
      remove_all "Bearer "
        (match headers_get "Authorization" (headers req) with
         | Some v => v
         | None => EmptyString
         end)
  end.

(** No rate limiting yet: always [True]. *)
Definition check_rate_limit (api_key : string) : bool := true.

Section WithNext.

Context {R : Type}.

(** [call_next] sees the request and what was attached to its state. *)
Context (call_next : http_request -> option attached -> R).

Definition api_key_middleware (req : http_request) (now : string) (store : ApiKeys.keys)
  : result R * ApiKeys.keys :=
  if is_open (path req) then (Ok (call_next req None), store)
  else
    let api_key := presented_key req in
    match api_key with
    | EmptyString =>
        (Raised (HTTPException 401
           "API key required. Provide X-API-Key header or Authorization: Bearer <key>"),
         store)
    | _ =>
        match ApiKeys.validate_api_key api_key now store with
        | (None, store') => (Raised (HTTPException 401 "Invalid API key"), store')
        | (Some info, store') =>
            if negb (check_rate_limit api_key)
            then (Raised (HTTPException 429 "Rate limit exceeded"), store')
            else (Ok (call_next req (Some (Attached api_key info))), store')
        end
    end.

End WithNext.

End Middleware.

(** ** [endpoints/analyze.py] *)

(** Datetimes of this endpoint are seconds on the UTC clock, so that a
    [timedelta] can be added. *)
Record JobResponse := {
  job_response_id : string;
  job_response_status : string;
  job_response_created_at : Z;
  job_response_estimated_completion : option Z
}.

Definition max_upload : Z := 50 * 1024 * 1024.

(** [max(10, len(file_content) // 100000)]. *)
Definition estimated_seconds (size : Z) : Z := Z.max 10 (size / 100000).

(** [uuid_hex] is the draw of [uuid.uuid4().hex]; [now] and [later] are the
    two clock readings; [api_key] is [request.state.api_key]. *)
Definition analyze_document (fname : string) (content : list Z)
    (url : option string) (opts : option Json.value) (api_key : string)
    (uuid_hex : string) (now later : Z) (st : Queue.state)
  : result JobResponse * Queue.state :=
  if negb (endswith ".pdf" fname) then
    (Raised (HTTPException 400 "Only PDF files are supported"), st)
  else if Z.of_nat (length content) =? 0 then
    (Raised (HTTPException 400 "File is empty"), st)
  else if max_upload <? Z.of_nat (length content) then
    (Raised (HTTPException 400 "File too large. Maximum size is 50MB"), st)
  else
    let jid := "job_" +:+ substring 0 16 uuid_hex in
    let estimated_completion := now + estimated_seconds (Z.of_nat (length content)) in
    let '(_, st') :=
      Queue.add_analysis_job jid content fname url (Some (Queue.or_empty_dict opts))
        (Some api_key) st in
    (Ok {| job_response_id := jid;
           job_response_status := "processing";
           job_response_created_at := later;
           job_response_estimated_completion := Some estimated_completion |},
     st').

(** ** [endpoints/webhooks.py] *)

Module Webhooks.

(** A value of the global [WEBHOOKS]. *)
Record subscription := Subscription {
  webhook_id : string;
  url : string;
  events : list string;
  secret : option string;
  created_at : string;
  active : bool
}.

(** A validated [WebhookRequest]; [request_url] is [str(request.url)]. *)
Record WebhookRequest := {
  request_url : string;
  request_events : list string;
  request_secret : option string
}.

Record WebhookResponse := {
  response_webhook_id : string;
  response_url : string;
  response_events : list string;
  response_created_at : string
}.

Abbreviation registry := (gmap string subscription).

(** [uuid_hex] is the draw of [uuid.uuid4().hex]; [now] and [later] the two
    clock readings. *)
Definition create_webhook (request : WebhookRequest) (uuid_hex now later : string)
    (store : registry) : WebhookResponse * registry :=
  let wid := "wh_" +:+ substring 0 16 uuid_hex in
  ({| response_webhook_id := wid;
      response_url := request_url request;
      response_events := request_events request;
      response_created_at := later |},
   <[wid := Subscription wid (request_url request) (request_events request)
              (request_secret request) now true]> store).

Definition get_webhook (wid : string) (store : registry) : result subscription :=
  match store !! wid with
  | Some webhook => Ok webhook
  | None => Raised (HTTPException 404 "Webhook not found")
  end.

Definition delete_webhook (wid : string) (store : registry) : result string * registry :=
  match store !! wid with
  | Some _ => (Ok "Webhook deleted"%string, delete wid store)
  | None => (Raised (HTTPException 404 "Webhook not found"), store)
  end.

End Webhooks.

(** The order [sort_items] puts dict items in: by key, code point by code
    point. *)
Definition key_lt (a b : string * string) : Prop := String.ltb (fst a) (fst b) = true.

(** ** What a task yields and announces *)

(** The outcome of the analysis proper, read off the backend's answer. *)
Definition task_outcome (jid : string) (a : http_outcome) : result Json.value :=
  match a with
  | TransportError e => Raised e
  | Response status_code text json =>
      if negb (status_code =? 200) then
        Raised (Exception ("Backend API error: " +:+ text))
      else
        body ← json;
        format_result jid body
  end.

(** The event and the data of the webhook that announces an outcome. *)
Definition notification (jid : string) (r : result Json.value) : string * Json.value :=
  match r with
  | Ok analysis => ("analysis.completed"%string, analysis)
  | Raised e => ("analysis.failed"%string, error_result jid e)
  end.

(** ** Batches of submissions *)

Record submission := Submission {
  sub_id : string;
  sub_content : list Z;
  sub_filename : string;
  sub_url : option string;
  sub_options : option Json.value;
  sub_key : option string
}.

Definition submit (s : submission) (st : Queue.state) : Queue.state :=
  snd (Queue.add_analysis_job (sub_id s) (sub_content s) (sub_filename s)
         (sub_url s) (sub_options s) (sub_key s) st).

(** [add_analysis_job] called for each submission in turn. *)
Definition submit_all (subs : list submission) (st : Queue.state) : Queue.state :=
  fold_left (fun st s => submit s st) subs st.

(** The keys [process_analysis_job] reads with a subscript, so that a
    document without one of them raises [KeyError]. *)
Definition required_fields : list string :=
  ["id"; "filename"; "riskLevel"; "numPages"; "numChunks"]%string.

(** The job a submission puts in the queue. *)
Definition queued_job (s : submission) : job_data :=
  JobData (sub_id s) (sub_filename s) (Text.hex (sub_content s)) (sub_url s)
          (Queue.or_empty_dict (sub_options s)) (sub_key s).

(** The records the queue writes. *)
Definition well_formed_entry (e : Queue.entry) : Prop :=
  e = Queue.status_entry "pending"
  \/ e = Queue.status_entry "processing"
  \/ e = Queue.status_entry "completed"
  \/ exists msg, e = [("status"%string, Json.Str "failed"); ("error"%string, Json.Str msg)].

(** What the status query answers for each recorded status. *)
Definition job_report (jid now later : string) (s : option Queue.job_status)
  : result JobStatusResponse :=
  match s with
  | None => Raised (HTTPException 404 "Job not found")
  | Some Queue.Pending | Some Queue.Processing =>
      Ok {| resp_job_id := jid; resp_status := "unknown"; resp_created_at := now;
            resp_completed_at := None; resp_result := None; resp_error := None |}
  | Some Queue.Completed =>
      Ok {| resp_job_id := jid; resp_status := "completed"; resp_created_at := now;
            resp_completed_at := Some later; resp_result := None; resp_error := None |}
  | Some Queue.Failed =>
      Ok {| resp_job_id := jid; resp_status := "failed"; resp_created_at := now;
            resp_completed_at := Some later; resp_result := None;
            resp_error := Some "Job processing failed"%string |}
  end.

(** Every record in the store was written by [add_analysis_job] or by the
    loop, and every id the loop touches has been submitted. *)
Record recorded (ops : list Queue.op) (s : Queue.system) : Prop := {
  entries_well_formed :
    forall jid e, Queue._in_memory_processing (Queue.store s) !! jid = Some e -> well_formed_entry e;
  recorded_iff_submitted :
    forall jid, Queue._in_memory_processing (Queue.store s) !! jid <> None <-> jid ∈ Queue.submitted ops;
  queued_submitted :
    forall d, d ∈ Queue._in_memory_queue (Queue.store s) -> job_id d ∈ Queue.submitted ops;
  running_submitted :
    forall jid, Queue.running s = Some jid -> jid ∈ Queue.submitted ops
}.

(** ** Arguments that cannot be signed

    [data: Dict[str, Any]] and [secret: str] admit more than the values
    above: a payload may hold an object [json.dumps] has no encoding for (a
    [datetime], a [set], ...), on which it raises [TypeError], and a [str]
    may hold a lone surrogate, which [str.encode] refuses with
    [UnicodeEncodeError].  Module [Py] has the functions of [delivery.py]
    on such arguments.  A secret is here the list of its code points; the
    texts inside a payload stay strings of code points below 256. *)

Module Py.

(** A [str], as its code points (0 to 0x10FFFF). *)
Abbreviation str := (list Z).

Definition of_string (s : string) : str := List.map Text.ord (list_ascii_of_string s).

Definition is_surrogate (cp : Z) : bool := (0xD800 <=? cp) && (cp <=? 0xDFFF).

(** UTF-8: one to four bytes for a code point. *)
Definition encode_code_point (cp : Z) : list Z :=
  if cp <? 0x80 then [cp]
  else if cp <? 0x800 then
    [Z.lor 0xC0 (Z.shiftr cp 6); Z.lor 0x80 (Z.land cp 63)]
  else if cp <? 0x10000 then
    [Z.lor 0xE0 (Z.shiftr cp 12); Z.lor 0x80 (Z.land (Z.shiftr cp 6) 63);
     Z.lor 0x80 (Z.land cp 63)]
  else
    [Z.lor 0xF0 (Z.shiftr cp 18); Z.lor 0x80 (Z.land (Z.shiftr cp 12) 63);
     Z.lor 0x80 (Z.land (Z.shiftr cp 6) 63); Z.lor 0x80 (Z.land cp 63)].

(** Number of surrogates at the head of [s]. *)
Fixpoint surrogate_run (s : str) : nat :=
  match s with
  | cp :: rest => if is_surrogate cp then S (surrogate_run rest) else O
  | [] => O
  end.

(** The [UnicodeEncodeError] for the surrogate [cp] at position [pos],
    followed by [more] further surrogates: the message names the one
    character, or the positions of the run. *)
Definition surrogates_not_allowed (pos : nat) (cp : Z) (more : nat) : exn :=
  let position (n : nat) := Text.str_of_int (Z.of_nat n) in
  match more with
  | O =>
      Exception ("'utf-8' codec can't encode character '" +:+ Json.char 92 +:+ "u"
                 +:+ Text.hex [cp / 256; cp mod 256] +:+ "' in position "
                 +:+ position pos +:+ ": surrogates not allowed")
  | S _ =>
      Exception ("'utf-8' codec can't encode characters in position "
                 +:+ position pos +:+ "-" +:+ position (pos + more)%nat
                 +:+ ": surrogates not allowed")
  end.

(** [s.encode()], [pos] being the position of the head of [s]. *)
Fixpoint encode_from (pos : nat) (s : str) : result (list Z) :=
  match s with
  | [] => Ok []
  | cp :: rest =>
      if is_surrogate cp then Raised (surrogates_not_allowed pos cp (surrogate_run rest))
      else
        bytes ← encode_from (S pos) rest;
        Ok (encode_code_point cp ++ bytes)
  end.

Definition encode (s : str) : result (list Z) := encode_from 0 s.

(** A Python object passed where JSON is expected: a JSON value, or inside
    it an [Object] of a class [json.dumps] does not know, given by the name
    of its class. *)
Inductive value :=
| Null
| Bool (b : bool)
| Int (n : Z)
| Str (s : string)
| List (items : list value)
| Dict (items : list (string * value))
| Object (type_name : string).

Fixpoint of_json (v : Json.value) : value :=
  match v with
  | Json.Null => Null
  | Json.Bool b => Bool b
  | Json.Int n => Int n
  | Json.Str s => Str s
  | Json.List items => List (List.map of_json items)
  | Json.Dict items => Dict (List.map (fun kv => (fst kv, of_json (snd kv))) items)
  end.

(** The [TypeError] of [json.dumps] on an object it does not know. *)
Definition not_serializable (type_name : string) : exn :=
  Exception ("Object of type " +:+ type_name +:+ " is not JSON serializable").

(** The steps of a list in order: the first that raises ends the run. *)
Fixpoint sequence {A : Type} (steps : list (result A)) : result (list A) :=
  match steps with
  | [] => Ok []
  | step :: rest =>
      a ← step;
      others ← sequence rest;
      Ok (a :: others)
  end.

(** The JSON value an object stands for; the encoder walks lists and dicts
    in order and raises at the first object it does not know. *)
Fixpoint to_json (v : value) : result Json.value :=
  match v with
  | Null => Ok Json.Null
  | Bool b => Ok (Json.Bool b)
  | Int n => Ok (Json.Int n)
  | Str s => Ok (Json.Str s)
  | List items =>
      items' ← sequence (List.map to_json items);
      Ok (Json.List items')
  | Dict items =>
      items' ← sequence (List.map (fun kv => v' ← to_json (snd kv); Ok (fst kv, v')) items);
      Ok (Json.Dict items')
  | Object type_name => Raised (not_serializable type_name)
  end.

(** [sorted(items)] on pairs with distinct string keys, whatever the second
    component: the insertion sort of [Json.sort_items]. *)
Fixpoint insert_item {A : Type} (kv : string * A) (sorted : list (string * A))
  : list (string * A) :=
  match sorted with
  | [] => [kv]
  | kv' :: rest =>
      if String.ltb (fst kv) (fst kv') then kv :: sorted
      else kv' :: insert_item kv rest
  end.

Definition sort_items {A : Type} (items : list (string * A)) : list (string * A) :=
  fold_left (fun acc kv => insert_item kv acc) items [].

(** [json.dumps(obj, ...)]: with [sort_keys] the items of a dict are sorted
    before they are serialised, so that the object that makes it raise is
    the first one in key order. *)
Fixpoint dumps (o : Json.options) (v : value) : result string :=
  match v with
  | Null => Ok (Json.dumps o Json.Null)
  | Bool b => Ok (Json.dumps o (Json.Bool b))
  | Int n => Ok (Json.dumps o (Json.Int n))
  | Str s => Ok (Json.dumps o (Json.Str s))
  | List items =>
      texts ← sequence (List.map (dumps o) items);
      Ok ("[" +:+ Text.join (Json.item_separator o) texts +:+ "]")
  | Dict items =>
      let rendered := List.map (fun kv => (fst kv, dumps o (snd kv))) items in
      let ordered := if Json.sort_keys o then sort_items rendered else rendered in
      texts ← sequence
                (List.map (fun kt =>
                             text ← snd kt;
                             Ok (Json.quote (Json.ensure_ascii o) (fst kt)
                                 +:+ Json.key_separator o +:+ text))
                          ordered);
      Ok ("{" +:+ Text.join (Json.item_separator o) texts +:+ "}")
  | Object type_name => Raised (not_serializable type_name)
  end.

(** [generate_signature]: [json.dumps] runs first, then [secret.encode()];
    the serialised payload is ASCII and always encodes. *)
Definition generate_signature (payload : value) (secret : str) : result string :=
  payload_str ← dumps (Json.Options true true ", " ": ") payload;
  key ← encode secret;
  Ok (HMAC.hexdigest key (Text.encode payload_str)).

(** [hmac.compare_digest(a, b)] on two [str]: both must be ASCII. *)
Definition compare_digest (a b : string) : result bool :=
  if all_chars (fun c => Text.ord c <? 128) a && all_chars (fun c => Text.ord c <? 128) b
  then Ok (String.eqb a b)
  else Raised (Exception "comparing strings with non-ASCII characters is not supported").

Definition verify_signature (payload : value) (signature : string) (secret : str)
  : result bool :=
  expected ← generate_signature payload secret;
  compare_digest signature expected.

(** Truth value of an optional secret: [None] and the empty string are
    false. *)
Definition truthy (secret : option str) : option str :=
  match secret with
  | Some [] => None
  | other => other
  end.

Section Delivery.

Context (cfg : Settings) (E : env).

Definition webhook_payload (event : string) (data : value) (timestamp : string) : value :=
  Dict [("event"%string, Str event);
        ("data"%string, data);
        ("timestamp"%string, Str timestamp)].

(** Lines 30 to 37: the headers, with the signature when a secret is given.
    This runs before the [try]. *)
Definition webhook_headers (event : string) (payload : value) (secret : option str)
  : result (list (string * string)) :=
  let headers := [("Content-Type", "application/json"); ("X-Aegis-Event", event)]%string in
  match truthy secret with
  | Some s =>
      signature ← generate_signature payload s;
      Ok (headers ++ [("X-Aegis-Signature"%string, "sha256=" +:+ signature)])
  | None => Ok headers
  end.

(** [client.post(webhook_url, json=payload, headers=headers)]: [httpx]
    serialises the payload, in insertion order, before it sends anything;
    a payload it cannot serialise makes the call raise, and nothing is
    sent. *)
Definition client_post (webhook_url : string) (payload : value)
    (headers : list (string * string)) (w : world) : http_outcome * world :=
  match to_json payload with
  | Ok body => client_post E (Request webhook_url body headers) w
  | Raised e => (TransportError e, w)
  end.

Equations? deliver_webhook (webhook_url event : string) (data : value)
    (secret : option str) (retry_count : Z) (w : world) : result bool * world
    by wf (Z.to_nat (WEBHOOK_MAX_RETRIES cfg - retry_count)) lt :=
  deliver_webhook webhook_url event data secret retry_count w
    with webhook_headers event (webhook_payload event data (utcnow E (length w))) secret := {
    | Raised e := (Raised e, w)        (* raised before the [try] *)
    | Ok headers
        with client_post webhook_url
               (webhook_payload event data (utcnow E (length w))) headers w := {
        | (Response status_code _ _, w1) with accepted_status status_code := {
            | true := (Ok true, w1)
            | false with Z_lt_dec retry_count (WEBHOOK_MAX_RETRIES cfg) := {
                | left _
                    (* the retry runs inside the [try] block *)
                    with deliver_webhook webhook_url event data secret (retry_count + 1)
                           (asyncio_sleep (retry_delay cfg retry_count) w1) := {
                    | (Ok b, w2) := (Ok b, w2)
                    | (Raised e, w2) :=
                        deliver_webhook webhook_url event data secret (retry_count + 1)
                          (asyncio_sleep (retry_delay cfg retry_count)
                             (print ("Webhook delivery error: " +:+ str_of_exn e) w2))
                  }
                | right _ := (Ok false, w1)
              }
          }
        | (TransportError e, w1)
            with Z_lt_dec retry_count (WEBHOOK_MAX_RETRIES cfg) := {
            | left _ :=
                deliver_webhook webhook_url event data secret (retry_count + 1)
                  (asyncio_sleep (retry_delay cfg retry_count)
                     (print ("Webhook delivery error: " +:+ str_of_exn e) w1))
            | right _ := (Ok false, print ("Webhook delivery error: " +:+ str_of_exn e) w1)
          }
      }
  }.
Proof. all: lia. Qed.

End Delivery.

End Py.

(** ** Tampering with a signed payload or with the secret *)


(** Another secret.  HMAC pads a key of at most one block (64 bytes) with
    zero bytes, so two such keys are different keys when they differ at
    some byte, a byte past the end of a key counting as zero; of longer
    keys, the other one has as many bytes and differs. *)
Definition rekeyed (secret secret' : Py.str) : Prop :=
  exists key key',
    Py.encode secret = Ok key /\ Py.encode secret' = Ok key'
    /\ (((length key <= HMAC.block_size)%nat /\ (length key' <= HMAC.block_size)%nat
         /\ exists i, nth i key' 0 <> nth i key 0)
        \/ (length key' = length key /\ key' <> key)).


(** SHA-256 has no collision among the messages [ms]. *)
Definition collision_free (ms : list (list Z)) : Prop :=
  forall m1 m2, In m1 ms -> In m2 ms -> SHA256.digest m1 = SHA256.digest m2 -> m1 = m2.

(** The messages SHA-256 is applied to by [hmac.new(key, msg, sha256)]: the
    key itself when it is longer than a block, the inner and the outer
    message. *)
Definition hmac_hashes (key msg : list Z) : list (list Z) :=
  let k := HMAC.block_key key in
  let inner := HMAC.xor_pad 0x36 k ++ msg in
  (if (HMAC.block_size <? length key)%nat then [key] else [])
  ++ [inner; HMAC.xor_pad 0x5c k ++ SHA256.digest inner].


(** ** Reading back what was written

    The functions below belong to no source file.  [unescape] and [decode]
    undo [Json.escape] and [Text.encode], and [literals] finds the keys and
    texts of a serialised document: they show that serialising and encoding
    lose nothing of what a mutation changes. *)








(** Further concrete inputs. *)

Module Unsignable.

(** A payload with a [datetime] in it. *)
Definition dated : Py.value := Py.Dict [("when"%string, Py.Object "datetime")].

(** The secret [k]. *)
Definition secret : Py.str := Py.of_string Scenario.secret.

(** U+D7FF, and the lone surrogate U+DFFF one bit away from it. *)
Definition hangul : Py.str := [0xD7FF].


End Unsignable.

(** * Properties *)

(** ** Agreement of the model with [hashlib], [hmac] and [json]

    Published test vectors (FIPS 180-4, RFC 4231) and serialisations printed
    by CPython, given as the hexadecimal text of their UTF-8 bytes. *)

Example sha256_of_empty :
  SHA256.hexdigest []
  = "e3b0c44298fc1c149afbf4c8996fb92427ae41e4649b934ca495991b7852b855"%string.
Proof. vm_compute. reflexivity. Qed.

Example sha256_of_abc :
  SHA256.hexdigest (Text.encode "abc")
  = "ba7816bf8f01cfea414140de5dae2223b00361a396177a9cb410ff61f20015ad"%string.
Proof. vm_compute. reflexivity. Qed.

Example sha256_of_two_blocks :
  SHA256.hexdigest (Text.encode "abcdbcdecdefdefgefghfghighijhijkijkljklmklmnlmnomnopnopq")
  = "248d6a61d20638b8e5c026930c3e6039a33ce45964ff2167f6ecedd419db06c1"%string.
Proof. vm_compute. reflexivity. Qed.

Example hmac_short_key :
  HMAC.hexdigest (Text.encode "Jefe") (Text.encode "what do ya want for nothing?")
  = "5bdcc146bf60754e6a042426089575c75a003f089d2739839dec58b964ec3843"%string.
Proof. vm_compute. reflexivity. Qed.

Example hmac_key_longer_than_block :
  HMAC.hexdigest (repeat 170 131)
    (Text.encode "Test Using Larger Than Block-Size Key - Hash Key First")
  = "60e431591ee0b67f0d8a26aacbf5b77f8e0bc6213728c5140546040f0ee37f54"%string.
Proof. vm_compute. reflexivity. Qed.

Example dumps_sorted_envelope :
  Text.hex (Text.encode (canonical_json Scenario.envelope))
  = ("7b2264617461223a207b226a6f625f6964223a20226a6f625f31227d2c20226576656e74" +:+
     "223a2022616e616c797369732e636f6d706c65746564222c202274696d657374616d7022" +:+
     "3a2022323032342d30312d30315430303a30303a3030227d")%string.
Proof. vm_compute. reflexivity. Qed.

Example dumps_compact_envelope :
  Text.hex (Text.encode (Json.dumps httpx_compact Scenario.envelope))
  = ("7b226576656e74223a22616e616c797369732e636f6d706c65746564222c226461746122" +:+
     "3a7b226a6f625f6964223a226a6f625f31227d2c2274696d657374616d70223a22323032" +:+
     "342d30312d30315430303a30303a3030227d")%string.
Proof. vm_compute. reflexivity. Qed.

Example dumps_sorted_escapes :
  Text.hex (Text.encode (canonical_json Scenario.awkward))
  = ("7b226e223a205b312c202d32302c20747275652c206e756c6c2c207b7d5d2c202274223a" +:+
     "20226361665c7530306539205c22715c22205c5c205c6e5c745c75303030315c75303037" +:+
     "66227d")%string.
Proof. vm_compute. reflexivity. Qed.

Example dumps_compact_escapes :
  Text.hex (Text.encode (Json.dumps httpx_compact Scenario.awkward))
  = ("7b2274223a22636166c3a9205c22715c22205c5c205c6e5c745c75303030317f222c226e" +:+
     "223a5b312c2d32302c747275652c6e756c6c2c7b7d5d7d")%string.
Proof. vm_compute. reflexivity. Qed.

Example signature_of_envelope :
  generate_signature Scenario.envelope Scenario.secret
  = "779da82dc3f304246cfa9e988a634d55025f1d03164f971294ecbc56522bce7f"%string.
Proof. vm_compute. reflexivity. Qed.

(** ** The shape of a webhook delivery *)

Section DeliveryFacts.
Context (cfg : Settings) (E : env).

Lemma deliver_webhook_delivery webhook_url event data secret retry_count w :
  exists b tr,
    deliver_webhook cfg E webhook_url event data secret retry_count w = (Ok b, w ++ tr)
    /\ delivery cfg E webhook_url event data secret w retry_count tr b.
Proof.
  funelim (deliver_webhook cfg E webhook_url event data secret retry_count w);
    unfold client_post in *;
    repeat match goal with
           | H : (_, _) = (_, _) |- _ => inversion H; subst; clear H
           end;
    match goal with
    | H : webhook_endpoint _ _ _ = _
      |- exists _ _, _ /\ delivery _ _ ?u ?ev ?d ?s ?w0 ?n _ _ =>
        pose proof (delivery_accepted cfg E u ev d s w0 n) as Da;
        pose proof (delivery_exhausted cfg E u ev d s w0 n) as De;
        pose proof (delivery_retry cfg E u ev d s w0 n) as Dr;
        unfold attempt_events, attempt_answer, attempt_request in Da, De, Dr;
        rewrite H in *; simpl in Da, De, Dr
    end;
    try match goal with
        | IH : exists _ _, _ /\ _ |- _ =>
            destruct IH as (b' & tr & Hrun & Hd);
            unfold asyncio_sleep, print in *;
            rewrite <- ?app_assoc in *; simpl in *
        end.
  - eexists _, _. split; [reflexivity |]. auto.
  - eexists _, _. split; [reflexivity |]. auto.
  - rewrite Hrun in Heq. inversion Heq; subst; clear Heq.
    eexists _, _. split; [reflexivity |]. apply Dr; auto.
  - rewrite Hrun in Heq. discriminate Heq.
  - rewrite Hrun. eexists _, _. split; [reflexivity |]. apply Dr; auto.
  - unfold print. rewrite <- !app_assoc. simpl.
    eexists _, _. split; [reflexivity |]. auto.
Qed.

Lemma webhook_posts_app (w1 w2 : world) :
  webhook_posts (w1 ++ w2) = (webhook_posts w1 + webhook_posts w2)%nat.
Proof. unfold webhook_posts. rewrite List.filter_app, length_app. reflexivity. Qed.

Lemma sleeps_app (w1 w2 : world) : sleeps (w1 ++ w2) = sleeps w1 ++ sleeps w2.
Proof.
  induction w1 as [| e w1 IH]; [reflexivity |].
  destruct e; simpl; rewrite IH; reflexivity.
Qed.

Lemma attempt_events_posts url ev data secret w :
  webhook_posts (attempt_events E url ev data secret w) = 1%nat.
Proof.
  unfold attempt_events, complaint.
  destruct (attempt_answer E url ev data secret w); reflexivity.
Qed.

Lemma attempt_events_sleeps url ev data secret w :
  sleeps (attempt_events E url ev data secret w) = [].
Proof.
  unfold attempt_events, complaint.
  destruct (attempt_answer E url ev data secret w); reflexivity.
Qed.

Lemma delivery_posts_positive url ev data secret w n tr b :
  delivery cfg E url ev data secret w n tr b -> (1 <= webhook_posts tr)%nat.
Proof.
  induction 1.
  - cbn. lia.
  - rewrite attempt_events_posts. lia.
  - rewrite webhook_posts_app, attempt_events_posts. lia.
Qed.

(** With a subscriber that refuses every POST, the attempts run until
    [retry_count] reaches the maximum. *)
Lemma delivery_all_refused url ev data secret w n tr b :
  (forall k r, accepted (webhook_endpoint E k r) = false) ->
  delivery cfg E url ev data secret w n tr b ->
  b = false /\
  Z.of_nat (webhook_posts tr) = Z.max 0 (WEBHOOK_MAX_RETRIES cfg - n) + 1.
Proof.
  intros Href D. induction D as [w n Hacc | w n Hacc Hn | w n tr b Hacc Hn D IH].
  - unfold attempt_answer in Hacc. rewrite Href in Hacc. discriminate.
  - split; [reflexivity |]. rewrite attempt_events_posts. lia.
  - destruct IH as [-> IH]. split; [reflexivity |].
    rewrite webhook_posts_app, attempt_events_posts.
    change (webhook_posts (Sleep (retry_delay cfg n) :: tr)) with (webhook_posts tr).
    lia.
Qed.

(** The delays of a delivery form the progression that starts at
    [delay * (retry_count + 1)] and grows by [delay]. *)
Lemma delivery_sleeps url ev data secret w n tr b :
  delivery cfg E url ev data secret w n tr b ->
  sleeps tr =
  progression (WEBHOOK_RETRY_DELAY cfg * (n + 1)) (WEBHOOK_RETRY_DELAY cfg)
              (webhook_posts tr - 1).
Proof.
  induction 1 as [w n Hacc | w n Hacc Hn | w n tr b Hacc Hn D IH].
  - reflexivity.
  - rewrite attempt_events_posts, attempt_events_sleeps. reflexivity.
  - rewrite sleeps_app, attempt_events_sleeps, webhook_posts_app, attempt_events_posts.
    change (webhook_posts (Sleep (retry_delay cfg n) :: tr)) with (webhook_posts tr).
    pose proof (delivery_posts_positive _ _ _ _ _ _ _ _ D) as Hpos.
    replace (1 + webhook_posts tr - 1)%nat with (S (webhook_posts tr - 1)) by lia.
    cbn [sleeps app progression]. rewrite IH. unfold retry_delay.
    f_equal. f_equal. ring.
Qed.

Lemma accepted_status_spec code :
  accepted_status code = true <-> code = 200 \/ code = 201 \/ code = 202.
Proof. unfold accepted_status. rewrite !orb_true_iff, !Z.eqb_eq. tauto. Qed.

Lemma refused_attempt_has_no_success url ev data secret w r code text json :
  accepted (attempt_answer E url ev data secret w) = false ->
  In (WebhookPost r (Response code text json)) (attempt_events E url ev data secret w) ->
  accepted_status code = false.
Proof.
  unfold attempt_events. intros Ha [Heq | Hin].
  - inversion Heq as [[Hr Hans]]. rewrite Hans in Ha. exact Ha.
  - destruct (attempt_answer E url ev data secret w); simpl in Hin; [tauto |].
    destruct Hin as [Hin | []]. discriminate Hin.
Qed.

(** A delivery returns [True] exactly when one of its POSTs was answered
    with 200, 201 or 202. *)
Lemma delivery_true_iff url ev data secret w n tr b :
  delivery cfg E url ev data secret w n tr b ->
  b = true <->
  exists r code text json,
    In (WebhookPost r (Response code text json)) tr /\
    (code = 200 \/ code = 201 \/ code = 202).
Proof.
  induction 1 as [w n Hacc | w n Hacc Hn | w n tr b Hacc Hn D IH].
  - split; [intros _ | reflexivity].
    destruct (attempt_answer E url ev data secret w) as [code text json | e] eqn:Ha;
      [| discriminate Hacc].
    exists (attempt_request E url ev data secret w), code, text, json.
    split; [left; reflexivity | apply accepted_status_spec, Hacc].
  - split; [discriminate |].
    intros (r & code & text & json & Hin & Hc).
    apply accepted_status_spec in Hc.
    rewrite (refused_attempt_has_no_success _ _ _ _ _ _ _ _ _ Hacc Hin) in Hc.
    discriminate Hc.
  - rewrite IH. split.
    + intros (r & code & text & json & Hin & Hc).
      exists r, code, text, json. split; [| exact Hc].
      apply in_or_app. right. right. exact Hin.
    + intros (r & code & text & json & Hin & Hc).
      apply in_app_or in Hin. destruct Hin as [Hin | [Hin | Hin]].
      * apply accepted_status_spec in Hc.
        rewrite (refused_attempt_has_no_success _ _ _ _ _ _ _ _ _ Hacc Hin) in Hc.
        discriminate Hc.
      * discriminate Hin.
      * exists r, code, text, json. split; assumption.
Qed.

(** Every POST of a delivery carries the event name it was called with. *)
Lemma delivery_posted_event url ev data secret w n tr b :
  delivery cfg E url ev data secret w n tr b ->
  Forall (fun e => is_webhook_post e = true -> posted_event e = Some (Json.Str ev)) tr.
Proof.
  assert (Hatt : forall w0,
             Forall (fun e => is_webhook_post e = true -> posted_event e = Some (Json.Str ev))
                    (attempt_events E url ev data secret w0)).
  { intros w0. unfold attempt_events. constructor; [intros _; reflexivity |].
    destruct (attempt_answer E url ev data secret w0); simpl; repeat constructor.
    discriminate. }
  induction 1 as [w n Hacc | w n Hacc Hn | w n tr b Hacc Hn D IH].
  - constructor; [intros _; reflexivity | constructor].
  - apply Hatt.
  - apply Forall_app. split; [apply Hatt |].
    constructor; [discriminate | exact IH].
Qed.

End DeliveryFacts.

(** ** Webhook delivery: attempts, result, backoff *)

(** C4, as the code has it: a subscriber that refuses every POST is POSTed
    four times with the default settings (the first attempt and three
    retries), not three, before [deliver_webhook] returns [False]. *)
Lemma deliver_webhook_refused_four_posts :
  let '(r, w) := deliver_webhook settings Scenario.refusing Scenario.hook
                   "analysis.completed" Scenario.data None 0 [] in
  r = Ok false /\ webhook_posts w = 4%nat /\ webhook_posts w <> 3%nat.
Proof. vm_compute. repeat split; congruence. Qed.

(** C4 (amended): with [WEBHOOK_MAX_RETRIES = 3], a delivery to a subscriber
    whose every POST fails returns [False] after exactly four POSTs. *)
Theorem deliver_webhook_all_refused (cfg : Settings) (E : env) url ev data secret w :
  WEBHOOK_MAX_RETRIES cfg = 3 ->
  (forall k r, accepted (webhook_endpoint E k r) = false) ->
  exists tr,
    deliver_webhook cfg E url ev data secret 0 w = (Ok false, w ++ tr)
    /\ webhook_posts tr = 4%nat.
Proof.
  intros Hmax Href.
  destruct (deliver_webhook_delivery cfg E url ev data secret 0 w)
    as (b & tr & Hrun & D).
  destruct (delivery_all_refused cfg E _ _ _ _ _ _ _ _ Href D) as [-> Hn].
  exists tr. split; [exact Hrun |]. rewrite Hmax in Hn. lia.
Qed.

Lemma deliver_webhook_all_refused_witness :
  WEBHOOK_MAX_RETRIES settings = 3 /\
  (forall k r, accepted (webhook_endpoint Scenario.refusing k r) = false) /\
  exists tr,
    deliver_webhook settings Scenario.refusing Scenario.hook "analysis.failed"
      Scenario.data (Some Scenario.secret) 0 [] = (Ok false, [] ++ tr)
    /\ webhook_posts tr = 4%nat.
Proof.
  split; [reflexivity |]. split; [intros k r; reflexivity |].
  apply (deliver_webhook_all_refused settings Scenario.refusing).
  - reflexivity.
  - intros k r. reflexivity.
Defined.

(** On JSON data and with a secret that encodes, [deliver_webhook] returns a
    boolean, and that boolean is [True] exactly when one of the POSTs it made
    was answered with status 200, 201 or 202. *)
Lemma deliver_webhook_true_iff_accepted (cfg : Settings) (E : env)
    url ev data secret retry_count w :
  exists b tr,
    deliver_webhook cfg E url ev data secret retry_count w = (Ok b, w ++ tr)
    /\ (b = true <->
        exists r code text json,
          In (WebhookPost r (Response code text json)) tr /\
          (code = 200 \/ code = 201 \/ code = 202)).
Proof.
  destruct (deliver_webhook_delivery cfg E url ev data secret retry_count w)
    as (b & tr & Hrun & D).
  exists b, tr. split; [exact Hrun |].
  exact (delivery_true_iff cfg E _ _ _ _ _ _ _ _ D).
Qed.

(** C6, as the code has it: the first refused attempt has attempt number 0
    and is followed by a sleep of 5 seconds, not of [5 * 0]. *)
Lemma first_retry_sleeps_five_seconds :
  let '(r, w) := deliver_webhook settings Scenario.flaky Scenario.hook
                   "analysis.completed" Scenario.data None 0 [] in
  r = Ok true /\ webhook_posts w = 2%nat /\ sleeps w = [5]
  /\ sleeps w <> [WEBHOOK_RETRY_DELAY settings * 0].
Proof. vm_compute. repeat split; congruence. Qed.

Lemma progression_lower_bound first step n :
  0 < step -> Forall (Z.le first) (progression first step n).
Proof.
  intros Hstep. revert first. induction n as [| n IH]; intros first; [constructor |].
  cbn [progression]. constructor; [lia |].
  eapply Forall_impl; [apply IH |]. cbn. intros x Hx. lia.
Qed.

(** With a positive step the progression is strictly increasing. *)
Lemma progression_increasing first step n :
  0 < step -> StronglySorted Z.lt (progression first step n).
Proof.
  intros Hstep. revert first. induction n as [| n IH]; intros first; [constructor |].
  cbn [progression]. constructor; [apply IH |].
  eapply Forall_impl; [apply (progression_lower_bound (first + step) step n Hstep) |].
  cbn. intros x Hx. lia.
Qed.

(** C6 (amended): the delays slept by a delivery are linear in the attempt
    number: after the refused attempt number [n] the delay is
    [WEBHOOK_RETRY_DELAY * (n + 1)], so the successive delays are the
    arithmetic progression of step [WEBHOOK_RETRY_DELAY] with one term per
    retry (5, 10, 15 with the defaults), strictly increasing when the base
    delay is positive. *)
Theorem deliver_webhook_linear_backoff (cfg : Settings) (E : env)
    url ev data secret retry_count w :
  exists b tr,
    deliver_webhook cfg E url ev data secret retry_count w = (Ok b, w ++ tr)
    /\ sleeps tr =
       progression (WEBHOOK_RETRY_DELAY cfg * (retry_count + 1))
                   (WEBHOOK_RETRY_DELAY cfg) (webhook_posts tr - 1)
    /\ (0 < WEBHOOK_RETRY_DELAY cfg -> StronglySorted Z.lt (sleeps tr)).
Proof.
  destruct (deliver_webhook_delivery cfg E url ev data secret retry_count w)
    as (b & tr & Hrun & D).
  exists b, tr. split; [exact Hrun |].
  pose proof (delivery_sleeps cfg E _ _ _ _ _ _ _ _ D) as Hs.
  split; [exact Hs |].
  intros Hpos. rewrite Hs. apply progression_increasing. exact Hpos.
Qed.

Lemma deliver_webhook_linear_backoff_witness :
  exists b tr,
    deliver_webhook settings Scenario.refusing Scenario.hook "analysis.failed"
      Scenario.data None 0 [] = (Ok b, [] ++ tr)
    /\ sleeps tr = progression (5 * (0 + 1)) 5 (webhook_posts tr - 1)
    /\ (0 < 5 -> StronglySorted Z.lt (sleeps tr)).
Proof.
  exact (deliver_webhook_linear_backoff settings Scenario.refusing Scenario.hook
           "analysis.failed" Scenario.data None 0 []).
Defined.

(** The delays of a delivery that is refused throughout, evaluated. *)
Example refused_delivery_delays :
  sleeps (snd (deliver_webhook settings Scenario.refusing Scenario.hook "analysis.failed"
                 Scenario.data None 0 []))
  = [5; 10; 15].
Proof. vm_compute. reflexivity. Qed.

(** ** Bytes, hexadecimal text and digests *)

Lemma unhex_hex_digit d : 0 <= d < 16 -> Text.unhex_digit (Text.hex_digit d) = d.
Proof.
  intros Hd.
  assert (Hcases : d = 0 \/ d = 1 \/ d = 2 \/ d = 3 \/ d = 4 \/ d = 5 \/ d = 6 \/ d = 7 \/
                   d = 8 \/ d = 9 \/ d = 10 \/ d = 11 \/ d = 12 \/ d = 13 \/ d = 14 \/ d = 15)
    by lia.
  repeat (destruct Hcases as [-> | Hcases]; [reflexivity |]).
  subst d. reflexivity.
Qed.

Lemma is_hex_digit_hex_digit d : 0 <= d < 16 -> is_hex_digit (Text.hex_digit d) = true.
Proof.
  intros Hd.
  assert (Hcases : d = 0 \/ d = 1 \/ d = 2 \/ d = 3 \/ d = 4 \/ d = 5 \/ d = 6 \/ d = 7 \/
                   d = 8 \/ d = 9 \/ d = 10 \/ d = 11 \/ d = 12 \/ d = 13 \/ d = 14 \/ d = 15)
    by lia.
  repeat (destruct Hcases as [-> | Hcases]; [reflexivity |]).
  subst d. reflexivity.
Qed.

Lemma byte_digits b : Text.is_byte b -> 0 <= b / 16 < 16 /\ 0 <= b mod 16 < 16.
Proof.
  unfold Text.is_byte. intros Hb. split.
  - split; [apply Z.div_pos; lia | apply Z.div_lt_upper_bound; lia].
  - apply Z.mod_pos_bound. lia.
Qed.

Lemma hex_digit_not_space d : 0 <= d < 16 -> is_space (Text.hex_digit d) = false.
Proof.
  intros Hd.
  assert (Hcases : d = 0 \/ d = 1 \/ d = 2 \/ d = 3 \/ d = 4 \/ d = 5 \/ d = 6 \/ d = 7 \/
                   d = 8 \/ d = 9 \/ d = 10 \/ d = 11 \/ d = 12 \/ d = 13 \/ d = 14 \/ d = 15)
    by lia.
  repeat (destruct Hcases as [-> | Hcases]; [reflexivity |]).
  subst d. reflexivity.
Qed.

Lemma hex_digit_ascii d : 0 <= d < 16 -> (127 <? Text.ord (Text.hex_digit d)) = false.
Proof.
  intros Hd.
  assert (Hcases : d = 0 \/ d = 1 \/ d = 2 \/ d = 3 \/ d = 4 \/ d = 5 \/ d = 6 \/ d = 7 \/
                   d = 8 \/ d = 9 \/ d = 10 \/ d = 11 \/ d = 12 \/ d = 13 \/ d = 14 \/ d = 15)
    by lia.
  repeat (destruct Hcases as [-> | Hcases]; [reflexivity |]).
  subst d. reflexivity.
Qed.

Lemma first_non_ascii_hex bs pos :
  Forall Text.is_byte bs -> first_non_ascii pos (Text.hex bs) = None.
Proof.
  intros H. revert pos. induction H as [| b bs Hb _ IH]; intros pos; [reflexivity |].
  destruct (byte_digits b Hb) as [Hhi Hlo].
  cbn [Text.hex first_non_ascii]. rewrite !hex_digit_ascii by assumption. apply IH.
Qed.

Lemma fromhex_scan_hex bs pos :
  Forall Text.is_byte bs -> fromhex_scan pos (Text.hex bs) = inl bs.
Proof.
  intros H. revert pos. induction H as [| b bs Hb _ IH]; intros pos; [reflexivity |].
  destruct (byte_digits b Hb) as [Hhi Hlo].
  cbn [Text.hex fromhex_scan].
  rewrite hex_digit_not_space, !is_hex_digit_hex_digit, !unhex_hex_digit, IH by assumption.
  f_equal. f_equal. pose proof (Z.div_mod b 16). lia.
Qed.

(** [bytes.fromhex] undoes [bytes.hex]. *)
Lemma fromhex_hex bs : Forall Text.is_byte bs -> fromhex (Text.hex bs) = Some bs.
Proof.
  intros H. unfold fromhex, fromhex_parse.
  rewrite first_non_ascii_hex, fromhex_scan_hex by exact H. reflexivity.
Qed.

Lemma hex_inj bs1 bs2 :
  Forall Text.is_byte bs1 -> Forall Text.is_byte bs2 -> Text.hex bs1 = Text.hex bs2 -> bs1 = bs2.
Proof.
  intros H1 H2 Heq.
  assert (Hs : Some bs1 = Some bs2)
    by (rewrite <- (fromhex_hex bs1 H1), <- (fromhex_hex bs2 H2), Heq; reflexivity).
  congruence.
Qed.

Lemma be_bytes_are_bytes n x : Forall Text.is_byte (SHA256.be_bytes n x).
Proof.
  induction n as [| n IH]; constructor; [| exact IH].
  unfold Text.is_byte. change 255 with (Z.ones 8). rewrite Z.land_ones by lia.
  apply Z.mod_pos_bound. lia.
Qed.

Lemma digest_bytes msg : Forall Text.is_byte (SHA256.digest msg).
Proof.
  unfold SHA256.digest. generalize (fold_left SHA256.compress
    (SHA256.blocks (length (SHA256.pad msg) / 64) (SHA256.pad msg)) SHA256.initial_hash).
  intros h. induction h as [| x h IH]; [constructor |].
  cbn [flat_map]. apply Forall_app. split; [apply be_bytes_are_bytes | exact IH].
Qed.

Lemma hmac_digest_bytes key msg : Forall Text.is_byte (HMAC.digest key msg).
Proof. apply digest_bytes. Qed.

(** Zero bytes at the end of a key shorter than a block do not change the
    key HMAC works with. *)
Lemma block_key_trailing_zero key :
  (length key < HMAC.block_size)%nat -> HMAC.block_key (key ++ [0]) = HMAC.block_key key.
Proof.
  unfold HMAC.block_key, HMAC.block_size. intros Hlen. cbv zeta.
  rewrite !length_app. cbn [length].
  destruct (Nat.ltb_spec 64 (length key + 1)) as [? | _]; [lia |].
  destruct (Nat.ltb_spec 64 (length key)) as [? | _]; [lia |].
  rewrite length_app. cbn [length].
  rewrite <- app_assoc. f_equal.
  replace (64 - length key)%nat with (S (64 - (length key + 1))) by lia.
  reflexivity.
Qed.

Lemma encode_app s1 s2 : Text.encode (s1 +:+ s2) = Text.encode s1 ++ Text.encode s2.
Proof.
  induction s1 as [| c s1 IH]; [reflexivity |].
  change (Text.encode (String c s1 +:+ s2))
    with (Text.encode_char c ++ Text.encode (s1 +:+ s2)).
  rewrite IH. cbn [Text.encode]. rewrite app_assoc. reflexivity.
Qed.

(** A secret and the same secret followed by a NUL character sign alike. *)
Lemma signature_ignores_trailing_nul payload secret :
  (length (Text.encode secret) < HMAC.block_size)%nat ->
  generate_signature payload (secret +:+ Scenario.secret_nul)
  = generate_signature payload secret.
Proof.
  intros Hlen. unfold generate_signature, HMAC.hexdigest, HMAC.digest.
  rewrite encode_app.
  change (Text.encode Scenario.secret_nul) with [0].
  rewrite block_key_trailing_zero by exact Hlen. reflexivity.
Qed.


(** ** The bytes that are signed and the bytes that are sent *)

(** The text that is signed starts with the [data] key, whatever the data. *)
Lemma canonical_payload_starts_with_data ev data ts :
  exists rest,
    canonical_json (webhook_payload ev data ts)
    = String "{" (String (Text.chr 34) (String "d" rest)).
Proof. unfold canonical_json. cbn. eexists. reflexivity. Qed.

(** The text that is sent starts with the [event] key. *)
Lemma unsorted_payload_starts_with_event o ev data ts :
  Json.sort_keys o = false ->
  exists rest,
    Json.dumps o (webhook_payload ev data ts)
    = String "{" (String (Text.chr 34) (String "e" rest)).
Proof.
  destruct o as [sk ea isep ksep]. cbn [Json.sort_keys]. intros ->.
  destruct ea; cbn; eexists; reflexivity.
Qed.

(** C8, as the code has it: HMAC-SHA256 over the body that is sent is not the
    signature in the header, neither with the separators of current [httpx]
    releases nor with the default ones of [json.dumps]. *)
Lemma body_hmac_is_not_the_header_signature :
  let r := webhook_request Scenario.hook "analysis.completed" Scenario.data
             (Some Scenario.secret) (Scenario.clock 0) in
  header "X-Aegis-Signature" (req_headers r)
  = Some ("sha256=" +:+ generate_signature (req_json r) Scenario.secret)
  /\ header "X-Aegis-Signature" (req_headers r)
     <> Some ("sha256=" +:+ HMAC.hexdigest (Text.encode Scenario.secret)
                                           (request_body httpx_compact r))
  /\ header "X-Aegis-Signature" (req_headers r)
     <> Some ("sha256=" +:+ HMAC.hexdigest (Text.encode Scenario.secret)
                                           (request_body Json.defaults r)).
Proof. vm_compute. repeat split; congruence. Qed.


(** ** The in-memory queue *)

Module QueueFacts.
Import Queue.

Lemma status_of_insert_eq q (m : gmap string entry) jid s :
  status_of (State q (<[jid := status_entry s]> m)) jid = parse_status (Json.Str s).
Proof. unfold status_of. cbn. rewrite lookup_insert_eq. reflexivity. Qed.

Lemma status_of_insert_ne q q' (m : gmap string entry) jid jid' e :
  jid <> jid' ->
  status_of (State q (<[jid := e]> m)) jid' = status_of (State q' m) jid'.
Proof. intros Hne. unfold status_of. cbn. rewrite lookup_insert_ne by exact Hne. reflexivity. Qed.

Lemma status_recorded st jid :
  status_of st jid <> None -> _in_memory_processing st !! jid <> None.
Proof. unfold status_of. destruct (_in_memory_processing st !! jid); congruence. Qed.

Lemma forward_refl s : forward s s.
Proof. split; [lia | reflexivity]. Qed.

Lemma submitted_app ops1 ops2 : submitted (ops1 ++ ops2) = submitted ops1 ++ submitted ops2.
Proof.
  induction ops1 as [| o ops1 IH]; [reflexivity |].
  destruct o; cbn; rewrite IH; reflexivity.
Qed.

Lemma exec_app ops1 ops2 s : exec (ops1 ++ ops2) s = exec ops2 (exec ops1 s).
Proof. apply fold_left_app. Qed.

Lemma invariant_boot : invariant [] boot.
Proof.
  split; cbn.
  - constructor.
  - intros d Hd. inversion Hd.
  - discriminate.
  - intros jid H. rewrite lookup_empty in H. congruence.
Qed.

Lemma queued_is_submitted ids s d :
  invariant ids s -> d ∈ _in_memory_queue (store s) -> job_id d ∈ ids.
Proof.
  intros I Hd. apply (recorded_submitted _ _ I), status_recorded.
  rewrite (queue_pending _ _ I d Hd). discriminate.
Qed.

Lemma step_invariant ids s o :
  invariant ids s -> fresh ids o -> invariant (ids ++ submitted [o]) (step o s).
Proof.
  intros I Hfresh. destruct s as [[q m] run].
  destruct o as [jid content fname url opts key | | r]; cbn [step running store].
  - (* Submit *)
    assert (Hnew : jid ∉ ids) by (apply Hfresh; cbn; apply list_elem_of_singleton; reflexivity).
    split; cbn [store running add_analysis_job snd _in_memory_queue _in_memory_processing].
    + rewrite fmap_app. cbn. apply NoDup_app. split; [exact (queue_nodup _ _ I) |].
      split; [| apply NoDup_singleton].
      intros x Hx Hx'. apply list_elem_of_singleton in Hx'. subst x.
      apply list_elem_of_fmap in Hx. destruct Hx as (d & -> & Hd).
      apply Hnew. exact (queued_is_submitted _ _ _ I Hd).
    + intros d Hd. apply elem_of_app in Hd. destruct Hd as [Hd | Hd].
      * rewrite (status_of_insert_ne _ q).
        -- exact (queue_pending _ _ I d Hd).
        -- intros ->. apply Hnew. exact (queued_is_submitted _ _ _ I Hd).
      * apply list_elem_of_singleton in Hd. subst d.
        cbn [job_id]. apply status_of_insert_eq.
    + intros jid' Hrun. rewrite (status_of_insert_ne _ q).
      * exact (running_processing _ _ I jid' Hrun).
      * intros ->. apply Hnew. apply (recorded_submitted _ _ I), status_recorded.
        rewrite (running_processing _ _ I jid' Hrun). discriminate.
    + intros jid' Hrec. apply elem_of_app.
      destruct (decide (jid = jid')) as [<- | Hne];
        [right; cbn; apply list_elem_of_singleton; reflexivity |].
      left. apply (recorded_submitted _ _ I). cbn.
      rewrite lookup_insert_ne in Hrec by exact Hne. exact Hrec.
  - (* Claim *)
    rewrite app_nil_r. destruct run as [jid |]; [exact I |].
    unfold claim. cbn [_in_memory_queue _in_memory_processing].
    destruct q as [| d q]; [exact I |].
    pose proof (queue_nodup _ _ I) as Hnd. cbn in Hnd.
    apply NoDup_cons in Hnd. destruct Hnd as [Hd Hnd].
    split; cbn [store running _in_memory_queue _in_memory_processing].
    + exact Hnd.
    + intros d' Hd'. rewrite (status_of_insert_ne _ (d :: q)).
      * apply (queue_pending _ _ I). apply elem_of_cons. right. exact Hd'.
      * intros Heq. apply Hd. rewrite Heq. apply list_elem_of_fmap_2. exact Hd'.
    + intros jid [= <-]. apply status_of_insert_eq.
    + intros jid Hrec. apply (recorded_submitted _ _ I). cbn.
      destruct (decide (job_id d = jid)) as [<- | Hne].
      * apply (status_recorded (State (d :: q) m)).
        pose proof (queue_pending _ _ I d) as Hp. cbn in Hp.
        rewrite Hp by (apply elem_of_cons; left; reflexivity).
        discriminate.
      * rewrite lookup_insert_ne in Hrec by exact Hne. exact Hrec.
  - (* Finalize *)
    rewrite app_nil_r. destruct run as [jid |]; [| exact I].
    pose proof (running_processing _ _ I jid eq_refl) as Hjid.
    unfold finalize.
    split; cbn [store running _in_memory_queue _in_memory_processing].
    + exact (queue_nodup _ _ I).
    + intros d Hd. rewrite (status_of_insert_ne _ q).
      * exact (queue_pending _ _ I d Hd).
      * intros ->. rewrite (queue_pending _ _ I d Hd) in Hjid. discriminate.
    + discriminate.
    + intros jid' Hrec. apply (recorded_submitted _ _ I). cbn.
      destruct (decide (jid = jid')) as [<- | Hne].
      * apply (status_recorded (State q m)). cbn [store] in Hjid.
        rewrite Hjid. discriminate.
      * rewrite lookup_insert_ne in Hrec by exact Hne. exact Hrec.
Qed.

Lemma step_forward ids s o jid :
  invariant ids s -> fresh ids o ->
  forward (status_of (store s) jid) (status_of (store (step o s)) jid).
Proof.
  intros I Hfresh. destruct s as [[q m] run].
  destruct o as [jid0 content fname url opts key | | r]; cbn [step running store].
  - (* Submit *)
    cbn [add_analysis_job snd store _in_memory_queue _in_memory_processing].
    destruct (decide (jid0 = jid)) as [<- | Hne].
    + assert (Hnone : status_of (State q m) jid0 = None).
      { destruct (status_of (State q m) jid0) eqn:Hs; [| reflexivity].
        exfalso. apply (Hfresh jid0); [cbn; apply list_elem_of_singleton; reflexivity |].
        apply (recorded_submitted _ _ I), (status_recorded (State q m)).
        rewrite Hs. discriminate. }
      rewrite Hnone, status_of_insert_eq. split; [cbn; lia |].
      intros [H | H]; discriminate H.
    + rewrite (status_of_insert_ne _ q) by exact Hne. apply forward_refl.
  - (* Claim *)
    destruct run as [jid0 |]; [apply forward_refl |].
    unfold claim. cbn [store _in_memory_queue _in_memory_processing].
    destruct q as [| d q]; [apply forward_refl |]. cbn [store].
    pose proof (queue_pending _ _ I d) as Hp. cbn [store _in_memory_queue] in Hp.
    destruct (decide (job_id d = jid)) as [<- | Hne].
    + rewrite Hp by (apply elem_of_cons; left; reflexivity).
      rewrite status_of_insert_eq. split; [cbn; lia |].
      intros [H | H]; discriminate H.
    + rewrite (status_of_insert_ne _ (d :: q)) by exact Hne. apply forward_refl.
  - (* Finalize *)
    destruct run as [jid0 |]; [| apply forward_refl]. cbn [store].
    destruct (decide (jid0 = jid)) as [<- | Hne].
    + pose proof (running_processing _ _ I jid0 eq_refl) as Hr. cbn [store] in Hr.
      rewrite Hr.
      split; [| intros [H | H]; discriminate H].
      unfold finalize, status_of. cbn. rewrite lookup_insert_eq.
      destruct r; cbn; lia.
    + unfold finalize. cbn [_in_memory_queue _in_memory_processing].
      rewrite (status_of_insert_ne _ q) by exact Hne. apply forward_refl.
Qed.

Lemma nodup_fresh ids o : NoDup (ids ++ submitted [o]) -> fresh ids o.
Proof.
  intros Hnd jid Hin Hids. apply NoDup_app in Hnd.
  destruct Hnd as (_ & Hdisj & _). exact (Hdisj jid Hids Hin).
Qed.

Lemma nodup_prefix (l1 l2 : list string) : NoDup (l1 ++ l2) -> NoDup l1.
Proof. intros H. apply NoDup_app in H. tauto. Qed.

Lemma exec_invariant ops :
  NoDup (submitted ops) -> invariant (submitted ops) (exec ops boot).
Proof.
  induction ops as [| o ops IH] using rev_ind; [intros _; exact invariant_boot |].
  rewrite submitted_app, exec_app. intros Hnd. cbn [exec fold_left].
  apply step_invariant.
  - apply IH. exact (nodup_prefix _ _ Hnd).
  - exact (nodup_fresh _ _ Hnd).
Qed.

End QueueFacts.

(** C2, as the code has it: submitting the id of a completed job again takes
    its status from completed back to pending. *)
Lemma resubmission_resets_completed_job :
  let ops := [Queue.Submit "job_1" Scenario.pdf "a.pdf" None None None;
              Queue.Claim;
              Queue.Finalize (Ok Json.Null)] in
  let again := Queue.Submit "job_1" Scenario.pdf "a.pdf" None None None in
  Queue.status_of (Queue.store (Queue.exec ops Queue.boot)) "job_1" = Some Queue.Completed
  /\ Queue.status_of (Queue.store (Queue.exec (ops ++ [again]) Queue.boot)) "job_1"
     = Some Queue.Pending
  /\ ~ Queue.forward
         (Queue.status_of (Queue.store (Queue.exec ops Queue.boot)) "job_1")
         (Queue.status_of (Queue.store (Queue.exec (ops ++ [again]) Queue.boot)) "job_1").
Proof.
  cbv zeta.
  assert (H1 : Queue.status_of (Queue.store (Queue.exec
            [Queue.Submit "job_1" Scenario.pdf "a.pdf" None None None;
             Queue.Claim; Queue.Finalize (Ok Json.Null)] Queue.boot)) "job_1"
          = Some Queue.Completed) by (vm_compute; reflexivity).
  assert (H2 : Queue.status_of (Queue.store (Queue.exec
            ([Queue.Submit "job_1" Scenario.pdf "a.pdf" None None None;
              Queue.Claim; Queue.Finalize (Ok Json.Null)]
             ++ [Queue.Submit "job_1" Scenario.pdf "a.pdf" None None None]) Queue.boot)) "job_1"
          = Some Queue.Pending) by (vm_compute; reflexivity).
  rewrite H1, H2. repeat split.
  intros [Hrank _]. cbn in Hrank. lia.
Qed.

(** C2 (amended): as long as no job id is submitted twice, every step of the
    queue (a submission, the background task claiming a job, the background
    task recording an outcome) leaves the status of every job id where it is
    or moves it forward along Pending -> Processing -> {Completed | Failed};
    a terminal status never changes. *)
Theorem status_moves_forward (ops : list Queue.op) (o : Queue.op) (jid : string) :
  NoDup (Queue.submitted (ops ++ [o])) ->
  Queue.forward
    (Queue.status_of (Queue.store (Queue.exec ops Queue.boot)) jid)
    (Queue.status_of (Queue.store (Queue.exec (ops ++ [o]) Queue.boot)) jid).
Proof.
  intros Hnd. rewrite QueueFacts.submitted_app in Hnd.
  rewrite QueueFacts.exec_app. cbn [Queue.exec fold_left].
  apply (QueueFacts.step_forward (Queue.submitted ops)).
  - apply QueueFacts.exec_invariant. exact (QueueFacts.nodup_prefix _ _ Hnd).
  - exact (QueueFacts.nodup_fresh _ _ Hnd).
Qed.

Lemma status_moves_forward_witness :
  NoDup (Queue.submitted
           ([Queue.Submit "job_1" Scenario.pdf "a.pdf" None None None; Queue.Claim]
            ++ [Queue.Finalize (Ok Json.Null)]))
  /\ Queue.forward
       (Queue.status_of
          (Queue.store
             (Queue.exec [Queue.Submit "job_1" Scenario.pdf "a.pdf" None None None; Queue.Claim]
                Queue.boot)) "job_1")
       (Queue.status_of
          (Queue.store
             (Queue.exec
                ([Queue.Submit "job_1" Scenario.pdf "a.pdf" None None None; Queue.Claim]
                 ++ [Queue.Finalize (Ok Json.Null)]) Queue.boot)) "job_1").
Proof.
  assert (Hnd : NoDup (Queue.submitted
           ([Queue.Submit "job_1" Scenario.pdf "a.pdf" None None None; Queue.Claim]
            ++ [Queue.Finalize (Ok Json.Null)]))) by (simpl; apply NoDup_singleton).
  split; [exact Hnd |].
  exact (status_moves_forward
           [Queue.Submit "job_1" Scenario.pdf "a.pdf" None None None; Queue.Claim]
           (Queue.Finalize (Ok Json.Null)) "job_1" Hnd).
Defined.



(** ** API keys *)

Module ApiKeysFacts.
Import ApiKeys.

Lemma validate_api_key_dom api_key now store kid :
  snd (validate_api_key api_key now store) !! kid <> None -> store !! kid <> None.
Proof.
  unfold validate_api_key.
  destruct (split_first api_key) as [| k [| secret [| ? ?]]]; cbn; try tauto.
  destruct (store !! k) as [info |] eqn:Hk; cbn; [| tauto].
  destruct (negb (active info)); cbn; [tauto |].
  destruct (negb _); cbn; [tauto |].
  destruct (decide (k = kid)) as [<- | Hne].
  - intros _. congruence.
  - rewrite lookup_insert_ne by exact Hne. tauto.
Qed.

Lemma reachable_prefixed store : reachable store -> prefixed store.
Proof.
  induction 1 as [| token16 token32 now store _ IH | api_key now store _ IH].
  - intros kid H. rewrite lookup_empty in H. congruence.
  - intros kid H. cbn in H.
    destruct (decide ("key_" +:+ token16 = kid)) as [<- | Hne].
    + exists token16. reflexivity.
    + rewrite lookup_insert_ne in H by exact Hne. exact (IH kid H).
  - intros kid H. apply IH. exact (validate_api_key_dom _ _ _ _ H).
Qed.

(** Splitting a generated key at its first underscore leaves the bare
    prefix [key] on the left. *)
Lemma split_first_full_key token16 token32 :
  split_first (("key_" +:+ token16) +:+ "_" +:+ token32)
  = ["key"; token16 +:+ "_" +:+ token32]%string.
Proof. reflexivity. Qed.

End ApiKeysFacts.

(** C10: a key handed out by [generate_api_key] never validates:
    [validate_api_key] splits it at its first underscore, looks up the id
    [key], which no stored key has, and returns [None]. *)
Theorem generated_key_never_validates
    (store store0 : ApiKeys.keys) (token16 token32 now0 now : string) :
  ApiKeys.reachable store ->
  let full_key := snd (fst (ApiKeys.generate_api_key token16 token32 now0 store0)) in
  ApiKeys.validate_api_key full_key now store = (None, store).
Proof.
  intros Hreach full_key. subst full_key.
  unfold ApiKeys.validate_api_key. cbn [ApiKeys.generate_api_key fst snd].
  rewrite ApiKeysFacts.split_first_full_key.
  destruct (store !! "key"%string) as [info |] eqn:Hkey; [| reflexivity].
  exfalso.
  destruct (ApiKeysFacts.reachable_prefixed store Hreach "key"%string) as [token Htok].
  - rewrite Hkey. discriminate.
  - discriminate Htok.
Qed.

Lemma generated_key_never_validates_witness :
  let generated := ApiKeys.generate_api_key "dG9rZW4" "c2VjcmV0" "t0" ∅ in
  ApiKeys.reachable (snd generated)
  /\ ApiKeys.validate_api_key (snd (fst generated)) "t1" (snd generated)
     = (None, snd generated).
Proof.
  assert (Hreach : ApiKeys.reachable
                     (snd (ApiKeys.generate_api_key "dG9rZW4" "c2VjcmV0" "t0" ∅)))
    by (apply ApiKeys.reachable_generate, ApiKeys.reachable_empty).
  split; [exact Hreach |].
  exact (generated_key_never_validates _ ∅ "dG9rZW4" "c2VjcmV0" "t0" "t1" Hreach).
Defined.

(** ** The analysis task and the background loop *)

Section ProcessorFacts.

Context (cfg : Settings) (E : env).

Lemma backend_posts_app (w1 w2 : world) :
  backend_posts (w1 ++ w2) = (backend_posts w1 + backend_posts w2)%nat.
Proof. unfold backend_posts. rewrite List.filter_app, length_app. reflexivity. Qed.

Lemma attempt_events_backend_posts url ev data secret w :
  backend_posts (attempt_events E url ev data secret w) = 0%nat.
Proof.
  unfold attempt_events, complaint.
  destruct (attempt_answer E url ev data secret w); reflexivity.
Qed.

(** A delivery does not talk to the backend. *)
Lemma delivery_backend_posts url ev data secret w n tr b :
  delivery cfg E url ev data secret w n tr b -> backend_posts tr = 0%nat.
Proof.
  induction 1 as [w n Hacc | w n Hacc Hn | w n tr b Hacc Hn D IH].
  - reflexivity.
  - apply attempt_events_backend_posts.
  - rewrite backend_posts_app, attempt_events_backend_posts.
    change (backend_posts (Sleep (retry_delay cfg n) :: tr)) with (backend_posts tr).
    rewrite IH. reflexivity.
Qed.

(** With a subscriber that accepts every POST a delivery is one POST. *)
Lemma delivery_all_accepted url ev data secret w n tr b :
  (forall k r, accepted (webhook_endpoint E k r) = true) ->
  delivery cfg E url ev data secret w n tr b ->
  b = true /\
  tr = [WebhookPost (attempt_request E url ev data secret w)
                    (attempt_answer E url ev data secret w)].
Proof.
  intros Hacc D.
  destruct D as [w n _ | w n Href _ | w n tr b Href _ _].
  - split; reflexivity.
  - unfold attempt_answer in Href. rewrite Hacc in Href. discriminate.
  - unfold attempt_answer in Href. rewrite Hacc in Href. discriminate.
Qed.

(** A task whose backend call fails raises after that one call. *)
Lemma process_analysis_job_backend_failure jid fname content url opts key w :
  Forall Text.is_byte content ->
  backend_failure (backend E (backend_posts w) fname content) = true ->
  exists e w',
    process_analysis_job cfg E (JobData jid fname (Text.hex content) url opts key) w
    = (Raised e, w')
    /\ backend_posts w' = S (backend_posts w).
Proof.
  intros Hbytes Hfail.
  unfold process_analysis_job, analyse, backend_post.
  cbn [file_content filename job_id webhook_url].
  rewrite (fromhex_hex content Hbytes).
  set (a := backend E (backend_posts w) fname content) in *.
  set (w1 := w ++ [BackendPost (upload_url cfg) fname content a]).
  assert (Hw1 : backend_posts w1 = S (backend_posts w)).
  { unfold w1. rewrite backend_posts_app. cbn. lia. }
  assert (Hfinish : forall e,
             exists e' w',
               match truthy url with
               | Some u =>
                   match deliver_webhook cfg E u "analysis.failed"
                           (error_result jid e) None 0 w1 with
                   | (Ok _, w2) => (Raised e, w2)
                   | (Raised e', w2) => (Raised e', w2)
                   end
               | None => (@Raised Json.value e, w1)
               end = (Raised e', w')
               /\ backend_posts w' = S (backend_posts w)).
  { intros e. destruct (truthy url) as [u |]; [| exists e, w1; split; [reflexivity | exact Hw1]].
    destruct (deliver_webhook_delivery cfg E u "analysis.failed" (error_result jid e) None 0 w1)
      as (b & tr & Hrun & D).
    rewrite Hrun. exists e, (w1 ++ tr). split; [reflexivity |].
    rewrite backend_posts_app, (delivery_backend_posts _ _ _ _ _ _ _ _ D). lia. }
  destruct a as [code text json | e]; cbn in Hfail.
  - rewrite Hfail. apply Hfinish.
  - apply Hfinish.
Qed.

(** With nothing queued the loop only sleeps. *)
Lemma background_idle n st w :
  Queue._in_memory_queue st = [] ->
  Queue._process_queue_background cfg E n st w = (st, w ++ repeat (Sleep 1) n).
Proof.
  intros Hq. revert w. induction n as [| n IH]; intros w.
  - cbn. rewrite app_nil_r. reflexivity.
  - cbn [Queue._process_queue_background]. unfold Queue.process_queue_iteration, Queue.claim.
    rewrite Hq. rewrite IH. unfold asyncio_sleep. rewrite <- app_assoc. reflexivity.
Qed.

Lemma backend_posts_repeat_sleep n : backend_posts (repeat (Sleep 1) n) = 0%nat.
Proof. induction n as [| n IH]; [reflexivity | exact IH]. Qed.

End ProcessorFacts.

(** C7: on the in-memory queue a job whose analysis task raises is marked
    failed after that single execution: however long the background loop
    then runs, the backend has been called once, where the claim (and the
    BullMQ branch, which asks for three attempts with exponential backoff)
    has up to three executions before the job fails. *)
Theorem failed_task_is_not_retried
    (cfg : Settings) (E : env) (jid : string) (content : list Z) (fname : string)
    (url : option string) (opts : option Json.value) (key : option string) (n : nat) :
  Forall Text.is_byte content ->
  (forall k f c, backend_failure (backend E k f c) = true) ->
  let st0 := snd (Queue.add_analysis_job jid content fname url opts key Queue.initial) in
  let '(st, w) := Queue._process_queue_background cfg E (S n) st0 [] in
  backend_posts w = 1%nat /\ Queue.status_of st jid = Some Queue.Failed.
Proof.
  intros Hbytes Hfail st0. subst st0.
  cbn [Queue._process_queue_background Queue.add_analysis_job snd].
  unfold Queue.process_queue_iteration, Queue.claim.
  cbn [Queue._in_memory_queue Queue._in_memory_processing Queue.initial app].
  destruct (process_analysis_job_backend_failure cfg E jid fname content url
              (Queue.or_empty_dict opts) key [] Hbytes (Hfail _ _ _))
    as (e & w' & Hrun & Hposts).
  rewrite Hrun. cbn [job_id].
  rewrite background_idle by reflexivity.
  split.
  - unfold asyncio_sleep. rewrite !backend_posts_app, backend_posts_repeat_sleep, Hposts.
    reflexivity.
  - unfold Queue.finalize, Queue.status_of. cbn. rewrite lookup_insert_eq. reflexivity.
Qed.

Lemma failed_task_is_not_retried_witness :
  Forall Text.is_byte Scenario.pdf
  /\ (forall k f c, backend_failure (backend Scenario.refusing k f c) = true)
  /\ let st0 := snd (Queue.add_analysis_job "job_1" Scenario.pdf "a.pdf" None None None
                       Queue.initial) in
     let '(st, w) := Queue._process_queue_background settings Scenario.refusing 5 st0 [] in
     backend_posts w = 1%nat /\ Queue.status_of st "job_1" = Some Queue.Failed.
Proof.
  assert (Hbytes : Forall Text.is_byte Scenario.pdf)
    by (repeat constructor; unfold Text.is_byte; lia).
  split; [exact Hbytes |]. split; [intros k f c; reflexivity |].
  apply (failed_task_is_not_retried settings Scenario.refusing "job_1" Scenario.pdf "a.pdf"
           None None None 4 Hbytes).
  intros k f c. reflexivity.
Defined.

(** The trace of that run: one backend call, then only the one-second
    sleeps of the loop; no second attempt and no backoff of 2 or 4 seconds. *)
Example failed_task_trace :
  let st0 := snd (Queue.add_analysis_job "job_1" Scenario.pdf "a.pdf" None None None
                    Queue.initial) in
  let '(st, w) := Queue._process_queue_background settings Scenario.refusing 3 st0 [] in
  w = [BackendPost "http://localhost:3001/api/upload" "a.pdf" Scenario.pdf
         (Response 500 "boom" Scenario.no_json);
       Sleep 1; Sleep 1; Sleep 1]
  /\ Queue._in_memory_processing st !! "job_1"%string
     = Some [("status"%string, Json.Str "failed");
             ("error"%string, Json.Str "Backend API error: boom")].
Proof. vm_compute. split; reflexivity. Qed.

(** ** End to end: a job that completes *)

(** Whatever the task returned, the record of a completed job is only
    [{"status": "completed"}], and the status query answers without a
    result. *)
Lemma get_job_after_completion jid now later analysis st :
  get_job jid now later (Queue.finalize jid (Ok analysis) st)
  = Ok {| resp_job_id := jid;
          resp_status := "completed";
          resp_created_at := now;
          resp_completed_at := Some later;
          resp_result := None;
          resp_error := None |}.
Proof.
  unfold get_job, Queue.get_job_status, Queue.finalize.
  cbn [Queue._in_memory_processing]. rewrite lookup_insert_eq. reflexivity.
Qed.

(** C9: with a backend that returns a valid document and a subscriber that
    accepts, the job ends completed and the subscriber receives one POST,
    whose event is [analysis.completed]; but the status query returns no
    result, where the claim has a result carrying the document id: the loop
    drops what the task returned. *)
Theorem completed_job_reports_no_result
    (cfg : Settings) (E : env) (jid : string) (content : list Z) (fname url : string)
    (opts : option Json.value) (key : option string) (now later text : string)
    (body analysis : Json.value) :
  Forall Text.is_byte content ->
  url <> ""%string ->
  (forall k f c, backend E k f c = Response 200 text (Ok body)) ->
  format_result jid body = Ok analysis ->
  (forall k r, accepted (webhook_endpoint E k r) = true) ->
  let st0 := snd (Queue.add_analysis_job jid content fname (Some url) opts key
                    Queue.initial) in
  let '(st, w) := Queue.process_queue_iteration cfg E st0 [] in
  get_job jid now later st
  = Ok {| resp_job_id := jid;
          resp_status := "completed";
          resp_created_at := now;
          resp_completed_at := Some later;
          resp_result := None;
          resp_error := None |}
  /\ webhook_posts w = 1%nat
  /\ Forall (fun e => is_webhook_post e = true ->
                      posted_event e = Some (Json.Str "analysis.completed")) w.
Proof.
  intros Hbytes Hurl Hbackend Hformat Haccept st0. subst st0.
  unfold Queue.process_queue_iteration, Queue.claim.
  cbn [Queue.add_analysis_job snd Queue._in_memory_queue Queue._in_memory_processing
       Queue.initial app].
  unfold process_analysis_job, analyse, backend_post.
  cbn [file_content filename job_id webhook_url].
  rewrite (fromhex_hex content Hbytes), Hbackend. cbn [Z.eqb negb].
  change (negb (200 =? 200)) with false. cbn iota.
  rewrite Hformat.
  assert (Htruthy : truthy (Some url) = Some url) by (destruct url; [congruence | reflexivity]).
  rewrite Htruthy.
  match goal with
  | |- context [deliver_webhook cfg E url ?ev ?d None 0 ?w1] =>
      destruct (deliver_webhook_delivery cfg E url ev d None 0 w1) as (b & tr & Hrun & D);
      rewrite Hrun;
      destruct (delivery_all_accepted cfg E _ _ _ _ _ _ _ _ Haccept D) as [-> ->]
  end.
  split; [apply get_job_after_completion |].
  split; [reflexivity |].
  unfold asyncio_sleep. repeat constructor; cbn; discriminate.
Qed.

Lemma completed_job_reports_no_result_witness :
  Forall Text.is_byte Scenario.pdf
  /\ Scenario.hook <> ""%string
  /\ (forall k f c, backend Scenario.happy k f c = Response 200 "" (Ok Scenario.document))
  /\ (forall k r, accepted (webhook_endpoint Scenario.happy k r) = true)
  /\ let st0 := snd (Queue.add_analysis_job "job_1" Scenario.pdf "contract.pdf"
                       (Some Scenario.hook) None None Queue.initial) in
     let '(st, w) := Queue.process_queue_iteration settings Scenario.happy st0 [] in
     get_job "job_1" "t1" "t2" st
     = Ok {| resp_job_id := "job_1";
             resp_status := "completed";
             resp_created_at := "t1";
             resp_completed_at := Some "t2"%string;
             resp_result := None;
             resp_error := None |}
     /\ webhook_posts w = 1%nat
     /\ Forall (fun e => is_webhook_post e = true ->
                         posted_event e = Some (Json.Str "analysis.completed")) w.
Proof.
  assert (Hbytes : Forall Text.is_byte Scenario.pdf)
    by (repeat constructor; unfold Text.is_byte; lia).
  split; [exact Hbytes |]. split; [discriminate |].
  split; [intros k f c; reflexivity |]. split; [intros k r; reflexivity |].
  apply (completed_job_reports_no_result settings Scenario.happy "job_1" Scenario.pdf
           "contract.pdf" Scenario.hook None None "t1" "t2" "" Scenario.document
           Scenario.analysis Hbytes).
  - discriminate.
  - intros k f c. reflexivity.
  - reflexivity.
  - intros k r. reflexivity.
Defined.

(** The same run, evaluated: the document id reaches the subscriber inside
    the webhook payload, not the caller of the status query. *)
Example completed_job_trace :
  let st0 := snd (Queue.add_analysis_job "job_1" Scenario.pdf "contract.pdf"
                    (Some Scenario.hook) None None Queue.initial) in
  let '(st, w) := Queue.process_queue_iteration settings Scenario.happy st0 [] in
  Queue._in_memory_processing st !! "job_1"%string
  = Some [("status"%string, Json.Str "completed")]
  /\ option_map resp_result (match get_job "job_1" "t1" "t2" st with
                             | Ok r => Some r
                             | Raised _ => None
                             end) = Some None
  /\ webhook_posts w = 1%nat
  /\ backend_posts w = 1%nat.
Proof. vm_compute. repeat split; reflexivity. Qed.

(** * Further properties *)

(** ** Webhook delivery: bounds, order of answers, what each POST carries *)

Section DeliveryMore.

Context (cfg : Settings) (E : env).

Lemma post_answers_app (w1 w2 : world) :
  post_answers (w1 ++ w2) = post_answers w1 ++ post_answers w2.
Proof.
  induction w1 as [| e w1 IH]; [reflexivity |].
  destruct e; cbn; rewrite IH; reflexivity.
Qed.

Lemma posted_requests_app (w1 w2 : world) :
  posted_requests (w1 ++ w2) = posted_requests w1 ++ posted_requests w2.
Proof.
  induction w1 as [| e w1 IH]; [reflexivity |].
  destruct e; cbn; rewrite IH; reflexivity.
Qed.

Lemma attempt_events_answers url ev data secret w :
  post_answers (attempt_events E url ev data secret w)
  = [attempt_answer E url ev data secret w].
Proof.
  unfold attempt_events, complaint.
  destruct (attempt_answer E url ev data secret w); reflexivity.
Qed.

Lemma attempt_events_requests url ev data secret w :
  posted_requests (attempt_events E url ev data secret w)
  = [attempt_request E url ev data secret w].
Proof.
  unfold attempt_events, complaint.
  destruct (attempt_answer E url ev data secret w); reflexivity.
Qed.

Lemma delivery_posts_bound url ev data secret w n tr b :
  delivery cfg E url ev data secret w n tr b ->
  Z.of_nat (webhook_posts tr) <= Z.max 0 (WEBHOOK_MAX_RETRIES cfg - n) + 1.
Proof.
  induction 1 as [w n Hacc | w n Hacc Hn | w n tr b Hacc Hn D IH].
  - cbn. lia.
  - rewrite attempt_events_posts. lia.
  - rewrite webhook_posts_app, attempt_events_posts.
    change (webhook_posts (Sleep (retry_delay cfg n) :: tr)) with (webhook_posts tr).
    lia.
Qed.

Lemma delivery_answers url ev data secret w n tr b :
  delivery cfg E url ev data secret w n tr b ->
  exists earlier last,
    post_answers tr = earlier ++ [last]
    /\ Forall (fun a => accepted a = false) earlier
    /\ b = accepted last.
Proof.
  induction 1 as [w n Hacc | w n Hacc Hn | w n tr b Hacc Hn D IH].
  - exists [], (attempt_answer E url ev data secret w).
    split; [reflexivity |]. split; [constructor | symmetry; exact Hacc].
  - exists [], (attempt_answer E url ev data secret w).
    rewrite attempt_events_answers.
    split; [reflexivity |]. split; [constructor | symmetry; exact Hacc].
  - destruct IH as (earlier & last & Hans & Hearlier & Hb).
    exists (attempt_answer E url ev data secret w :: earlier), last.
    rewrite post_answers_app, attempt_events_answers.
    change (post_answers (Sleep (retry_delay cfg n) :: tr)) with (post_answers tr).
    rewrite Hans. split; [reflexivity |].
    split; [constructor; assumption | exact Hb].
Qed.

Lemma webhook_request_well_formed url ev data secret ts :
  well_formed_request url ev data secret (webhook_request url ev data secret ts).
Proof.
  unfold well_formed_request, webhook_request, webhook_headers.
  cbn [req_url req_json req_headers].
  split; [reflexivity |]. split; [exists ts; reflexivity |].
  destruct (truthy secret) as [s |].
  - split; [reflexivity |]. split; [reflexivity |].
    exists (generate_signature (webhook_payload ev data ts) s).
    split; [reflexivity |].
    unfold verify_signature, HMAC.compare_digest. apply String.eqb_refl.
  - split; [reflexivity |]. split; reflexivity.
Qed.

Lemma delivery_requests url ev data secret w n tr b :
  delivery cfg E url ev data secret w n tr b ->
  Forall (well_formed_request url ev data secret) (posted_requests tr).
Proof.
  induction 1 as [w n Hacc | w n Hacc Hn | w n tr b Hacc Hn D IH].
  - constructor; [apply webhook_request_well_formed | constructor].
  - rewrite attempt_events_requests.
    constructor; [apply webhook_request_well_formed | constructor].
  - rewrite posted_requests_app, attempt_events_requests.
    constructor; [apply webhook_request_well_formed | exact IH].
Qed.

End DeliveryMore.

(** On JSON data, whatever the subscriber answers, a delivery makes at least
    one POST and at most [max(0, WEBHOOK_MAX_RETRIES - retry_count) + 1]. *)
Lemma deliver_webhook_posts_bounded (cfg : Settings) (E : env)
    url ev data secret retry_count w :
  exists b tr,
    deliver_webhook cfg E url ev data secret retry_count w = (Ok b, w ++ tr)
    /\ (1 <= webhook_posts tr)%nat
    /\ Z.of_nat (webhook_posts tr)
       <= Z.max 0 (WEBHOOK_MAX_RETRIES cfg - retry_count) + 1.
Proof.
  destruct (deliver_webhook_delivery cfg E url ev data secret retry_count w)
    as (b & tr & Hrun & D).
  exists b, tr. split; [exact Hrun |]. split.
  - exact (delivery_posts_positive cfg E _ _ _ _ _ _ _ _ D).
  - exact (delivery_posts_bound cfg E _ _ _ _ _ _ _ _ D).
Qed.

(** X2: a delivery stops at the first accepted POST: every answer but the
    last is a refusal, and the value returned says whether the last answer
    was an acceptance. *)
Theorem deliver_webhook_stops_at_first_success (cfg : Settings) (E : env)
    url ev data secret retry_count w :
  exists b tr earlier last,
    deliver_webhook cfg E url ev data secret retry_count w = (Ok b, w ++ tr)
    /\ post_answers tr = earlier ++ [last]
    /\ Forall (fun a => accepted a = false) earlier
    /\ b = accepted last.
Proof.
  destruct (deliver_webhook_delivery cfg E url ev data secret retry_count w)
    as (b & tr & Hrun & D).
  destruct (delivery_answers cfg E _ _ _ _ _ _ _ _ D) as (earlier & last & H).
  exists b, tr, earlier, last. split; [exact Hrun | exact H].
Qed.

(** X3: every POST of a delivery, first attempt or retry, goes to the given
    URL with the same event and data, names the event in [X-Aegis-Event],
    and carries a [sha256=] signature that [verify_signature] accepts for
    the posted JSON when a non-empty secret was given, and no signature
    header when the secret is [None] or empty. *)
Theorem deliver_webhook_requests_well_formed (cfg : Settings) (E : env)
    url ev data secret retry_count w :
  exists b tr,
    deliver_webhook cfg E url ev data secret retry_count w = (Ok b, w ++ tr)
    /\ Forall (well_formed_request url ev data secret) (posted_requests tr).
Proof.
  destruct (deliver_webhook_delivery cfg E url ev data secret retry_count w)
    as (b & tr & Hrun & D).
  exists b, tr. split; [exact Hrun |].
  exact (delivery_requests cfg E _ _ _ _ _ _ _ _ D).
Qed.

(** ** Signatures: format, key padding, independence of the insertion order *)




Lemma fold_compress_length bl h :
  length h = 8%nat -> length (fold_left SHA256.compress bl h) = 8%nat.
Proof.
  revert h. induction bl as [| b bl IH]; intros h Hh; [exact Hh |].
  cbn [fold_left]. apply IH. reflexivity.
Qed.

Lemma digest_length msg : length (SHA256.digest msg) = 32%nat.
Proof.
  unfold SHA256.digest.
  rewrite (flat_map_constant_length (c := 4)) by (intros; reflexivity).
  rewrite fold_compress_length by reflexivity. reflexivity.
Qed.


(** X5: HMAC pads short keys with zero bytes, so a secret of fewer than 64
    bytes and the same secret followed by a NUL character produce the same
    signature, and each verifies what the other signed. *)
Theorem trailing_nul_secret_signs_alike (payload : Json.value) (secret : string) :
  (length (Text.encode secret) < 64)%nat ->
  generate_signature payload (secret +:+ Scenario.secret_nul)
  = generate_signature payload secret
  /\ verify_signature payload (generate_signature payload secret)
       (secret +:+ Scenario.secret_nul) = true.
Proof.
  intros Hlen.
  pose proof (signature_ignores_trailing_nul payload secret Hlen) as Heq.
  split; [exact Heq |].
  unfold verify_signature, HMAC.compare_digest. rewrite Heq. apply String.eqb_refl.
Qed.

Lemma trailing_nul_secret_signs_alike_witness :
  (length (Text.encode "whsec_0123456789") < 64)%nat
  /\ generate_signature Scenario.envelope ("whsec_0123456789" +:+ Scenario.secret_nul)
     = generate_signature Scenario.envelope "whsec_0123456789"
  /\ verify_signature Scenario.envelope
       (generate_signature Scenario.envelope "whsec_0123456789")
       ("whsec_0123456789" +:+ Scenario.secret_nul) = true.
Proof.
  assert (Hlen : (length (Text.encode "whsec_0123456789") < 64)%nat)
    by (apply Nat.ltb_lt; vm_compute; reflexivity).
  split; [exact Hlen |].
  exact (trailing_nul_secret_signs_alike Scenario.envelope "whsec_0123456789" Hlen).
Defined.

(** *** The order on keys *)

Lemma ascii_compare_refl a : Ascii.compare a a = Eq.
Proof. unfold Ascii.compare. apply N.compare_refl. Qed.

Lemma ascii_compare_lt_trans a b c :
  Ascii.compare a b = Lt -> Ascii.compare b c = Lt -> Ascii.compare a c = Lt.
Proof. unfold Ascii.compare. rewrite !N.compare_lt_iff. lia. Qed.

Lemma string_compare_lt_trans s1 s2 s3 :
  String.compare s1 s2 = Lt -> String.compare s2 s3 = Lt -> String.compare s1 s3 = Lt.
Proof.
  revert s2 s3. induction s1 as [| a s1 IH]; intros [| b s2] [| c s3]; cbn;
    try discriminate; try reflexivity.
  destruct (Ascii.compare a b) eqn:Hab; try discriminate.
  - apply Ascii.compare_eq_iff in Hab. subst b.
    destruct (Ascii.compare a c); [apply IH | reflexivity | discriminate].
  - intros _. destruct (Ascii.compare b c) eqn:Hbc; try discriminate.
    + apply Ascii.compare_eq_iff in Hbc. subst c. rewrite Hab. reflexivity.
    + intros _. rewrite (ascii_compare_lt_trans a b c Hab Hbc). reflexivity.
Qed.

Lemma ltb_trans s1 s2 s3 :
  String.ltb s1 s2 = true -> String.ltb s2 s3 = true -> String.ltb s1 s3 = true.
Proof.
  unfold String.ltb. intros H12 H23.
  destruct (String.compare s1 s2) eqn:E12; try discriminate.
  destruct (String.compare s2 s3) eqn:E23; try discriminate.
  rewrite (string_compare_lt_trans s1 s2 s3 E12 E23). reflexivity.
Qed.

Lemma ltb_asym s1 s2 : String.ltb s1 s2 = true -> String.ltb s2 s1 = false.
Proof.
  unfold String.ltb. rewrite (String.compare_antisym s1 s2).
  destruct (String.compare s2 s1); cbn; congruence.
Qed.

Lemma ltb_connected s1 s2 :
  s1 <> s2 -> String.ltb s1 s2 = false -> String.ltb s2 s1 = true.
Proof.
  unfold String.ltb. intros Hne. rewrite (String.compare_antisym s2 s1).
  destruct (String.compare s1 s2) eqn:E; cbn; try congruence.
  apply String.compare_eq_iff in E. contradiction.
Qed.

Lemma insert_item_perm kv l : Json.insert_item kv l ≡ₚ kv :: l.
Proof.
  induction l as [| kv' l IH]; [reflexivity |].
  cbn [Json.insert_item]. destruct (String.ltb (fst kv) (fst kv')); [reflexivity |].
  rewrite IH. apply Permutation_swap.
Qed.

Lemma insert_item_sorted kv l :
  StronglySorted key_lt l ->
  Forall (fun x => fst x <> fst kv) l ->
  StronglySorted key_lt (Json.insert_item kv l).
Proof.
  induction 1 as [| kv' l Hsorted IH Hall]; intros Hne.
  - repeat constructor.
  - apply Forall_cons in Hne. destruct Hne as [Hne' Hne].
    cbn [Json.insert_item]. destruct (String.ltb (fst kv) (fst kv')) eqn:Hlt.
    + constructor; [constructor; assumption |].
      constructor; [exact Hlt |].
      eapply Forall_impl; [exact Hall |]. cbn. intros x Hx.
      exact (ltb_trans _ _ _ Hlt Hx).
    + constructor; [apply IH; exact Hne |].
      rewrite insert_item_perm. constructor; [| exact Hall].
      apply ltb_connected; [intros Heq; apply Hne'; symmetry; exact Heq | exact Hlt].
Qed.

Lemma fold_insert_perm l acc :
  fold_left (fun acc kv => Json.insert_item kv acc) l acc ≡ₚ acc ++ l.
Proof.
  revert acc. induction l as [| kv l IH]; intros acc; cbn [fold_left].
  - rewrite app_nil_r. reflexivity.
  - rewrite IH, insert_item_perm. rewrite <- Permutation_middle. reflexivity.
Qed.

Lemma fold_insert_sorted l acc :
  StronglySorted key_lt acc ->
  NoDup ((acc ++ l).*1) ->
  StronglySorted key_lt (fold_left (fun acc kv => Json.insert_item kv acc) l acc).
Proof.
  revert acc. induction l as [| kv l IH]; intros acc Hsorted Hnd; cbn [fold_left];
    [exact Hsorted |].
  assert (Hperm : (Json.insert_item kv acc ++ l) ≡ₚ acc ++ kv :: l).
  { rewrite insert_item_perm. cbn. apply Permutation_middle. }
  apply IH.
  - apply insert_item_sorted; [exact Hsorted |].
    rewrite fmap_app, fmap_cons in Hnd. apply NoDup_app in Hnd.
    destruct Hnd as (_ & Hdisj & _).
    apply Forall_forall. intros x Hx Heq.
    apply (Hdisj (fst x)).
    + apply list_elem_of_fmap_2. exact Hx.
    + rewrite Heq. apply elem_of_cons. left. reflexivity.
  - rewrite Hperm. exact Hnd.
Qed.

(** With distinct keys the order [sort_items] produces depends on the items
    only, not on the order they come in. *)
Lemma sort_items_permutation l1 l2 :
  NoDup (l1.*1) -> l1 ≡ₚ l2 -> Json.sort_items l1 = Json.sort_items l2.
Proof.
  intros Hnd Hperm. unfold Json.sort_items.
  apply (StronglySorted_unique_strong key_lt).
  - intros x1 x2 _ _ H12 H21. unfold key_lt in *.
    rewrite (ltb_asym _ _ H12) in H21. discriminate.
  - apply fold_insert_sorted; [constructor | exact Hnd].
  - apply fold_insert_sorted; [constructor |]. cbn. rewrite <- Hperm. exact Hnd.
  - rewrite !fold_insert_perm. cbn. exact Hperm.
Qed.

(** X6: the signature does not depend on the insertion order of the
    payload's keys: two payload dicts with the same items (and, as every
    dict, distinct keys) in any two orders serialise to the same canonical
    text and get the same signature. *)
Theorem signature_ignores_key_order
    (items1 items2 : list (string * Json.value)) (secret : string) :
  NoDup (items1.*1) ->
  items1 ≡ₚ items2 ->
  canonical_json (Json.Dict items1) = canonical_json (Json.Dict items2)
  /\ generate_signature (Json.Dict items1) secret
     = generate_signature (Json.Dict items2) secret.
Proof.
  intros Hnd Hperm.
  assert (Hcanon : canonical_json (Json.Dict items1) = canonical_json (Json.Dict items2)).
  { unfold canonical_json. cbn [Json.dumps Json.sort_keys].
    set (render := fun kv : string * Json.value =>
                     (fst kv, Json.dumps (Json.Options true true ", " ": ") (snd kv))).
    rewrite (sort_items_permutation (List.map render items1) (List.map render items2)).
    - reflexivity.
    - change (List.map render items1) with (render <$> items1).
      rewrite <- list_fmap_compose.
      change (fst ∘ render) with (@fst string Json.value). exact Hnd.
    - change (List.map render items1) with (render <$> items1).
      change (List.map render items2) with (render <$> items2).
      rewrite Hperm. reflexivity. }
  split; [exact Hcanon |].
  unfold generate_signature. rewrite Hcanon. reflexivity.
Qed.

Lemma signature_ignores_key_order_witness :
  let items1 := [("event"%string, Json.Str "analysis.completed");
                 ("data"%string, Scenario.data);
                 ("timestamp"%string, Json.Str "t")] in
  let items2 := [("timestamp"%string, Json.Str "t");
                 ("event"%string, Json.Str "analysis.completed");
                 ("data"%string, Scenario.data)] in
  NoDup (items1.*1)
  /\ items1 ≡ₚ items2
  /\ canonical_json (Json.Dict items1) = canonical_json (Json.Dict items2)
  /\ generate_signature (Json.Dict items1) Scenario.secret
     = generate_signature (Json.Dict items2) Scenario.secret.
Proof.
  cbv zeta.
  assert (Hnd : NoDup ([("event"%string, Json.Str "analysis.completed");
                        ("data"%string, Scenario.data);
                        ("timestamp"%string, Json.Str "t")].*1)).
  { cbn. repeat (constructor; [rewrite ?elem_of_cons, ?elem_of_nil; intuition discriminate |]).
    constructor. }
  assert (Hperm : [("event"%string, Json.Str "analysis.completed");
                   ("data"%string, Scenario.data);
                   ("timestamp"%string, Json.Str "t")]
                  ≡ₚ [("timestamp"%string, Json.Str "t");
                      ("event"%string, Json.Str "analysis.completed");
                      ("data"%string, Scenario.data)]).
  { symmetry. etransitivity; [apply Permutation_swap |].
    apply Permutation_skip. apply Permutation_swap. }
  split; [exact Hnd |]. split; [exact Hperm |].
  exact (signature_ignores_key_order _ _ Scenario.secret Hnd Hperm).
Defined.

(** ** The analysis task *)

Section TaskMore.

Context (cfg : Settings) (E : env).

Lemma uploads_app (w1 w2 : world) : uploads (w1 ++ w2) = uploads w1 ++ uploads w2.
Proof.
  induction w1 as [| e w1 IH]; [reflexivity |].
  destruct e; cbn; rewrite IH; reflexivity.
Qed.

Lemma attempt_events_uploads url ev data secret w :
  uploads (attempt_events E url ev data secret w) = [].
Proof.
  unfold attempt_events, complaint.
  destruct (attempt_answer E url ev data secret w); reflexivity.
Qed.

Lemma delivery_uploads url ev data secret w n tr b :
  delivery cfg E url ev data secret w n tr b -> uploads tr = [].
Proof.
  induction 1 as [w n Hacc | w n Hacc Hn | w n tr b Hacc Hn D IH].
  - reflexivity.
  - apply attempt_events_uploads.
  - rewrite uploads_app, attempt_events_uploads. exact IH.
Qed.

(** The whole of [process_analysis_job]: one upload, the outcome read off
    the backend's answer, and the delivery that announces it when a webhook
    URL was given. *)
Lemma process_analysis_job_trace job content w :
  fromhex (file_content job) = Some content ->
  let a := backend E (backend_posts w) (filename job) content in
  let w1 := w ++ [BackendPost (upload_url cfg) (filename job) content a] in
  let outcome := task_outcome (job_id job) a in
  exists tr,
    process_analysis_job cfg E job w = (outcome, w1 ++ tr)
    /\ match truthy (webhook_url job) with
       | Some u =>
           exists b,
             delivery cfg E u (fst (notification (job_id job) outcome))
               (snd (notification (job_id job) outcome)) None w1 0 tr b
       | None => tr = []
       end.
Proof.
  intros Hhex a w1 outcome.
  unfold process_analysis_job, analyse, backend_post. rewrite Hhex.
  fold a. fold w1. subst outcome. unfold task_outcome.
  assert (Hfail : forall e,
    exists tr,
      match truthy (webhook_url job) with
      | Some url =>
          match deliver_webhook cfg E url "analysis.failed"
                  (error_result (job_id job) e) None 0 w1 with
          | (Ok _, w2) => (Raised e, w2)
          | (Raised e', w2) => (Raised e', w2)
          end
      | None => (@Raised Json.value e, w1)
      end = (Raised e, w1 ++ tr)
      /\ match truthy (webhook_url job) with
         | Some u =>
             exists b, delivery cfg E u "analysis.failed"
                         (error_result (job_id job) e) None w1 0 tr b
         | None => tr = []
         end).
  { intros e. destruct (truthy (webhook_url job)) as [u |].
    - destruct (deliver_webhook_delivery cfg E u "analysis.failed"
                  (error_result (job_id job) e) None 0 w1) as (b & tr & Hrun & D).
      rewrite Hrun. exists tr. split; [reflexivity | exists b; exact D].
    - exists []. rewrite app_nil_r. split; reflexivity. }
  destruct a as [code text json | e]; [| apply Hfail].
  destruct (negb (code =? 200)); [apply Hfail |].
  destruct json as [body | e]; cbn [mbind result_bind]; [| apply Hfail].
  destruct (format_result (job_id job) body) as [analysis | e]; [| apply Hfail].
  cbn [notification fst snd].
  destruct (truthy (webhook_url job)) as [u |].
  - destruct (deliver_webhook_delivery cfg E u "analysis.completed" analysis None 0 w1)
      as (b & tr & Hrun & D).
    rewrite Hrun. exists tr. split; [reflexivity | exists b; exact D].
  - exists []. rewrite app_nil_r. split; reflexivity.
Qed.

End TaskMore.

(** X7: a task first decodes the job's hexadecimal text as [bytes.fromhex]
    does; on a text that is refused it raises the [ValueError] that names
    the offending position, and does nothing else.  Otherwise it uploads the
    bytes to the backend exactly once, at [BACKEND_API_URL/api/upload] and
    under the job's file name; what it returns or raises is decided by the
    backend's answer alone; and when a webhook URL was given, every webhook
    POST it makes is a well-formed, unsigned request for the event that
    matches the outcome ([analysis.completed] with the result,
    [analysis.failed] with the error), at least one and at most
    [WEBHOOK_MAX_RETRIES + 1] of them; without a URL it does nothing else. *)
Theorem process_analysis_job_behaviour (cfg : Settings) (E : env)
    (job : job_data) (w : world) :
  match fromhex (file_content job) with
  | None =>
      process_analysis_job cfg E job w = (Raised (fromhex_error (file_content job)), w)
  | Some content =>
      let a := backend E (backend_posts w) (filename job) content in
      let outcome := task_outcome (job_id job) a in
      exists tr,
        process_analysis_job cfg E job w
        = (outcome, w ++ BackendPost (upload_url cfg) (filename job) content a :: tr)
        /\ uploads tr = []
        /\ match truthy (webhook_url job) with
           | Some u =>
               Forall (well_formed_request u (fst (notification (job_id job) outcome))
                         (snd (notification (job_id job) outcome)) None)
                      (posted_requests tr)
               /\ (1 <= webhook_posts tr)%nat
               /\ Z.of_nat (webhook_posts tr) <= Z.max 0 (WEBHOOK_MAX_RETRIES cfg) + 1
           | None => tr = []
           end
  end.
Proof.
  destruct (fromhex (file_content job)) as [content |] eqn:Hhex.
  - intros a outcome.
    destruct (process_analysis_job_trace cfg E job content w Hhex) as (tr & Hrun & Htr).
    fold a in Hrun, Htr. fold outcome in Hrun, Htr.
    exists tr. rewrite Hrun, <- app_assoc. split; [reflexivity |].
    destruct (truthy (webhook_url job)) as [u |].
    + destruct Htr as (b & D). split; [exact (delivery_uploads cfg E _ _ _ _ _ _ _ _ D) |].
      split; [exact (delivery_requests cfg E _ _ _ _ _ _ _ _ D) |].
      split; [exact (delivery_posts_positive cfg E _ _ _ _ _ _ _ _ D) |].
      pose proof (delivery_posts_bound cfg E _ _ _ _ _ _ _ _ D) as Hb.
      rewrite Z.sub_0_r in Hb. exact Hb.
    + subst tr. split; reflexivity.
  - unfold process_analysis_job. rewrite Hhex. reflexivity.
Qed.

(** The hexadecimal text may carry whitespace between bytes: the same four
    bytes are uploaded.  A text that ends inside a byte is refused, and the
    backend is not called. *)
Example spaced_hex_is_uploaded :
  let job := JobData "job_1" "contract.pdf" ("25 50" +:+ Json.char 9 +:+ "44 46 ") None (Json.Dict []) None in
  uploads (snd (process_analysis_job settings Scenario.happy job []))
  = [(upload_url settings, "contract.pdf"%string, Scenario.pdf)].
Proof. vm_compute. reflexivity. Qed.

Example odd_hex_is_refused :
  let job := JobData "job_1" "contract.pdf" "25 5" None (Json.Dict []) None in
  process_analysis_job settings Scenario.happy job []
  = (Raised (Exception "non-hexadecimal number found in fromhex() arg at position 4"), []).
Proof. vm_compute. reflexivity. Qed.

(** X8: the subscriber cannot change the outcome of a task: with the same
    backend and the same job, two runs against any two subscribers (and
    clocks) return or raise the same thing. *)
Theorem task_outcome_ignores_subscriber (cfg : Settings) (E1 E2 : env)
    (job : job_data) (w1 w2 : world) :
  (forall k f c, backend E1 k f c = backend E2 k f c) ->
  backend_posts w1 = backend_posts w2 ->
  fst (process_analysis_job cfg E1 job w1) = fst (process_analysis_job cfg E2 job w2).
Proof.
  intros Hsame Hposts.
  destruct (fromhex (file_content job)) as [content |] eqn:Hhex.
  - destruct (process_analysis_job_trace cfg E1 job content w1 Hhex) as (tr1 & -> & _).
    destruct (process_analysis_job_trace cfg E2 job content w2 Hhex) as (tr2 & -> & _).
    cbn [fst]. rewrite Hsame, Hposts. reflexivity.
  - unfold process_analysis_job. rewrite Hhex. reflexivity.
Qed.

Lemma task_outcome_ignores_subscriber_witness :
  let job := JobData "job_1" "contract.pdf" (Text.hex Scenario.pdf)
               (Some Scenario.hook) (Json.Dict []) None in
  let deaf := Env Scenario.clock (fun _ _ => TransportError (Exception "refused"))
                (backend Scenario.happy) in
  (forall k f c, backend Scenario.happy k f c = backend deaf k f c)
  /\ backend_posts [] = backend_posts [Sleep 1]
  /\ fst (process_analysis_job settings Scenario.happy job [])
     = fst (process_analysis_job settings deaf job [Sleep 1]).
Proof.
  cbv zeta. split; [intros k f c; reflexivity |]. split; [reflexivity |].
  apply task_outcome_ignores_subscriber; [intros k f c; reflexivity | reflexivity].
Defined.

(** ** The backend's document *)

Lemma getitem_ok obj key v :
  getitem obj key = Ok v <-> exists items, obj = Json.Dict items /\ Json.lookup key items = Some v.
Proof.
  unfold getitem. split.
  - destruct obj as [| | | | | items]; try discriminate.
    destruct (Json.lookup key items) as [v' |] eqn:Hl; [| discriminate].
    intros [= ->]. exists items. split; [reflexivity | exact Hl].
  - intros (items & -> & ->). reflexivity.
Qed.

(** X9: [format_result] succeeds exactly on a JSON object whose [document]
    is an object with the five fields [id], [filename], [riskLevel],
    [numPages] and [numChunks]; any other body makes the task raise. *)
Theorem format_result_requires_fields (jid : string) (body : Json.value) :
  (exists analysis, format_result jid body = Ok analysis)
  <-> exists items doc,
        body = Json.Dict items
        /\ Json.lookup "document" items = Some (Json.Dict doc)
        /\ Forall (fun key => is_Some (Json.lookup key doc)) required_fields.
Proof.
  unfold format_result. split.
  - intros (analysis & H).
    destruct (getitem body "document") as [document |] eqn:Hdoc; [| discriminate H].
    cbn [mbind result_bind] in H.
    destruct (getitem document "id") as [v1 |] eqn:H1; [| discriminate H].
    cbn [mbind result_bind] in H.
    destruct (getitem document "filename") as [v2 |] eqn:H2; [| discriminate H].
    cbn [mbind result_bind] in H.
    destruct (getitem document "riskLevel") as [v3 |] eqn:H3; [| discriminate H].
    cbn [mbind result_bind] in H.
    destruct (getitem document "numPages") as [v4 |] eqn:H4; [| discriminate H].
    cbn [mbind result_bind] in H.
    destruct (getitem document "numChunks") as [v5 |] eqn:H5; [| discriminate H].
    apply getitem_ok in Hdoc. destruct Hdoc as (items & -> & Hdoc).
    apply getitem_ok in H1. destruct H1 as (doc & -> & H1).
    apply getitem_ok in H2, H3, H4, H5.
    destruct H2 as (? & [= <-] & H2). destruct H3 as (? & [= <-] & H3).
    destruct H4 as (? & [= <-] & H4). destruct H5 as (? & [= <-] & H5).
    exists items, doc. split; [reflexivity |]. split; [exact Hdoc |].
    unfold required_fields. repeat (constructor; [eexists; eassumption |]). constructor.
  - intros (items & doc & -> & Hdoc & Hreq).
    unfold required_fields in Hreq.
    repeat match goal with
           | H : Forall _ (_ :: _) |- _ => apply Forall_cons in H; destruct H as [[? ?] H]
           end.
    unfold getitem. rewrite Hdoc. cbn [mbind result_bind].
    repeat match goal with
           | H : Json.lookup _ doc = Some _ |- _ => rewrite H; clear H
           end.
    cbn [mbind result_bind]. eexists. reflexivity.
Qed.

(** ** The background loop over a whole queue *)

Section LoopMore.

Context (cfg : Settings) (E : env).

Lemma iteration_head d q m w :
  Queue.process_queue_iteration cfg E (Queue.State (d :: q) m) w
  = (Queue.finalize (job_id d) (fst (process_analysis_job cfg E d w))
       (Queue.State q (<[job_id d := Queue.status_entry "processing"]> m)),
     asyncio_sleep 1 (snd (process_analysis_job cfg E d w))).
Proof.
  unfold Queue.process_queue_iteration, Queue.claim. cbn.
  destruct (process_analysis_job cfg E d w). reflexivity.
Qed.

Lemma finalize_terminal jid r st :
  Queue.terminal (Queue.status_of (Queue.finalize jid r st) jid).
Proof.
  unfold Queue.finalize, Queue.status_of, Queue.terminal. cbn.
  rewrite lookup_insert_eq. destruct r; cbn; [left | right]; reflexivity.
Qed.

Lemma iteration_status_other d q m w jid :
  job_id d <> jid ->
  Queue.status_of
    (Queue.finalize (job_id d) (fst (process_analysis_job cfg E d w))
       (Queue.State q (<[job_id d := Queue.status_entry "processing"]> m))) jid
  = Queue.status_of (Queue.State (d :: q) m) jid.
Proof.
  intros Hne. unfold Queue.finalize, Queue.status_of. cbn.
  rewrite !lookup_insert_ne by exact Hne. reflexivity.
Qed.

Lemma background_drains q :
  forall m w k jid,
    let st' := fst (Queue._process_queue_background cfg E (length q + k)
                      (Queue.State q m) w) in
    Queue._in_memory_queue st' = []
    /\ (jid ∈ job_id <$> q \/ Queue.terminal (Queue.status_of (Queue.State q m) jid) ->
        Queue.terminal (Queue.status_of st' jid)).
Proof.
  induction q as [| d q IH]; intros m w k jid st'; subst st'.
  - cbn [length Nat.add]. rewrite background_idle by reflexivity.
    split; [reflexivity |]. intros [Hin | Ht]; [inversion Hin | exact Ht].
  - cbn [length Nat.add Queue._process_queue_background].
    rewrite iteration_head.
    set (w1 := asyncio_sleep 1 (snd (process_analysis_job cfg E d w))).
    pose proof (finalize_terminal (job_id d) (fst (process_analysis_job cfg E d w))
                  (Queue.State q (<[job_id d := Queue.status_entry "processing"]> m)))
      as Hdone.
    pose proof (iteration_status_other d q m w jid) as Hother.
    destruct (Queue.finalize (job_id d) (fst (process_analysis_job cfg E d w))
                (Queue.State q (<[job_id d := Queue.status_entry "processing"]> m)))
      as [q1 m1] eqn:Est1.
    pose proof (f_equal Queue._in_memory_queue Est1) as Hq1.
    unfold Queue.finalize in Hq1. cbn [Queue._in_memory_queue] in Hq1. subst q1.
    destruct (IH m1 w1 k jid) as [Hq Hterm].
    split; [exact Hq |].
    intros Hcase. apply Hterm.
    destruct (decide (job_id d = jid)) as [<- | Hne].
    + right. exact Hdone.
    + destruct Hcase as [Hin | Ht].
      * left. rewrite fmap_cons in Hin. apply elem_of_cons in Hin.
        destruct Hin as [-> | Hin]; [contradiction | exact Hin].
      * right. rewrite (Hother Hne). exact Ht.
Qed.

Lemma uploads_repeat_sleep n : uploads (repeat (Sleep 1) n) = [].
Proof. induction n as [| n IH]; [reflexivity | exact IH]. Qed.

Lemma background_uploads q :
  forall m w k,
    Forall (fun d => is_Some (fromhex (file_content d))) q ->
    uploads (snd (Queue._process_queue_background cfg E (length q + k) (Queue.State q m) w))
    = uploads w
      ++ List.map (fun d => (upload_url cfg, filename d,
                             default [] (fromhex (file_content d)))) q.
Proof.
  induction q as [| d q IH]; intros m w k Hhex.
  - cbn [length Nat.add List.map]. rewrite background_idle by reflexivity.
    cbn [snd]. rewrite uploads_app, uploads_repeat_sleep, !app_nil_r. reflexivity.
  - apply Forall_cons in Hhex. destruct Hhex as [[content Hd] Hhex].
    cbn [length Nat.add Queue._process_queue_background List.map].
    rewrite iteration_head. unfold Queue.finalize.
    cbn [Queue._in_memory_queue Queue._in_memory_processing].
    rewrite IH by exact Hhex.
    destruct (process_analysis_job_trace cfg E d content w Hd) as (tr & Hrun & Htr).
    rewrite Hrun. cbn [snd]. unfold asyncio_sleep.
    rewrite !uploads_app. cbn [uploads app]. rewrite Hd. cbn [default].
    assert (Hnone : uploads tr = []).
    { destruct (truthy (webhook_url d)) as [u |].
      - destruct Htr as (b & D). exact (delivery_uploads cfg E _ _ _ _ _ _ _ _ D).
      - subst tr. reflexivity. }
    rewrite Hnone, !app_nil_r, <- app_assoc. reflexivity.
Qed.

End LoopMore.

Lemma submit_all_state subs q m :
  submit_all subs (Queue.State q m)
  = Queue.State (q ++ List.map queued_job subs)
      (fold_left (fun m s => <[sub_id s := Queue.status_entry "pending"]> m) subs m).
Proof.
  revert q m. induction subs as [| s subs IH]; intros q m.
  - cbn. rewrite app_nil_r. reflexivity.
  - cbn [submit_all fold_left List.map]. unfold submit at 2, Queue.add_analysis_job.
    cbn [snd Queue._in_memory_queue Queue._in_memory_processing].
    fold (submit_all subs). rewrite IH, <- app_assoc. reflexivity.
Qed.

(** X10: the queue is first in, first out: after as many loop iterations as
    there were submissions (or more), the backend has received exactly one
    upload per submission, in the order of submission, each with the
    submitted file name and bytes. *)
Theorem uploads_follow_submission_order (cfg : Settings) (E : env)
    (subs : list submission) (k : nat) :
  Forall (fun s => Forall Text.is_byte (sub_content s)) subs ->
  uploads (snd (Queue._process_queue_background cfg E (length subs + k)
                  (submit_all subs Queue.initial) []))
  = List.map (fun s => (upload_url cfg, sub_filename s, sub_content s)) subs.
Proof.
  intros Hbytes. unfold Queue.initial. rewrite submit_all_state. cbn [app].
  replace (length subs) with (length (List.map queued_job subs))
    by apply length_map.
  rewrite background_uploads.
  - cbn [uploads app]. rewrite List.map_map. apply List.map_ext_in.
    intros s Hs. cbn [queued_job filename file_content].
    rewrite fromhex_hex; [reflexivity |].
    rewrite Forall_forall in Hbytes. apply Hbytes, list_elem_of_In, Hs.
  - apply Forall_forall. intros d Hd. apply list_elem_of_In, List.in_map_iff in Hd.
    destruct Hd as (s & <- & Hs). cbn [queued_job file_content].
    rewrite fromhex_hex; [eexists; reflexivity |].
    rewrite Forall_forall in Hbytes. apply Hbytes, list_elem_of_In, Hs.
Qed.

Lemma uploads_follow_submission_order_witness :
  let subs := [Submission "job_1" Scenario.pdf "a.pdf" None None None;
               Submission "job_2" [37; 80] "b.pdf" (Some Scenario.hook) None None] in
  Forall (fun s => Forall Text.is_byte (sub_content s)) subs
  /\ uploads (snd (Queue._process_queue_background settings Scenario.refusing
                     (length subs + 1) (submit_all subs Queue.initial) []))
     = List.map (fun s => (upload_url settings, sub_filename s, sub_content s)) subs.
Proof.
  cbv zeta.
  assert (Hbytes : Forall (fun s => Forall Text.is_byte (sub_content s))
                     [Submission "job_1" Scenario.pdf "a.pdf" None None None;
                      Submission "job_2" [37; 80] "b.pdf" (Some Scenario.hook) None None])
    by (repeat constructor; unfold Text.is_byte; lia).
  split; [exact Hbytes |].
  exact (uploads_follow_submission_order settings Scenario.refusing _ 1 Hbytes).
Defined.

(** X11: the loop drains the queue: after as many iterations as there are
    queued jobs (or more) the queue is empty and every job that was queued
    has a terminal status, completed or failed, whatever the backend and the
    subscriber do. *)
Theorem background_loop_drains_queue (cfg : Settings) (E : env)
    (st : Queue.state) (w : world) (k : nat) (jid : string) :
  let st' := fst (Queue._process_queue_background cfg E
                    (length (Queue._in_memory_queue st) + k) st w) in
  Queue._in_memory_queue st' = []
  /\ (jid ∈ job_id <$> Queue._in_memory_queue st ->
      Queue.status_of st' jid = Some Queue.Completed
      \/ Queue.status_of st' jid = Some Queue.Failed).
Proof.
  destruct st as [q m]. cbn [Queue._in_memory_queue].
  destruct (background_drains cfg E q m w k jid) as [Hq Hterm].
  split; [exact Hq |]. intros Hin. apply Hterm. left. exact Hin.
Qed.

(** ** The status query over the states the queue can reach *)

Module ReportFacts.
Import Queue.

Lemma lookup_insert_well_formed (m : gmap string entry) jid jid' e e' :
  well_formed_entry e ->
  (forall e0, m !! jid' = Some e0 -> well_formed_entry e0) ->
  <[jid := e]> m !! jid' = Some e' -> well_formed_entry e'.
Proof.
  intros He Hm. destruct (decide (jid = jid')) as [<- | Hne].
  - rewrite lookup_insert_eq. intros [= <-]. exact He.
  - rewrite lookup_insert_ne by exact Hne. apply Hm.
Qed.

Lemma lookup_insert_recorded (m : gmap string entry) jid jid' e :
  <[jid := e]> m !! jid' <> None <-> jid = jid' \/ m !! jid' <> None.
Proof.
  destruct (decide (jid = jid')) as [<- | Hne].
  - rewrite lookup_insert_eq. split; [left; reflexivity | discriminate].
  - rewrite lookup_insert_ne by exact Hne. tauto.
Qed.

Lemma exec_recorded ops : recorded ops (exec ops boot).
Proof.
  induction ops as [| o ops IH] using rev_ind.
  - split; cbn.
    + intros jid e H. rewrite lookup_empty in H. discriminate.
    + intros jid. rewrite lookup_empty, elem_of_nil. tauto.
    + intros d Hd. inversion Hd.
    + discriminate.
  - rewrite QueueFacts.exec_app. cbn [exec fold_left].
    pose proof (QueueFacts.submitted_app ops [o]) as Hsub.
    destruct (exec ops boot) as [[q m] run]. destruct IH as [Hwf Hrec Hq Hrun].
    cbn [store running _in_memory_queue _in_memory_processing] in *.
    destruct o as [jid0 content fname url opts key | | r];
      cbn [step running store submitted] in *; rewrite ?app_nil_r in Hsub.
    + (* Submit *)
      split; rewrite ?Hsub;
        cbn [store running add_analysis_job snd _in_memory_queue _in_memory_processing].
      * intros jid e. apply lookup_insert_well_formed; [left; reflexivity | apply Hwf].
      * intros jid. rewrite lookup_insert_recorded, elem_of_app, list_elem_of_singleton, Hrec.
        split; intros [H | H]; auto.
      * intros d Hd. apply elem_of_app in Hd. rewrite elem_of_app.
        destruct Hd as [Hd | Hd]; [left; exact (Hq d Hd) |].
        apply list_elem_of_singleton in Hd. subst d. right. cbn.
        apply list_elem_of_singleton. reflexivity.
      * intros jid Hj. apply elem_of_app. left. exact (Hrun jid Hj).
    + (* Claim *)
      destruct run as [jid0 |]; [split; rewrite ?Hsub; assumption |].
      unfold claim. cbn [_in_memory_queue _in_memory_processing].
      destruct q as [| d q]; [split; rewrite ?Hsub; assumption |].
      split; rewrite ?Hsub; cbn [store running _in_memory_queue _in_memory_processing].
      * intros jid e.
        apply lookup_insert_well_formed; [right; left; reflexivity | apply Hwf].
      * intros jid. rewrite lookup_insert_recorded, Hrec. split; [| auto].
        intros [<- | H]; [| exact H]. apply Hq, elem_of_cons. left. reflexivity.
      * intros d' Hd'. apply Hq, elem_of_cons. right. exact Hd'.
      * intros jid [= <-]. apply Hq, elem_of_cons. left. reflexivity.
    + (* Finalize *)
      destruct run as [jid0 |]; [| split; rewrite ?Hsub; assumption].
      unfold finalize.
      split; rewrite ?Hsub; cbn [store running _in_memory_queue _in_memory_processing].
      * intros jid e. apply lookup_insert_well_formed; [| apply Hwf].
        destruct r; [right; right; left; reflexivity | right; right; right; eexists; reflexivity].
      * intros jid. rewrite lookup_insert_recorded, Hrec. split; [| auto].
        intros [<- | H]; [| exact H]. apply Hrun. reflexivity.
      * exact Hq.
      * discriminate.
Qed.

Lemma get_job_of_entry st jid now later :
  (forall e, _in_memory_processing st !! jid = Some e -> well_formed_entry e) ->
  get_job jid now later st = job_report jid now later (status_of st jid).
Proof.
  intros Hwf. unfold get_job, get_job_status, status_of.
  destruct (_in_memory_processing st !! jid) as [e |]; [| reflexivity].
  destruct (Hwf e eq_refl) as [-> | [-> | [-> | [msg ->]]]]; reflexivity.
Qed.

End ReportFacts.

(** X12: records are never removed: from the start of the service and
    through any submissions and loop steps, the status query answers
    404 "Job not found" for exactly the ids that were never submitted. *)
Theorem get_job_not_found_iff_never_submitted
    (ops : list Queue.op) (jid now later : string) :
  get_job jid now later (Queue.store (Queue.exec ops Queue.boot))
  = Raised (HTTPException 404 "Job not found")
  <-> jid ∉ Queue.submitted ops.
Proof.
  pose proof (ReportFacts.exec_recorded ops) as [Hwf Hrec _ _].
  rewrite <- Hrec. unfold get_job, Queue.get_job_status.
  destruct (Queue._in_memory_processing (Queue.store (Queue.exec ops Queue.boot)) !! jid)
    as [e |]; split; try discriminate; try tauto.
  intros H. exfalso. apply H. discriminate.
Qed.

(** X13: what the status query answers on the in-memory queue, in every
    state the queue can reach: a pending or processing job is reported as
    "unknown" (the table only knows BullMQ's state names), a completed job
    as "completed" with no result, a failed job as "failed" with the fixed
    text "Job processing failed" instead of the recorded error. *)
Theorem get_job_reports_status (ops : list Queue.op) (jid now later : string) :
  get_job jid now later (Queue.store (Queue.exec ops Queue.boot))
  = job_report jid now later
      (Queue.status_of (Queue.store (Queue.exec ops Queue.boot)) jid).
Proof.
  apply ReportFacts.get_job_of_entry.
  apply (entries_well_formed _ _ (ReportFacts.exec_recorded ops)).
Qed.

(** ** The upload endpoint *)

Lemma string_length_append s1 s2 :
  String.length (s1 +:+ s2) = (String.length s1 + String.length s2)%nat.
Proof. induction s1 as [| c s1 IH]; [reflexivity |]. simpl. f_equal. exact IH. Qed.

Lemma substring_whole s : substring 0 (String.length s) s = s.
Proof. induction s as [| c s IH]; [reflexivity |]. simpl. f_equal. exact IH. Qed.

Lemma substring_after_prefix s1 s2 m :
  substring (String.length s1) m (s1 +:+ s2) = substring 0 m s2.
Proof. induction s1 as [| c s1 IH]; [reflexivity |]. simpl. exact IH. Qed.

Lemma substring_split s i :
  (i <= String.length s)%nat ->
  s = substring 0 i s +:+ substring i (String.length s - i) s.
Proof.
  revert i. induction s as [| c s IH]; intros i Hi.
  - cbn in Hi. replace i with 0%nat by lia. reflexivity.
  - destruct i as [| i].
    + change (String c s = substring 0 (String.length (String c s)) (String c s)).
      symmetry. apply substring_whole.
    + change (String c s
              = String c (substring 0 i s +:+ substring i (String.length s - i) s)).
      simpl in Hi. f_equal. apply IH. lia.
Qed.

(** [endswith] holds exactly of the strings that are some text followed by
    the suffix. *)
Lemma endswith_spec suffix s :
  endswith suffix s = true <-> exists stem, s = stem +:+ suffix.
Proof.
  unfold endswith. rewrite andb_true_iff, Nat.leb_le, String.eqb_eq. split.
  - intros [Hle Hsub].
    exists (substring 0 (String.length s - String.length suffix) s).
    etransitivity;
      [apply (substring_split s (String.length s - String.length suffix)); lia |].
    f_equal.
    replace (String.length s - (String.length s - String.length suffix))%nat
      with (String.length suffix) by lia.
    exact Hsub.
  - intros [stem ->]. rewrite string_length_append. split; [lia |].
    replace (String.length stem + String.length suffix - String.length suffix)%nat
      with (String.length stem) by lia.
    rewrite substring_after_prefix. apply substring_whole.
Qed.


(** X14: [analyze_document] accepts an upload exactly when the file name
    ends in [.pdf] and the file has between 1 byte and 50 MiB; every other
    upload is refused with status 400 and leaves the queue as it was. *)
Theorem analyze_document_validation
    (fname : string) (content : list Z) (url : option string)
    (opts : option Json.value) (api_key uuid_hex : string) (now later : Z)
    (st : Queue.state) :
  let valid := (exists stem, fname = stem +:+ ".pdf")
               /\ 0 < Z.of_nat (length content) <= 52428800 in
  match analyze_document fname content url opts api_key uuid_hex now later st with
  | (Ok _, _) => valid
  | (Raised e, st') => st' = st /\ (exists detail, e = HTTPException 400 detail) /\ ~ valid
  end.
Proof.
  cbv zeta. unfold analyze_document, max_upload.
  destruct (endswith ".pdf" fname) eqn:Hpdf; cbn [negb].
  - apply endswith_spec in Hpdf.
    destruct (Z.eqb_spec (Z.of_nat (length content)) 0) as [Hzero | Hpos].
    + split; [reflexivity |]. split; [eexists; reflexivity |]. lia.
    + destruct (Z.ltb_spec (50 * 1024 * 1024) (Z.of_nat (length content))) as [Hbig | Hok].
      * split; [reflexivity |]. split; [eexists; reflexivity |]. lia.
      * split; [exact Hpdf | lia].
  - split; [reflexivity |]. split; [eexists; reflexivity |].
    intros [Hstem _]. apply endswith_spec in Hstem. congruence.
Qed.



(** ** API keys: what validates *)

Module KeyFacts.
Import ApiKeys.

Lemma contains_char_append c s1 s2 :
  contains_char c (s1 +:+ s2) = contains_char c s1 || contains_char c s2.
Proof.
  induction s1 as [| a s1 IH]; [reflexivity |].
  change (contains_char c (String a s1 +:+ s2))
    with (Ascii.eqb a c || contains_char c (s1 +:+ s2)).
  rewrite IH. cbn [contains_char]. apply orb_assoc.
Qed.

(** [split("_", 1)] gives two parts exactly for [head_tail] where [head]
    has no underscore. *)
Lemma split_first_two s head tail :
  split_first s = [head; tail]
  <-> s = head +:+ "_" +:+ tail /\ contains_char "_" head = false.
Proof.
  revert head. induction s as [| c s IH]; intros head.
  - cbn. split; [discriminate |]. intros [H _]. destruct head; discriminate H.
  - cbn [split_first]. destruct (Ascii.eqb_spec c "_") as [-> | Hc].
    + split.
      * intros [= <- <-]. split; reflexivity.
      * intros [Hs Hno]. destruct head as [| a head].
        -- simpl in Hs. inversion Hs. reflexivity.
        -- simpl in Hs. inversion Hs. subst a. cbn [contains_char] in Hno.
           rewrite Ascii.eqb_refl in Hno. discriminate Hno.
    + split.
      * destruct (split_first s) as [| h [| t [| ? ?]]] eqn:Hsplit; try discriminate.
        intros [= <- <-]. destruct (proj1 (IH h) eq_refl) as [-> Hno].
        split; [reflexivity |]. cbn [contains_char].
        rewrite Hno. destruct (Ascii.eqb_spec c "_"); [contradiction | reflexivity].
      * intros [Hs Hno]. destruct head as [| a head].
        -- simpl in Hs. inversion Hs. contradiction.
        -- simpl in Hs. inversion Hs. subst a s. cbn [contains_char] in Hno.
           apply orb_false_iff in Hno. destruct Hno as [_ Hno].
           rewrite (proj2 (IH head) (conj eq_refl Hno)). reflexivity.
Qed.

(** In a store filled by [generate_api_key] no id can be the part of a key
    before its first underscore. *)
Lemma prefixed_lookup_head store s head tail :
  prefixed store -> split_first s = [head; tail] -> store !! head = None.
Proof.
  intros Hpre Hsplit. apply split_first_two in Hsplit. destruct Hsplit as [_ Hno].
  destruct (store !! head) as [info |] eqn:Hl; [| reflexivity].
  destruct (Hpre head) as [token ->]; [rewrite Hl; discriminate |].
  discriminate Hno.
Qed.

Lemma reachable_rejects store api_key now :
  reachable store -> validate_api_key api_key now store = (None, store).
Proof.
  intros Hreach. unfold validate_api_key.
  destruct (split_first api_key) as [| head [| tail [| ? ?]]] eqn:Hsplit; try reflexivity.
  rewrite (prefixed_lookup_head store api_key head tail); [reflexivity | | exact Hsplit].
  apply ApiKeysFacts.reachable_prefixed. exact Hreach.
Qed.

End KeyFacts.

(** X16: once the key store has only been filled by [generate_api_key], no
    string at all validates, generated key or not: [validate_api_key]
    returns [None] and leaves the store alone, and [get_api_key_info] finds
    nothing either, because both look up the text before the first
    underscore while every stored id contains one. *)
Theorem no_key_validates (store : ApiKeys.keys) (api_key now : string) :
  ApiKeys.reachable store ->
  ApiKeys.validate_api_key api_key now store = (None, store)
  /\ get_api_key_info api_key store = None.
Proof.
  intros Hreach. split; [exact (KeyFacts.reachable_rejects store api_key now Hreach) |].
  unfold get_api_key_info.
  destruct (ApiKeys.split_first api_key) as [| head [| tail [| ? ?]]] eqn:Hsplit;
    try reflexivity.
  apply (KeyFacts.prefixed_lookup_head store api_key head tail); [| exact Hsplit].
  apply ApiKeysFacts.reachable_prefixed. exact Hreach.
Qed.

Lemma no_key_validates_witness :
  let store := snd (create_test_api_key "dG9rZW4" "c2VjcmV0" "t0" ∅) in
  ApiKeys.reachable store
  /\ ApiKeys.validate_api_key "key_dG9rZW4" "t1" store = (None, store)
  /\ get_api_key_info "key_dG9rZW4" store = None.
Proof.
  cbv zeta.
  assert (Hreach : ApiKeys.reachable (snd (create_test_api_key "dG9rZW4" "c2VjcmV0" "t0" ∅)))
    by (apply (ApiKeys.reachable_generate "dG9rZW4" "c2VjcmV0" "t0" ∅),
              ApiKeys.reachable_empty).
  split; [exact Hreach |].
  exact (no_key_validates _ "key_dG9rZW4" "t1" Hreach).
Defined.

(** X17: on any store, [validate_api_key] accepts a key exactly when the
    key is [id_secret] with no underscore in [id], the store holds an active
    record under [id], and the record's hash is the SHA-256 of [secret]. *)
Theorem validate_api_key_accepts_iff
    (store : ApiKeys.keys) (api_key now : string) :
  fst (ApiKeys.validate_api_key api_key now store) <> None
  <-> exists kid secret info,
        api_key = kid +:+ "_" +:+ secret
        /\ contains_char "_" kid = false
        /\ store !! kid = Some info
        /\ ApiKeys.active info = true
        /\ ApiKeys.hashed_secret info = SHA256.hexdigest (Text.encode secret).
Proof.
  unfold ApiKeys.validate_api_key. split.
  - destruct (ApiKeys.split_first api_key) as [| kid [| secret [| ? ?]]] eqn:Hsplit;
      cbn [fst]; try congruence.
    apply KeyFacts.split_first_two in Hsplit. destruct Hsplit as [-> Hno].
    destruct (store !! kid) as [info |] eqn:Hl; cbn [fst]; [| congruence].
    destruct (ApiKeys.active info) eqn:Hact; cbn [negb fst]; [| congruence].
    destruct (String.eqb_spec (SHA256.hexdigest (Text.encode secret))
                (ApiKeys.hashed_secret info)) as [Hhash | Hhash];
      cbn [negb fst]; [| congruence].
    intros _. exists kid, secret, info. repeat split; try assumption. symmetry. exact Hhash.
  - intros (kid & secret & info & -> & Hno & Hl & Hact & Hhash).
    rewrite (proj2 (KeyFacts.split_first_two _ kid secret) (conj eq_refl Hno)).
    rewrite Hl, Hact, Hhash, String.eqb_refl. cbn. discriminate.
Qed.

(** X18: [validate_api_key] never adds or removes a key and never changes
    anything of a record but [last_used]: the id, hash, creation time, rate
    limit, tier and active flag of every record stay as they were. *)
Theorem validate_api_key_preserves_records
    (store : ApiKeys.keys) (api_key now kid : string) :
  match snd (ApiKeys.validate_api_key api_key now store) !! kid, store !! kid with
  | Some after, Some before =>
      ApiKeys.key_id after = ApiKeys.key_id before
      /\ ApiKeys.hashed_secret after = ApiKeys.hashed_secret before
      /\ ApiKeys.created_at after = ApiKeys.created_at before
      /\ ApiKeys.rate_limit after = ApiKeys.rate_limit before
      /\ ApiKeys.tier after = ApiKeys.tier before
      /\ ApiKeys.active after = ApiKeys.active before
  | None, None => True
  | _, _ => False
  end.
Proof.
  assert (Hsame : match store !! kid, store !! kid with
                  | Some after, Some before =>
                      ApiKeys.key_id after = ApiKeys.key_id before
                      /\ ApiKeys.hashed_secret after = ApiKeys.hashed_secret before
                      /\ ApiKeys.created_at after = ApiKeys.created_at before
                      /\ ApiKeys.rate_limit after = ApiKeys.rate_limit before
                      /\ ApiKeys.tier after = ApiKeys.tier before
                      /\ ApiKeys.active after = ApiKeys.active before
                  | None, None => True
                  | _, _ => False
                  end)
    by (destruct (store !! kid); repeat split).
  unfold ApiKeys.validate_api_key.
  destruct (ApiKeys.split_first api_key) as [| k [| secret [| ? ?]]]; cbn [snd];
    try exact Hsame.
  destruct (store !! k) as [info |] eqn:Hk; cbn [snd]; [| exact Hsame].
  destruct (negb (ApiKeys.active info)); cbn [snd]; [exact Hsame |].
  destruct (negb _); cbn [snd]; [exact Hsame |].
  destruct (decide (k = kid)) as [<- | Hne].
  - rewrite lookup_insert_eq, Hk. repeat split.
  - rewrite lookup_insert_ne by exact Hne. exact Hsame.
Qed.

(** ** The authentication middleware *)

(** X19: the only error the middleware raises is 401 (the rate limit never
    trips); it lets a request through only on an open path, untouched and
    without looking at the key store, or after [validate_api_key] accepted
    the presented key, with that key and its record attached. *)
Theorem api_key_middleware_outcomes {R : Type}
    (call_next : Middleware.http_request -> option Middleware.attached -> R)
    (req : Middleware.http_request) (now : string) (store : ApiKeys.keys) :
  match Middleware.api_key_middleware call_next req now store with
  | (Ok response, store') =>
      (Middleware.is_open (Middleware.path req) = true
       /\ response = call_next req None /\ store' = store)
      \/ (Middleware.is_open (Middleware.path req) = false
          /\ exists info,
               ApiKeys.validate_api_key (Middleware.presented_key req) now store
               = (Some info, store')
               /\ response
                  = call_next req
                      (Some (Middleware.Attached (Middleware.presented_key req) info)))
  | (Raised e, store') =>
      Middleware.is_open (Middleware.path req) = false
      /\ (exists detail, e = HTTPException 401 detail)
      /\ (Middleware.presented_key req = ""%string
          \/ fst (ApiKeys.validate_api_key (Middleware.presented_key req) now store) = None)
  end.
Proof.
  unfold Middleware.api_key_middleware.
  destruct (Middleware.is_open (Middleware.path req)); [left; repeat split |].
  destruct (Middleware.presented_key req) as [| c key] eqn:Hkey.
  - split; [reflexivity |]. split; [eexists; reflexivity | left; reflexivity].
  - destruct (ApiKeys.validate_api_key (String c key) now store) as [[info |] store'].
    + cbn. right. split; [reflexivity |]. exists info. split; reflexivity.
    + split; [reflexivity |]. split; [eexists; reflexivity | right; reflexivity].
Qed.

(** X20: with a key store that has only been filled by [generate_api_key],
    the middleware raises [HTTPException] with status 401 on every request
    outside the four open paths, whatever headers it carries, and does not
    call the handler behind it.  (What the application answers to that
    exception is decided where the middleware is installed, in [main.py],
    and is not part of this function.) *)
Theorem api_key_middleware_rejects_every_key {R : Type}
    (call_next : Middleware.http_request -> option Middleware.attached -> R)
    (req : Middleware.http_request) (now : string) (store : ApiKeys.keys) :
  ApiKeys.reachable store ->
  Middleware.is_open (Middleware.path req) = false ->
  exists detail,
    Middleware.api_key_middleware call_next req now store
    = (Raised (HTTPException 401 detail), store).
Proof.
  intros Hreach Hclosed. unfold Middleware.api_key_middleware. rewrite Hclosed.
  destruct (Middleware.presented_key req) as [| c key]; [eexists; reflexivity |].
  rewrite (KeyFacts.reachable_rejects store (String c key) now Hreach).
  eexists. reflexivity.
Qed.

Lemma api_key_middleware_rejects_every_key_witness :
  let generated := ApiKeys.generate_api_key "dG9rZW4" "c2VjcmV0" "t0" ∅ in
  let req := Middleware.HttpRequest "/api/v1/analyze"
               [("X-API-Key"%string, snd (fst generated))] in
  ApiKeys.reachable (snd generated)
  /\ Middleware.is_open (Middleware.path req) = false
  /\ exists detail,
       Middleware.api_key_middleware (fun _ _ => true) req "t1" (snd generated)
       = (Raised (HTTPException 401 detail), snd generated).
Proof.
  cbv zeta.
  assert (Hreach : ApiKeys.reachable
                     (snd (ApiKeys.generate_api_key "dG9rZW4" "c2VjcmV0" "t0" ∅)))
    by (apply ApiKeys.reachable_generate, ApiKeys.reachable_empty).
  split; [exact Hreach |]. split; [reflexivity |].
  apply (api_key_middleware_rejects_every_key (fun _ _ => true)
           (Middleware.HttpRequest "/api/v1/analyze"
              [("X-API-Key"%string,
                snd (fst (ApiKeys.generate_api_key "dG9rZW4" "c2VjcmV0" "t0" ∅)))])
           "t1" _ Hreach).
  reflexivity.
Defined.

(** ** The key a request presents *)

Lemma prefix_append p s : String.prefix p s = true -> exists rest, s = p +:+ rest.
Proof.
  revert s. induction p as [| a p IH]; intros s H.
  - exists s. reflexivity.
  - destruct s as [| b s]; [discriminate H |].
    cbn [String.prefix] in H. destruct (ascii_dec a b) as [<- | _]; [| discriminate H].
    destruct (IH s H) as [rest ->]. exists rest. reflexivity.
Qed.

Lemma remove_all_without_space s :
  contains_char " " s = false -> remove_all "Bearer " s = s.
Proof.
  unfold remove_all. induction s as [| c s IH]; intros Hno; [reflexivity |].
  cbn [remove_from].
  destruct (String.prefix "Bearer " (String c s)) eqn:Hpre.
  - apply prefix_append in Hpre. destruct Hpre as [rest Hrest].
    rewrite Hrest, KeyFacts.contains_char_append in Hno. discriminate Hno.
  - cbn [contains_char] in Hno. apply orb_false_iff in Hno. destruct Hno as [_ Hno].
    rewrite (IH Hno). reflexivity.
Qed.

Lemma remove_all_bearer key :
  remove_all "Bearer " ("Bearer " +:+ key) = remove_all "Bearer " key.
Proof.
  unfold remove_all. simpl. change ("" +:+ key) with key.
  replace (String.prefix "" key) with true by (destruct key; reflexivity).
  reflexivity.
Qed.

(** X21: a request whose only header is [Authorization: Bearer <key>], the
    header name in any mix of upper and lower case and the key free of
    spaces, presents exactly [<key>]. *)
Theorem bearer_key_is_presented (path name key : string) :
  Middleware.lower name = "authorization"%string ->
  contains_char " " key = false ->
  Middleware.presented_key (Middleware.HttpRequest path [(name, "Bearer " +:+ key)])
  = key.
Proof.
  intros Hname Hkey. unfold Middleware.presented_key. cbn [Middleware.headers].
  assert (Hx : Middleware.headers_get "X-API-Key" [(name, "Bearer " +:+ key)] = None)
    by (cbn [Middleware.headers_get]; rewrite Hname; reflexivity).
  assert (Ha : Middleware.headers_get "Authorization" [(name, "Bearer " +:+ key)]
               = Some ("Bearer " +:+ key))
    by (cbn [Middleware.headers_get]; rewrite Hname; reflexivity).
  rewrite Hx, Ha. cbn [truthy].
  rewrite remove_all_bearer. apply remove_all_without_space. exact Hkey.
Qed.

Lemma bearer_key_is_presented_witness :
  Middleware.lower "AUTHORIZATION" = "authorization"%string
  /\ contains_char " " "key_dG9rZW4_c2VjcmV0" = false
  /\ Middleware.presented_key
       (Middleware.HttpRequest "/api/v1/jobs/job_1"
          [("AUTHORIZATION"%string, "Bearer " +:+ "key_dG9rZW4_c2VjcmV0")])
     = "key_dG9rZW4_c2VjcmV0"%string.
Proof.
  split; [reflexivity |]. split; [reflexivity |].
  apply (bearer_key_is_presented "/api/v1/jobs/job_1" "AUTHORIZATION"
           "key_dG9rZW4_c2VjcmV0"); reflexivity.
Defined.

(** ** Webhook subscriptions *)

(** X22: a subscription can be read back under the id [create_webhook]
    returned, with the URL, events and secret it was created with and
    active; deleting it succeeds once, after which reading it and deleting
    it again both answer 404; no other subscription is touched by any of
    this. *)
Theorem webhook_subscription_lifecycle
    (request : Webhooks.WebhookRequest) (uuid_hex now later : string)
    (store : Webhooks.registry) (other : string) :
  let created := Webhooks.create_webhook request uuid_hex now later store in
  let wid := Webhooks.response_webhook_id (fst created) in
  let deleted := Webhooks.delete_webhook wid (snd created) in
  wid = "wh_" +:+ substring 0 16 uuid_hex
  /\ Webhooks.get_webhook wid (snd created)
     = Ok (Webhooks.Subscription wid (Webhooks.request_url request)
             (Webhooks.request_events request) (Webhooks.request_secret request)
             now true)
  /\ fst deleted = Ok "Webhook deleted"%string
  /\ Webhooks.get_webhook wid (snd deleted)
     = Raised (HTTPException 404 "Webhook not found")
  /\ Webhooks.delete_webhook wid (snd deleted)
     = (Raised (HTTPException 404 "Webhook not found"), snd deleted)
  /\ (other <> wid ->
      Webhooks.get_webhook other (snd created) = Webhooks.get_webhook other store
      /\ Webhooks.get_webhook other (snd deleted) = Webhooks.get_webhook other store).
Proof.
  cbv zeta. unfold Webhooks.create_webhook. cbn [fst snd Webhooks.response_webhook_id].
  set (wid := "wh_" +:+ substring 0 16 uuid_hex).
  unfold Webhooks.delete_webhook, Webhooks.get_webhook.
  rewrite !lookup_insert_eq. cbn [fst snd].
  rewrite !lookup_delete_eq.
  repeat split.
  - rewrite lookup_insert_ne by congruence. reflexivity.
  - rewrite lookup_delete_ne, lookup_insert_ne by congruence. reflexivity.
Qed.

(** ** Hexadecimal transport of the file, an idle loop, a willing subscriber *)

(** X23: the bytes of a submitted file survive the queue: the job data
    [add_analysis_job] stores holds them as hexadecimal text that
    [bytes.fromhex], as the task applies it, turns back into the same
    bytes. *)
Theorem queued_content_round_trips
    (jid : string) (content : list Z) (fname : string) (url : option string)
    (opts : option Json.value) (key : option string) (st : Queue.state) :
  Forall Text.is_byte content ->
  exists job,
    last (Queue._in_memory_queue
            (snd (Queue.add_analysis_job jid content fname url opts key st))) = Some job
    /\ job_id job = jid
    /\ filename job = fname
    /\ fromhex (file_content job) = Some content.
Proof.
  intros Hbytes. unfold Queue.add_analysis_job. cbn [snd Queue._in_memory_queue].
  eexists. rewrite last_snoc. split; [reflexivity |].
  cbn [job_id filename file_content]. repeat split.
  apply fromhex_hex. exact Hbytes.
Qed.

Lemma queued_content_round_trips_witness :
  Forall Text.is_byte Scenario.pdf
  /\ exists job,
       last (Queue._in_memory_queue
               (snd (Queue.add_analysis_job "job_1" Scenario.pdf "a.pdf" None None None
                       Queue.initial))) = Some job
       /\ job_id job = "job_1"%string
       /\ filename job = "a.pdf"%string
       /\ fromhex (file_content job) = Some Scenario.pdf.
Proof.
  assert (Hbytes : Forall Text.is_byte Scenario.pdf)
    by (repeat constructor; unfold Text.is_byte; lia).
  split; [exact Hbytes |].
  exact (queued_content_round_trips "job_1" Scenario.pdf "a.pdf" None None None
           Queue.initial Hbytes).
Defined.

(** X24: with nothing queued the loop changes no record, contacts nobody
    and only sleeps one second per iteration. *)
Theorem idle_loop_only_sleeps (cfg : Settings) (E : env)
    (n : nat) (st : Queue.state) (w : world) :
  Queue._in_memory_queue st = [] ->
  Queue._process_queue_background cfg E n st w = (st, w ++ repeat (Sleep 1) n).
Proof. apply background_idle. Qed.

Lemma idle_loop_only_sleeps_witness :
  Queue._in_memory_queue Queue.initial = []
  /\ Queue._process_queue_background settings Scenario.happy 3 Queue.initial []
     = (Queue.initial, [] ++ repeat (Sleep 1) 3).
Proof.
  split; [reflexivity |].
  exact (idle_loop_only_sleeps settings Scenario.happy 3 Queue.initial [] eq_refl).
Defined.

(** X25: when the subscriber accepts the first POST, the delivery is that
    single POST: no sleep, no retry, and [True] is returned, whatever
    [retry_count] and the settings are. *)
Theorem deliver_webhook_first_accept (cfg : Settings) (E : env)
    url ev data secret retry_count w :
  accepted (attempt_answer E url ev data secret w) = true ->
  deliver_webhook cfg E url ev data secret retry_count w
  = (Ok true,
     w ++ [WebhookPost (attempt_request E url ev data secret w)
             (attempt_answer E url ev data secret w)]).
Proof.
  intros Hacc.
  destruct (deliver_webhook_delivery cfg E url ev data secret retry_count w)
    as (b & tr & Hrun & D).
  rewrite Hrun.
  destruct D as [w n _ | w n Href _ | w n tr b Href _ _];
    [reflexivity | congruence | congruence].
Qed.

Lemma deliver_webhook_first_accept_witness :
  accepted (attempt_answer Scenario.happy Scenario.hook "analysis.completed"
              Scenario.data (Some Scenario.secret) []) = true
  /\ deliver_webhook settings Scenario.happy Scenario.hook "analysis.completed"
       Scenario.data (Some Scenario.secret) 0 []
     = (Ok true,
        [] ++ [WebhookPost
                 (attempt_request Scenario.happy Scenario.hook "analysis.completed"
                    Scenario.data (Some Scenario.secret) [])
                 (attempt_answer Scenario.happy Scenario.hook "analysis.completed"
                    Scenario.data (Some Scenario.secret) [])]).
Proof.
  split; [reflexivity |].
  apply (deliver_webhook_first_accept settings Scenario.happy). reflexivity.
Defined.

(** ** Conformance: results of CPython 3.11 *)

Example encode_one_to_four_bytes :
  Py.encode [0x10FFFF; 0x7FF; 0x800; 0xFFFF; 0x10000; 0x7F; 0x80]
  = Ok [244; 143; 191; 191; 223; 191; 224; 160; 128; 239; 191; 191;
        240; 144; 128; 128; 127; 194; 128].
Proof. vm_compute. reflexivity. Qed.

Example encode_lone_surrogate :
  Py.encode [97; 0xDFFF; 98; 0xD800]
  = Raised (Exception ("'utf-8' codec can't encode character '" +:+ Json.char 92
                       +:+ "udfff' in position 1: surrogates not allowed")).
Proof. vm_compute. reflexivity. Qed.

Example encode_run_of_surrogates :
  Py.encode [97; 98; 0xDC80; 0xDC81; 99]
  = Raised (Exception
              "'utf-8' codec can't encode characters in position 2-3: surrogates not allowed").
Proof. vm_compute. reflexivity. Qed.

(** With [sort_keys] the object met first is the one under the smallest
    key; without, the one inserted first. *)
Example dumps_raises_in_key_order :
  let payload := Py.Dict [("z"%string, Py.Object "bytes");
                          ("a"%string, Py.List [Py.Int 1; Py.Object "object"])] in
  Py.dumps (Json.Options true true ", " ": ") payload
  = Raised (Exception "Object of type object is not JSON serializable")
  /\ Py.dumps Json.defaults payload
     = Raised (Exception "Object of type bytes is not JSON serializable")
  /\ Py.to_json payload
     = Raised (Exception "Object of type bytes is not JSON serializable").
Proof. vm_compute. repeat split; reflexivity. Qed.

Example signature_with_wide_secret :
  Py.generate_signature (Py.of_json Scenario.data) Unsignable.hangul
  = Ok "ffdbfdd07b39055eea8abf547baf6a9bac64f92f5c69570ce054a04230717ce1"%string.
Proof. vm_compute. reflexivity. Qed.

Example compare_digest_outside_ascii :
  Py.compare_digest (Json.char 128) "ab"
  = Raised (Exception "comparing strings with non-ASCII characters is not supported")
  /\ Py.compare_digest (Json.char 127) "ab" = Ok false.
Proof. vm_compute. split; reflexivity. Qed.

Example fromhex_skips_whitespace :
  fromhex "ab cd" = Some [171; 205]
  /\ fromhex " ab" = Some [171]
  /\ fromhex ("ab" +:+ Json.char 9 +:+ "cd" +:+ Json.char 10) = Some [171; 205]
  /\ fromhex ("ab" +:+ Json.char 11 +:+ "cd" +:+ Json.char 12) = Some [171; 205]
  /\ fromhex "  " = Some []
  /\ fromhex "AB" = Some [171].
Proof. vm_compute. repeat split; reflexivity. Qed.

Example fromhex_positions :
  List.map (fun s => fromhex_parse s)
    ["a b"; "abc"; "zz"; "abcg"; "a"; "ab c"; "gg  ";
     "ab" +:+ Json.char 28 +:+ "cd"; Json.char 233 +:+ "ab"; "zz" +:+ Json.char 233;
     "ab" +:+ Json.char 0 +:+ "cd"]%string
  = [inr 1; inr 3; inr 0; inr 3; inr 1; inr 4; inr 0; inr 2; inr 0; inr 2; inr 2]%nat.
Proof. vm_compute. reflexivity. Qed.

Example fromhex_error_text :
  fromhex_error "ab c"
  = Exception "non-hexadecimal number found in fromhex() arg at position 4".
Proof. vm_compute. reflexivity. Qed.

(** ** JSON values among Python objects *)

(** Induction on a JSON value, with the hypothesis for every element of a
    list and every value of a dict. *)
Lemma json_value_ind' (P : Json.value -> Prop)
    (HNull : P Json.Null) (HBool : forall b, P (Json.Bool b))
    (HInt : forall n, P (Json.Int n)) (HStr : forall s, P (Json.Str s))
    (HList : forall items, Forall P items -> P (Json.List items))
    (HDict : forall items, Forall (fun kv => P (snd kv)) items -> P (Json.Dict items)) :
  forall v, P v.
Proof.
  fix IH 1. intros [| b | n | s | items | items].
  - exact HNull.
  - apply HBool.
  - apply HInt.
  - apply HStr.
  - apply HList.
    exact ((fix all (l : list Json.value) : Forall P l :=
              match l with
              | [] => @List.Forall_nil _ P
              | v :: rest => @List.Forall_cons _ P v rest (IH v) (all rest)
              end) items).
  - apply HDict.
    exact ((fix all (l : list (string * Json.value)) : Forall (fun kv => P (snd kv)) l :=
              match l with
              | [] => @List.Forall_nil _ _
              | kv :: rest => @List.Forall_cons _ _ kv rest (IH (snd kv)) (all rest)
              end) items).
Qed.

Lemma sequence_map_ok {A B : Type} (f : A -> result B) (g : A -> B) (l : list A) :
  Forall (fun a => f a = Ok (g a)) l -> Py.sequence (List.map f l) = Ok (List.map g l).
Proof.
  induction 1 as [| a l Ha _ IH]; [reflexivity |].
  cbn [List.map Py.sequence]. rewrite Ha, IH. reflexivity.
Qed.

(** A JSON value is serialised as itself. *)
Lemma to_json_of_json j : Py.to_json (Py.of_json j) = Ok j.
Proof.
  induction j as [| b | n | s | items IH | items IH] using json_value_ind';
    try reflexivity; cbn [Py.of_json Py.to_json]; rewrite List.map_map.
  - rewrite (sequence_map_ok _ (fun v => v)).
    + cbn [mbind result_bind]. rewrite List.map_id. reflexivity.
    + exact IH.
  - rewrite (sequence_map_ok _ (fun kv => kv)).
    + cbn [mbind result_bind]. rewrite List.map_id. reflexivity.
    + eapply Forall_impl; [exact IH |].
      intros [k v] Hv. cbn [fst snd] in *. rewrite Hv. reflexivity.
Qed.

Lemma insert_item_ok (kv : string * string) (l : list (string * string)) :
  Py.insert_item (fst kv, Ok (snd kv)) (List.map (fun kt => (fst kt, Ok (snd kt))) l)
  = List.map (fun kt => (fst kt, Ok (snd kt))) (Json.insert_item kv l).
Proof.
  induction l as [| kv' l IH]; [reflexivity |].
  cbn [List.map Py.insert_item Json.insert_item fst snd].
  destruct (String.ltb (fst kv) (fst kv')); [reflexivity |].
  cbn [List.map]. rewrite IH. reflexivity.
Qed.

Lemma sort_items_ok (l : list (string * string)) :
  Py.sort_items (List.map (fun kt => (fst kt, Ok (snd kt))) l)
  = List.map (fun kt => (fst kt, Ok (snd kt))) (Json.sort_items l).
Proof.
  unfold Py.sort_items, Json.sort_items.
  change (@nil (string * result string))
    with (List.map (fun kt : string * string => (fst kt, @Ok string (snd kt))) []).
  generalize (@nil (string * string)) as acc.
  induction l as [| kv l IH]; intros acc; [reflexivity |].
  cbn [List.map fold_left]. rewrite insert_item_ok. apply IH.
Qed.

(** [json.dumps] of a JSON value never raises. *)
Lemma dumps_of_json o j : Py.dumps o (Py.of_json j) = Ok (Json.dumps o j).
Proof.
  induction j as [| b | n | s | items IH | items IH] using json_value_ind';
    try reflexivity; cbn [Py.of_json Py.dumps Json.dumps]; rewrite List.map_map.
  - rewrite (sequence_map_ok _ (Json.dumps o)) by exact IH. reflexivity.
  - cbn [fst snd].
    assert (Hrendered :
      List.map (fun kv : string * Json.value => (fst kv, Py.dumps o (Py.of_json (snd kv)))) items
      = List.map (fun kt => (fst kt, Ok (snd kt)))
          (List.map (fun kv => (fst kv, Json.dumps o (snd kv))) items)).
    { rewrite List.map_map. cbn [fst snd].
      induction IH as [| kv items Hkv _ IHitems]; [reflexivity |].
      cbn [List.map]. rewrite Hkv, IHitems. reflexivity. }
    rewrite Hrendered.
    set (rendered := List.map (fun kv => (fst kv, Json.dumps o (snd kv))) items).
    assert (Hordered :
      (if Json.sort_keys o
       then Py.sort_items (List.map (fun kt => (fst kt, Ok (snd kt))) rendered)
       else List.map (fun kt => (fst kt, Ok (snd kt))) rendered)
      = List.map (fun kt => (fst kt, Ok (snd kt)))
          (if Json.sort_keys o then Json.sort_items rendered else rendered)).
    { destruct (Json.sort_keys o); [apply sort_items_ok | reflexivity]. }
    rewrite Hordered, List.map_map. cbn [fst snd mbind result_bind].
    rewrite (sequence_map_ok _
               (fun kt => Json.quote (Json.ensure_ascii o) (fst kt)
                          +:+ Json.key_separator o +:+ snd kt)).
    + reflexivity.
    + apply Forall_forall. intros kt _. reflexivity.
Qed.

Lemma ord_bounded c : 0 <= Text.ord c < 256.
Proof.
  unfold Text.ord. pose proof (N_ascii_bounded c). lia.
Qed.

(** A text of code points below 256 always encodes. *)
Lemma encode_from_of_string s pos : Py.encode_from pos (Py.of_string s) = Ok (Text.encode s).
Proof.
  revert pos. induction s as [| c s IH]; intros pos; [reflexivity |].
  change (Py.of_string (String c s)) with (Text.ord c :: Py.of_string s).
  cbn [Py.encode_from Text.encode].
  pose proof (ord_bounded c) as Hc.
  assert (Hs : Py.is_surrogate (Text.ord c) = false).
  { unfold Py.is_surrogate. apply andb_false_iff. left. apply Z.leb_gt. lia. }
  rewrite Hs, IH. cbn [mbind result_bind]. f_equal. f_equal.
  unfold Py.encode_code_point, Text.encode_char.
  destruct (Text.ord c <? 128) eqn:Hlt; [reflexivity |].
  replace (Text.ord c <? 2048) with true by (symmetry; apply Z.ltb_lt; lia).
  reflexivity.
Qed.

Lemma encode_of_string s : Py.encode (Py.of_string s) = Ok (Text.encode s).
Proof. apply encode_from_of_string. Qed.

(** On a JSON payload and a secret of code points below 256 the signature
    is the one computed above. *)
Lemma generate_signature_of_json payload secret :
  Py.generate_signature (Py.of_json payload) (Py.of_string secret)
  = Ok (generate_signature payload secret).
Proof.
  unfold Py.generate_signature. rewrite dumps_of_json, encode_of_string. reflexivity.
Qed.







(** ** Nothing is lost in serialising and encoding *)

Lemma string_app_inv_head a x y : a +:+ x = a +:+ y -> x = y.
Proof. apply String.app_inj. Qed.
















(** *** The string literals of a serialised document *)




















(** ** HMAC tells keys and messages apart as far as SHA-256 does *)

Lemma xor_pad_length p k : length (HMAC.xor_pad p k) = length k.
Proof. apply length_map. Qed.

Lemma xor_pad_inj p k k' : HMAC.xor_pad p k = HMAC.xor_pad p k' -> k = k'.
Proof.
  unfold HMAC.xor_pad. revert k'.
  induction k as [| a k IH]; intros [| a' k'] H; try discriminate; [reflexivity |].
  cbn [List.map] in H. injection H as Ha Hk. f_equal; [| exact (IH _ Hk)].
  rewrite <- (Z.lxor_0_l a), <- (Z.lxor_0_l a'), <- (Z.lxor_nilpotent p),
    !Z.lxor_assoc, Ha.
  reflexivity.
Qed.

Lemma block_key_length key : length (HMAC.block_key key) = 64%nat.
Proof.
  unfold HMAC.block_key, HMAC.block_size. cbv zeta.
  destruct (Nat.ltb_spec 64 (length key)) as [Hlong | Hshort];
    rewrite length_app, repeat_length; [rewrite digest_length |]; lia.
Qed.





(** Messages with pairwise different digests: no collision among them. *)
Lemma collision_free_nodup ms : NoDup (List.map SHA256.digest ms) -> collision_free ms.
Proof.
  induction ms as [| m ms IH]; intros Hnodup m1 m2 H1 H2 Heq; [contradiction |].
  cbn [List.map] in Hnodup. apply NoDup_cons in Hnodup. destruct Hnodup as [Hm Hms].
  assert (Hfresh : forall m', In m' ms -> SHA256.digest m <> SHA256.digest m').
  { intros m' Hin H. apply Hm. rewrite H. apply list_elem_of_In, in_map, Hin. }
  destruct H1 as [<- | H1], H2 as [<- | H2].
  - reflexivity.
  - exfalso. exact (Hfresh _ H2 Heq).
  - exfalso. symmetry in Heq. exact (Hfresh _ H1 Heq).
  - exact (IH Hms m1 m2 H1 H2 Heq).
Qed.

(** Unless SHA-256 collides on one of the messages it is given, another
    message or another key gives another digest. *)
Lemma hmac_digest_differs key msg key' msg' :
  collision_free (hmac_hashes key msg ++ hmac_hashes key' msg') ->
  msg' <> msg \/ HMAC.block_key key' <> HMAC.block_key key ->
  HMAC.digest key' msg' <> HMAC.digest key msg.
Proof.
  unfold hmac_hashes, HMAC.digest. cbv zeta. intros Hfree Hdiff Heq.
  apply Hfree in Heq; [| rewrite !in_app_iff; cbn [In]; tauto ..].
  apply app_inj_1 in Heq; [| rewrite !xor_pad_length, !block_key_length; reflexivity].
  destruct Heq as [Hk Hinner]. apply xor_pad_inj in Hk.
  apply Hfree in Hinner; [| rewrite !in_app_iff; cbn [In]; tauto ..].
  rewrite Hk in Hinner. apply app_inv_head in Hinner.
  destruct Hdiff as [Hmsg | Hkey]; [exact (Hmsg Hinner) | exact (Hkey Hk)].
Qed.




(** ** A changed character of a secret is another key *)

Lemma lor_high_low m k x : 0 <= k -> 0 <= x < 2 ^ k -> Z.lor (m * 2 ^ k) x = m * 2 ^ k + x.
Proof.
  intros Hk Hx. symmetry. apply Z.add_nocarry_lor.
  apply Z.bits_inj'. intros n Hn. rewrite Z.land_spec, Z.bits_0.
  destruct (Z.lt_ge_cases n k) as [Hlt | Hge].
  - rewrite Z.mul_pow2_bits_low by exact Hlt. reflexivity.
  - destruct (Z.eq_dec x 0) as [-> | Hx0]; [rewrite Z.bits_0; apply andb_false_r |].
    rewrite (Z.bits_above_log2 x n); [apply andb_false_r | lia |].
    apply Z.log2_lt_pow2; [lia |]. apply Z.lt_le_trans with (2 ^ k); [lia |].
    apply Z.pow_le_mono_r; lia.
Qed.

(** The bytes of a code point, written with sums and quotients. *)
Lemma encode_code_point_bytes cp :
  0 <= cp <= 0x10FFFF ->
  Py.encode_code_point cp
  = if cp <? 0x80 then [cp]
    else if cp <? 0x800 then [192 + cp / 64; 128 + cp mod 64]
    else if cp <? 0x10000 then [224 + cp / 4096; 128 + (cp / 64) mod 64; 128 + cp mod 64]
    else [240 + cp / 262144; 128 + (cp / 4096) mod 64; 128 + (cp / 64) mod 64;
          128 + cp mod 64].
Proof.
  intros Hcp. unfold Py.encode_code_point.
  assert (Hlow : forall x, Z.lor 128 (Z.land x 63) = 128 + x mod 64).
  { intros x. change 63 with (Z.ones 6). rewrite Z.land_ones by lia.
    apply (lor_high_low 2 6); [lia |]. apply Z.mod_pos_bound. lia. }
  rewrite !Hlow, !Z.shiftr_div_pow2 by lia.
  change (2 ^ 6) with 64. change (2 ^ 12) with 4096. change (2 ^ 18) with 262144.
  assert (Hdiv : forall d, 0 < d -> 0 <= cp / d) by (intros d Hd; apply Z.div_pos; lia).
  destruct (Z.ltb_spec cp 128) as [? | H1]; [reflexivity |].
  destruct (Z.ltb_spec cp 2048) as [? | H2].
  { change (Z.lor 192 (cp / 64)) with (Z.lor (3 * 2 ^ 6) (cp / 64)).
    rewrite (lor_high_low 3 6 (cp / 64)); [reflexivity | lia |].
    split; [apply Hdiv; lia | apply Z.div_lt_upper_bound; lia]. }
  destruct (Z.ltb_spec cp 65536) as [? | H3].
  { change (Z.lor 224 (cp / 4096)) with (Z.lor (14 * 2 ^ 4) (cp / 4096)).
    rewrite (lor_high_low 14 4 (cp / 4096)); [reflexivity | lia |].
    split; [apply Hdiv; lia | apply Z.div_lt_upper_bound; lia]. }
  change (Z.lor 240 (cp / 262144)) with (Z.lor (30 * 2 ^ 3) (cp / 262144)).
  rewrite (lor_high_low 30 3 (cp / 262144)); [reflexivity | lia |].
  split; [apply Hdiv; lia | apply Z.div_lt_upper_bound; lia].
Qed.

(** UTF-8 is a prefix code: the bytes of two code points differ at some
    place within both. *)
Lemma code_points_differ cp cp' rest rest' :
  0 <= cp <= 0x10FFFF -> 0 <= cp' <= 0x10FFFF -> cp <> cp' ->
  exists i, nth i (Py.encode_code_point cp' ++ rest') 0
            <> nth i (Py.encode_code_point cp ++ rest) 0.
Proof.
  intros Hcp Hcp' Hne.
  rewrite !encode_code_point_bytes by assumption.
  set (bytes := if cp <? 128 then _ else _). set (bytes' := if cp' <? 128 then _ else _).
  destruct (Z.eq_dec (nth 0 (bytes' ++ rest') 0) (nth 0 (bytes ++ rest) 0)) as [E0 | N0];
    [| exists 0%nat; exact N0].
  destruct (Z.eq_dec (nth 1 (bytes' ++ rest') 0) (nth 1 (bytes ++ rest) 0)) as [E1 | N1];
    [| exists 1%nat; exact N1].
  destruct (Z.eq_dec (nth 2 (bytes' ++ rest') 0) (nth 2 (bytes ++ rest) 0)) as [E2 | N2];
    [| exists 2%nat; exact N2].
  destruct (Z.eq_dec (nth 3 (bytes' ++ rest') 0) (nth 3 (bytes ++ rest) 0)) as [E3 | N3];
    [| exists 3%nat; exact N3].
  exfalso. apply Hne. subst bytes bytes'.
  destruct (Z.ltb_spec cp 128), (Z.ltb_spec cp 2048), (Z.ltb_spec cp 65536),
    (Z.ltb_spec cp' 128), (Z.ltb_spec cp' 2048), (Z.ltb_spec cp' 65536);
    cbn [nth app] in E0, E1, E2, E3; try lia;
    Z.div_mod_to_equations; lia.
Qed.

Lemma encode_from_any_position pos pos' s bytes :
  Py.encode_from pos s = Ok bytes -> Py.encode_from pos' s = Ok bytes.
Proof.
  revert pos pos' bytes. induction s as [| cp s IH]; intros pos pos' bytes; [trivial |].
  cbn [Py.encode_from]. destruct (Py.is_surrogate cp); [discriminate |].
  destruct (Py.encode_from (S pos) s) as [tail |] eqn:Htail; [| discriminate].
  rewrite (IH _ (S pos') _ Htail). trivial.
Qed.

(** One character of a secret replaced by another: when both keys fit in a
    block, the second secret is [rekeyed] from the first. *)
Lemma changed_character_rekeyed before cp cp' after key key' :
  0 <= cp <= 0x10FFFF -> 0 <= cp' <= 0x10FFFF -> cp <> cp' ->
  Py.encode (before ++ cp :: after) = Ok key ->
  Py.encode (before ++ cp' :: after) = Ok key' ->
  (length key <= HMAC.block_size)%nat -> (length key' <= HMAC.block_size)%nat ->
  rekeyed (before ++ cp :: after) (before ++ cp' :: after).
Proof.
  intros Hcp Hcp' Hne Hkey Hkey' Hlen Hlen'.
  exists key, key'. split; [exact Hkey |]. split; [exact Hkey' |].
  left. split; [exact Hlen |]. split; [exact Hlen' |].
  clear Hlen Hlen'. unfold Py.encode in Hkey, Hkey'.
  revert key key' Hkey Hkey'. generalize O as pos.
  induction before as [| c before IH]; intros pos key key' Hkey Hkey'.
  - cbn [app Py.encode_from] in Hkey, Hkey'.
    destruct (Py.is_surrogate cp); [discriminate |].
    destruct (Py.is_surrogate cp'); [discriminate |].
    destruct (Py.encode_from (S pos) after) as [tail |]; [| discriminate].
    cbn [mbind result_bind] in Hkey, Hkey'.
    injection Hkey as <-. injection Hkey' as <-.
    apply code_points_differ; assumption.
  - cbn [app Py.encode_from] in Hkey, Hkey'.
    destruct (Py.is_surrogate c); [discriminate |].
    destruct (Py.encode_from (S pos) (before ++ cp :: after)) as [tail |] eqn:Htail;
      [| discriminate].
    destruct (Py.encode_from (S pos) (before ++ cp' :: after)) as [tail' |] eqn:Htail';
      [| discriminate].
    cbn [mbind result_bind] in Hkey, Hkey'.
    injection Hkey as <-. injection Hkey' as <-.
    destruct (IH (S pos) tail tail' Htail Htail') as [i Hi].
    exists (length (Py.encode_code_point c) + i)%nat.
    rewrite !app_nth2_plus. exact Hi.
Qed.

(** A single flipped bit: the eight secrets one bit away from [k] (code
    point 107) are [rekeyed] from it. *)
Example one_bit_from_secret_is_rekeyed :
  List.map (fun bit => Z.lxor (2 ^ bit) 107) [0; 1; 2; 3; 4; 5; 6; 7]
  = [106; 105; 111; 99; 123; 75; 43; 235]
  /\ Forall (fun cp' => rekeyed [107] [cp']) [106; 105; 111; 99; 123; 75; 43; 235].
Proof.
  split; [reflexivity |].
  repeat (apply List.Forall_cons;
          [cbv beta;
           match goal with
           | |- rekeyed _ [?cp'] =>
               apply (changed_character_rekeyed [] 107 cp' [] (Text.encode "k")
                        (Py.encode_code_point cp'));
               [lia | lia | discriminate | reflexivity | reflexivity
                | apply Nat.leb_le; reflexivity ..]
           end |]).
  apply List.Forall_nil.
Qed.

(** ** Signatures: round trip and tampering *)




(** Why zero bytes at the end of a key do not count: HMAC pads a key
    shorter than its block with zero bytes, so the secret [k] followed by a
    NUL character verifies what [k] signed. *)
Example padded_secret_verifies :
  Scenario.padded_secret <> Scenario.secret /\
  verify_signature Scenario.data
    (generate_signature Scenario.data Scenario.secret) Scenario.padded_secret = true.
Proof. split; [discriminate | vm_compute; reflexivity]. Qed.

(** ** The signature and the body *)

(** C8 (amended): the signature in the header is HMAC-SHA256 over the
    serialisation of the payload with sorted keys; the body is serialised
    in insertion order, so its bytes are never the signed bytes, and
    HMAC-SHA256 over the body is not the signature in the header, unless
    SHA-256 collides on the messages the two HMAC computations hash. *)
Theorem webhook_signature_is_over_sorted_payload
    (url ev : string) (data : Json.value) (secret : option string) (s ts : string)
    (o : Json.options) :
  truthy secret = Some s ->
  Json.sort_keys o = false ->
  let r := webhook_request url ev data secret ts in
  let signed := Text.encode (Json.dumps (Json.Options true true ", " ": ") (req_json r)) in
  header "X-Aegis-Signature" (req_headers r)
  = Some ("sha256=" +:+ HMAC.hexdigest (Text.encode s) signed)
  /\ request_body o r <> signed
  /\ (collision_free (hmac_hashes (Text.encode s) signed
                      ++ hmac_hashes (Text.encode s) (request_body o r)) ->
      header "X-Aegis-Signature" (req_headers r)
      <> Some ("sha256=" +:+ HMAC.hexdigest (Text.encode s) (request_body o r))).
Proof.
  intros Hs Ho r signed.
  assert (Hheader : header "X-Aegis-Signature" (req_headers r)
                    = Some ("sha256=" +:+ HMAC.hexdigest (Text.encode s) signed)).
  { subst r signed. unfold webhook_request, webhook_headers. cbn [req_json req_headers].
    rewrite Hs. reflexivity. }
  assert (Hbody : request_body o r <> signed).
  { subst r signed. unfold webhook_request, request_body. cbn [req_json].
    fold (canonical_json (webhook_payload ev data ts)).
    destruct (canonical_payload_starts_with_data ev data ts) as [rest1 ->].
    destruct (unsorted_payload_starts_with_event o ev data ts Ho) as [rest2 ->].
    cbn. discriminate. }
  split; [exact Hheader |]. split; [exact Hbody |].
  intros Hfree. rewrite Hheader. intros H. injection H as H.
  apply string_app_inv_head in H. unfold HMAC.hexdigest in H.
  apply hex_inj in H; [| apply hmac_digest_bytes ..].
  symmetry in H. revert H. apply hmac_digest_differs; [exact Hfree |].
  left. exact Hbody.
Qed.

Lemma webhook_signature_is_over_sorted_payload_witness :
  truthy (Some Scenario.secret) = Some Scenario.secret /\
  Json.sort_keys httpx_compact = false /\
  let r := webhook_request Scenario.hook "analysis.completed" Scenario.data
             (Some Scenario.secret) (Scenario.clock 0) in
  let signed := Text.encode (Json.dumps (Json.Options true true ", " ": ") (req_json r)) in
  collision_free (hmac_hashes (Text.encode Scenario.secret) signed
                  ++ hmac_hashes (Text.encode Scenario.secret) (request_body httpx_compact r))
  /\ header "X-Aegis-Signature" (req_headers r)
     = Some ("sha256=" +:+ HMAC.hexdigest (Text.encode Scenario.secret) signed)
  /\ request_body httpx_compact r <> signed
  /\ header "X-Aegis-Signature" (req_headers r)
     <> Some ("sha256=" +:+ HMAC.hexdigest (Text.encode Scenario.secret)
                                           (request_body httpx_compact r)).
Proof.
  split; [reflexivity |]. split; [reflexivity |]. cbv zeta.
  match goal with
  | |- ?F /\ _ => assert (Hfree : F)
  end.
  { apply collision_free_nodup, (bool_decide_unpack _). vm_compute. reflexivity. }
  split; [exact Hfree |].
  destruct (webhook_signature_is_over_sorted_payload Scenario.hook "analysis.completed"
              Scenario.data (Some Scenario.secret) Scenario.secret (Scenario.clock 0)
              httpx_compact eq_refl eq_refl) as (Hheader & Hbody & Hne).
  split; [exact Hheader |]. split; [exact Hbody | exact (Hne Hfree)].
Defined.

(** ** Deliveries whose arguments cannot be signed *)

Section PyDeliveryFacts.

Context (cfg : Settings) (E : env).

(** The payload of a webhook is serialised as its data is. *)
Lemma to_json_webhook_payload event data timestamp :
  Py.to_json (Py.webhook_payload event data timestamp)
  = (d ← Py.to_json data; Ok (webhook_payload event d timestamp)).
Proof.
  unfold Py.webhook_payload, webhook_payload. cbn.
  destruct (Py.to_json data); reflexivity.
Qed.

(** Signing the payload of a webhook: the data is serialised first, then the
    secret is encoded; the rest cannot raise. *)
Lemma generate_signature_webhook_payload event data timestamp secret :
  exists text_of : string -> string,
    Py.generate_signature (Py.webhook_payload event data timestamp) secret
    = (text ← Py.dumps (Json.Options true true ", " ": ") data;
       key ← Py.encode secret;
       Ok (HMAC.hexdigest key (Text.encode (text_of text)))).
Proof.
  exists (fun text =>
            "{" +:+ Text.join ", "
                      [Json.quote true "data" +:+ ": " +:+ text;
                       Json.quote true "event" +:+ ": " +:+ Json.quote true event;
                       Json.quote true "timestamp" +:+ ": " +:+ Json.quote true timestamp]
            +:+ "}").
  unfold Py.generate_signature, Py.webhook_payload.
  cbn [Py.dumps Json.sort_keys List.map fst snd Py.sort_items fold_left Py.insert_item].
  change (String.ltb "data" "event") with true. cbn iota.
  cbn [Py.insert_item fst snd].
  change (String.ltb "timestamp" "data") with false.
  change (String.ltb "timestamp" "event") with false.
  cbn [List.map fst snd Py.sequence mbind result_bind Json.dumps
       Json.ensure_ascii Json.key_separator Json.item_separator].
  destruct (Py.dumps _ data) as [text | e]; reflexivity.
Qed.

(** Whether the headers can be built does not depend on the clock. *)
Lemma webhook_headers_any_time event data secret timestamp timestamp' headers :
  Py.webhook_headers event (Py.webhook_payload event data timestamp) secret = Ok headers ->
  exists headers',
    Py.webhook_headers event (Py.webhook_payload event data timestamp') secret = Ok headers'.
Proof.
  unfold Py.webhook_headers. destruct (Py.truthy secret) as [s |]; [| eauto].
  destruct (generate_signature_webhook_payload event data timestamp s) as [f ->].
  destruct (generate_signature_webhook_payload event data timestamp' s) as [f' ->].
  destruct (Py.dumps _ data) as [text | e]; [| discriminate].
  destruct (Py.encode s) as [key | e]; [| discriminate].
  cbn [mbind result_bind]. eauto.
Qed.

(** What one [client.post] adds to the world: a POST when the data can be
    serialised, nothing when it cannot. *)
Lemma client_post_cases webhook_url event data timestamp headers w a w1 :
  Py.client_post E webhook_url (Py.webhook_payload event data timestamp) headers w = (a, w1) ->
  match Py.to_json data with
  | Ok d =>
      w1 = w ++ [WebhookPost (Request webhook_url (webhook_payload event d timestamp) headers) a]
  | Raised e => a = TransportError e /\ w1 = w
  end.
Proof.
  unfold Py.client_post. rewrite to_json_webhook_payload.
  destruct (Py.to_json data) as [d | e]; cbn [mbind result_bind]; unfold client_post.
  - intros H. inversion H. reflexivity.
  - intros H. inversion H. split; reflexivity.
Qed.

(** Every call: either the headers cannot be built and the call raises
    before the [try], or it returns a boolean. *)
Lemma deliver_webhook_outcome webhook_url event data secret retry_count w :
  match Py.webhook_headers event
          (Py.webhook_payload event data (utcnow E (length w))) secret with
  | Raised e =>
      Py.deliver_webhook cfg E webhook_url event data secret retry_count w = (Raised e, w)
  | Ok _ =>
      exists b tr,
        Py.deliver_webhook cfg E webhook_url event data secret retry_count w
        = (Ok b, w ++ tr)
        /\ Z.of_nat (webhook_posts tr)
           <= Z.max 0 (WEBHOOK_MAX_RETRIES cfg - retry_count) + 1
        /\ match Py.to_json data with
           | Ok _ => (1 <= webhook_posts tr)%nat
           | Raised _ => webhook_posts tr = 0%nat /\ b = false
           end
  end.
Proof.
  funelim (Py.deliver_webhook cfg E webhook_url event data secret retry_count w);
    try clear Heqcall;
    match goal with
    | H : Py.webhook_headers _ _ _ = _ |- _ => rewrite H
    end;
    [reflexivity | ..].
  all: repeat match goal with
         | Hh : Py.webhook_headers ?ev (Py.webhook_payload ?ev ?d ?ts) ?s = Ok _,
           IH : context [Py.webhook_headers ?ev (Py.webhook_payload ?ev ?d ?ts') ?s] |- _ =>
             destruct (webhook_headers_any_time ev d s ts ts' _ Hh) as [? Hh'];
             rewrite Hh' in IH; clear Hh'
         end.
  all: match goal with
       | H : Py.client_post _ _ _ _ _ = _ |- _ => apply client_post_cases in H
       end.
  all: destruct (Py.to_json data) as [d | e'];
    repeat match goal with
           | H : _ /\ _ |- _ => destruct H
           | H : exists _, _ |- _ => destruct H
           end;
    try discriminate; subst;
    unfold asyncio_sleep, print in *;
    repeat match goal with
           | H1 : ?x = _, H2 : ?x = _ |- _ => rewrite H1 in H2; inversion H2; subst; clear H2
           end.
  all: try match goal with
           | H : Py.deliver_webhook _ _ _ _ _ _ _ _ = _ |- _ => rewrite H
           end.
  all: eexists _, _; rewrite <- ?app_assoc;
    (split; [reflexivity |]);
    rewrite ?webhook_posts_app; cbn [webhook_posts List.filter is_webhook_post length app];
    repeat split; try lia.
Qed.

(** One step of each of the two functions. *)
Lemma py_deliver_webhook_step webhook_url event data secret retry_count w :
  Py.deliver_webhook cfg E webhook_url event data secret retry_count w
  = match Py.webhook_headers event
            (Py.webhook_payload event data (utcnow E (length w))) secret with
    | Raised e => (Raised e, w)
    | Ok headers =>
        match Py.client_post E webhook_url
                (Py.webhook_payload event data (utcnow E (length w))) headers w with
        | (Response status_code _ _, w1) =>
            if accepted_status status_code then (Ok true, w1)
            else
              match Z_lt_dec retry_count (WEBHOOK_MAX_RETRIES cfg) with
              | left _ =>
                  match Py.deliver_webhook cfg E webhook_url event data secret
                          (retry_count + 1)
                          (asyncio_sleep (retry_delay cfg retry_count) w1) with
                  | (Ok b, w2) => (Ok b, w2)
                  | (Raised e, w2) =>
                      Py.deliver_webhook cfg E webhook_url event data secret
                        (retry_count + 1)
                        (asyncio_sleep (retry_delay cfg retry_count)
                           (print ("Webhook delivery error: " +:+ str_of_exn e) w2))
                  end
              | right _ => (Ok false, w1)
              end
        | (TransportError e, w1) =>
            match Z_lt_dec retry_count (WEBHOOK_MAX_RETRIES cfg) with
            | left _ =>
                Py.deliver_webhook cfg E webhook_url event data secret (retry_count + 1)
                  (asyncio_sleep (retry_delay cfg retry_count)
                     (print ("Webhook delivery error: " +:+ str_of_exn e) w1))
            | right _ => (Ok false, print ("Webhook delivery error: " +:+ str_of_exn e) w1)
            end
        end
    end.
Proof.
  funelim (Py.deliver_webhook cfg E webhook_url event data secret retry_count w);
    clear Heqcall;
    repeat match goal with
           | H : _ = match _ with _ => _ end |- _ => clear H
           end;
    repeat match goal with
           | H : _ = _ |- _ => rewrite H; clear H
           end;
    reflexivity.
Qed.

Lemma deliver_webhook_step webhook_url event data secret retry_count w :
  deliver_webhook cfg E webhook_url event data secret retry_count w
  = match client_post E
            (webhook_request webhook_url event data secret (utcnow E (length w))) w with
    | (Response status_code _ _, w1) =>
        if accepted_status status_code then (Ok true, w1)
        else
          match Z_lt_dec retry_count (WEBHOOK_MAX_RETRIES cfg) with
          | left _ =>
              match deliver_webhook cfg E webhook_url event data secret (retry_count + 1)
                      (asyncio_sleep (retry_delay cfg retry_count) w1) with
              | (Ok b, w2) => (Ok b, w2)
              | (Raised e, w2) =>
                  deliver_webhook cfg E webhook_url event data secret (retry_count + 1)
                    (asyncio_sleep (retry_delay cfg retry_count)
                       (print ("Webhook delivery error: " +:+ str_of_exn e) w2))
              end
          | right _ => (Ok false, w1)
          end
    | (TransportError e, w1) =>
        match Z_lt_dec retry_count (WEBHOOK_MAX_RETRIES cfg) with
        | left _ =>
            deliver_webhook cfg E webhook_url event data secret (retry_count + 1)
              (asyncio_sleep (retry_delay cfg retry_count)
                 (print ("Webhook delivery error: " +:+ str_of_exn e) w1))
        | right _ => (Ok false, print ("Webhook delivery error: " +:+ str_of_exn e) w1)
        end
    end.
Proof.
  funelim (deliver_webhook cfg E webhook_url event data secret retry_count w);
    clear Heqcall; unfold client_post in *;
    repeat match goal with
           | H : _ = match _ with _ => _ end |- _ => clear H
           end;
    repeat match goal with
           | H : webhook_endpoint _ _ _ = _ |- _ => rewrite H in *; clear H
           end;
    repeat match goal with
           | H : _ = _ |- _ => rewrite H; clear H
           end;
    reflexivity.
Qed.

Lemma truthy_of_string secret :
  Py.truthy (option_map Py.of_string secret) = option_map Py.of_string (truthy secret).
Proof. destruct secret as [[| c s] |]; reflexivity. Qed.

Lemma webhook_headers_of_json event data timestamp secret :
  Py.webhook_headers event (Py.webhook_payload event (Py.of_json data) timestamp)
    (option_map Py.of_string secret)
  = Ok (webhook_headers event (webhook_payload event data timestamp) secret).
Proof.
  unfold Py.webhook_headers, webhook_headers. rewrite truthy_of_string.
  destruct (truthy secret) as [s |]; [| reflexivity]. cbn [option_map].
  change (Py.webhook_payload event (Py.of_json data) timestamp)
    with (Py.of_json (webhook_payload event data timestamp)).
  rewrite generate_signature_of_json. reflexivity.
Qed.

(** On JSON data and a secret of code points below 256, the delivery is the
    one of [deliver_webhook] above. *)
Lemma deliver_webhook_of_json webhook_url event data secret retry_count w :
  Py.deliver_webhook cfg E webhook_url event (Py.of_json data)
    (option_map Py.of_string secret) retry_count w
  = deliver_webhook cfg E webhook_url event data secret retry_count w.
Proof.
  remember (Z.to_nat (WEBHOOK_MAX_RETRIES cfg - retry_count)) as n eqn:Hn.
  revert retry_count w Hn.
  induction n as [n IH] using lt_wf_ind. intros retry_count w Hn.
  rewrite py_deliver_webhook_step, deliver_webhook_step.
  rewrite webhook_headers_of_json.
  unfold Py.client_post. rewrite to_json_webhook_payload, to_json_of_json.
  cbn [mbind result_bind]. unfold webhook_request.
  destruct (client_post E _ w) as [[status_code text json | e] w1].
  - destruct (accepted_status status_code); [reflexivity |].
    destruct (Z_lt_dec retry_count (WEBHOOK_MAX_RETRIES cfg)) as [Hlt |]; [| reflexivity].
    rewrite (IH (Z.to_nat (WEBHOOK_MAX_RETRIES cfg - (retry_count + 1)))) by lia.
    destruct (deliver_webhook cfg E webhook_url event data secret (retry_count + 1) _)
      as [[b | e] w2]; [reflexivity |].
    apply (IH (Z.to_nat (WEBHOOK_MAX_RETRIES cfg - (retry_count + 1)))); lia.
  - destruct (Z_lt_dec retry_count (WEBHOOK_MAX_RETRIES cfg)) as [Hlt |]; [| reflexivity].
    apply (IH (Z.to_nat (WEBHOOK_MAX_RETRIES cfg - (retry_count + 1)))); lia.
Qed.

End PyDeliveryFacts.

(** C5, as the code has it: the payload is signed before the [try] block.
    With a non-empty secret and a payload or a secret on which
    [generate_signature] raises, [deliver_webhook] raises that exception to
    its caller, and nothing is posted, slept or printed; the claim has it
    return [False]. *)
Theorem deliver_webhook_raises_when_signing_fails (cfg : Settings) (E : env)
    (webhook_url event : string) (data : Py.value) (secret : Py.str)
    (retry_count : Z) (w : world) (e : exn) :
  secret <> [] ->
  Py.generate_signature (Py.webhook_payload event data (utcnow E (length w))) secret
  = Raised e ->
  Py.deliver_webhook cfg E webhook_url event data (Some secret) retry_count w
  = (Raised e, w).
Proof.
  intros Hsecret Hsign.
  pose proof (deliver_webhook_outcome cfg E webhook_url event data (Some secret)
                retry_count w) as H.
  unfold Py.webhook_headers in H.
  destruct secret as [| cp secret]; [congruence |].
  cbn [Py.truthy] in H. rewrite Hsign in H. exact H.
Qed.

Lemma deliver_webhook_raises_when_signing_fails_witness :
  Unsignable.secret <> []
  /\ Py.generate_signature
       (Py.webhook_payload "analysis.completed" Unsignable.dated
          (utcnow Scenario.happy (length (@nil event)))) Unsignable.secret
     = Raised (Exception "Object of type datetime is not JSON serializable")
  /\ Py.deliver_webhook settings Scenario.happy Scenario.hook "analysis.completed"
       Unsignable.dated (Some Unsignable.secret) 0 []
     = (Raised (Exception "Object of type datetime is not JSON serializable"), []).
Proof.
  assert (Hsecret : Unsignable.secret <> []) by discriminate.
  assert (Hsign : Py.generate_signature
                    (Py.webhook_payload "analysis.completed" Unsignable.dated
                       (utcnow Scenario.happy (length (@nil event)))) Unsignable.secret
                  = Raised (Exception "Object of type datetime is not JSON serializable"))
    by (vm_compute; reflexivity).
  split; [exact Hsecret |]. split; [exact Hsign |].
  exact (deliver_webhook_raises_when_signing_fails settings Scenario.happy Scenario.hook
           "analysis.completed" Unsignable.dated Unsignable.secret 0 [] _ Hsecret Hsign).
Defined.

(** The same payload without a secret: [httpx] refuses it inside the [try],
    the exception is caught and printed, and the call returns [False] after
    its retries, with nothing posted. *)
Example unserialisable_payload_without_secret :
  let '(r, w) := Py.deliver_webhook settings Scenario.happy Scenario.hook
                   "analysis.completed" Unsignable.dated None 0 [] in
  r = Ok false /\ webhook_posts w = 0%nat /\ sleeps w = [5; 10; 15].
Proof. vm_compute. repeat split; reflexivity. Qed.

